(** * Drive duplicate cleaner: a shallow embedding of the decision engine

    The development follows the TypeScript sources file by file:
    [utils.ts], [config.ts], [processors.ts], [folder-merger.ts] and
    [main.ts].  The remote store (DriveApp / the advanced Drive service) is
    modelled as an explicit state: two tables of records addressed by their
    string identities, a clock and a random source.  Every function of the
    sources that talks to the store is a computation in a small
    state-and-exception monad that also records the store calls it issues. *)

From Stdlib Require Import List ZArith String Ascii Bool Lia Arith Permutation.
From Stdlib Require Import Decimal DecimalString DecimalNat Finite.
Import ListNotations.

Local Open Scope string_scope.
Local Open Scope list_scope.

(** ** The store *)

(** What [Drive.Files.get(id, {fields: 'md5Checksum'})] answers for a file:
    the request throws, the field is absent, or a digest comes back. *)
Inductive Md5Field :=
| Md5Unavailable
| Md5Absent
| Md5Value (digest : string).

Record FileRec := mkFile {
  f_id : string;
  f_name : string;
  f_created : Z;
  f_size : Z;
  f_trashed : bool;
  f_md5 : Md5Field;
  f_parent : string
}.

Record FolderRec := mkFolder {
  d_id : string;
  d_name : string;
  d_created : Z;
  d_updated : Z;
  d_trashed : bool;
  d_parent : option string
}.

(** [w_files] and [w_folders] are kept in the order in which the store
    enumerates them; an iterator over the children of a folder yields the
    children in that order, trashed ones included (the sources test
    [isTrashed()] on what the iterators return).  [w_clock] holds the
    readings the next calls of [Date.now()] return, [w_random] the
    outcomes of the next calls of [Math.random()]. *)
Record World := mkWorld {
  w_files : list FileRec;
  w_folders : list FolderRec;
  w_now : Z;
  w_clock : list Z;
  w_random : list nat
}.

(** [ProcessingStats] of [processors.ts]. *)
Record ProcessingStats := mkPStats {
  foldersProcessed : nat;
  totalFolders : nat;
  p_filesAnalyzed : nat;
  p_filesSkipped : nat;
  p_filesDeleted : nat;
  p_spaceFreed : Z
}.

(** The log lines that mark where a phase or a unit of work starts; the
    other lines of the sources are presentation only and are left out. *)
Inductive LogLine :=
| LogMergeScanStart                      (* "Starting folder merge scan..." *)
| LogProcessingRoot (name : string)      (* "Processing root: ..." *)
| LogProcessingFolder (name : string)    (* "Processing: ..." *)
| LogGlobalTimeout                       (* "Global timeout reached" *)
| LogRootError (rootId : string)         (* "Error accessing root folder ..." *)
| LogFolderError (name : string)         (* "Error processing folder ..." *)
| LogCriticalError (msg : string)        (* "Critical error during execution" *)
| LogSummary (total : ProcessingStats).  (* the final summary block *)

(** Calls issued to the store, in program order. *)
Inductive Event :=
| EvGetMd5 (file : string)
| EvSetTrashedFile (file : string)
| EvSetTrashedFolder (folder : string)
| EvMoveTo (file : string) (target : string)
| EvSetName (file : string) (newName : string)
| EvLog (line : LogLine).

Definition mutating (e : Event) : bool :=
  match e with
  | EvSetTrashedFile _ | EvSetTrashedFolder _ | EvMoveTo _ _ | EvSetName _ _ => true
  | EvGetMd5 _ | EvLog _ => false
  end.

(** ** The monad *)

Inductive Outcome (A : Type) :=
| Ok (a : A)
| Thrown (msg : string)
| Diverged.
Arguments Ok {A} a.
Arguments Thrown {A} msg.
Arguments Diverged {A}.

Record Res (A : Type) := mkRes {
  outcome : Outcome A;
  world : World;
  events : list Event
}.
Arguments mkRes {A} _ _ _.
Arguments outcome {A} _.
Arguments world {A} _.
Arguments events {A} _.

Definition M (A : Type) := World -> Res A.

Definition ret {A} (a : A) : M A := fun w => mkRes (Ok a) w [].

Definition bind {A B} (m : M A) (f : A -> M B) : M B :=
  fun w =>
    let r := m w in
    match outcome r with
    | Ok a =>
        let r' := f a (world r) in
        mkRes (outcome r') (world r') (events r ++ events r')
    | Thrown msg => mkRes (Thrown msg) (world r) (events r)
    | Diverged => mkRes Diverged (world r) (events r)
    end.

Definition throw {A} (msg : string) : M A := fun w => mkRes (Thrown msg) w [].

Definition diverge {A} : M A := fun w => mkRes Diverged w [].

(** [try { m } catch (e) { h e.message }] *)
Definition tryCatch {A} (m : M A) (h : string -> M A) : M A :=
  fun w =>
    let r := m w in
    match outcome r with
    | Thrown msg =>
        let r' := h msg (world r) in
        mkRes (outcome r') (world r') (events r ++ events r')
    | _ => r
    end.

Definition emit (e : Event) : M unit := fun w => mkRes (Ok tt) w [e].

Definition getWorld : M World := fun w => mkRes (Ok w) w [].

Definition putWorld (w' : World) : M unit := fun _ => mkRes (Ok tt) w' [].

Declare Scope m_scope.
Delimit Scope m_scope with M.
Notation "x <- m ;; k" := (bind m (fun x => k))
  (at level 61, m at next level, right associativity) : m_scope.
Notation "m ;;; k" := (bind m (fun _ => k))
  (at level 61, right associativity) : m_scope.
Local Open Scope m_scope.

Definition when (b : bool) (m : M unit) : M unit := if b then m else ret tt.

(** ** Store primitives *)

Definition findFile (w : World) (id : string) : option FileRec :=
  find (fun f => String.eqb (f_id f) id) (w_files w).

Definition findFolder (w : World) (id : string) : option FolderRec :=
  find (fun d => String.eqb (d_id d) id) (w_folders w).

(** Reading an attribute through a handle whose entity is gone throws. *)
Definition readFile (id : string) : M FileRec :=
  fun w =>
    match findFile w id with
    | Some f => mkRes (Ok f) w []
    | None => mkRes (Thrown "file not found") w []
    end.

Definition readFolder (id : string) : M FolderRec :=
  fun w =>
    match findFolder w id with
    | Some d => mkRes (Ok d) w []
    | None => mkRes (Thrown "folder not found") w []
    end.

(** [folder.getFiles()]: the handles of the files of the folder. *)
Definition listFiles (w : World) (folder : string) : list string :=
  map f_id (filter (fun f => String.eqb (f_parent f) folder) (w_files w)).

(** [folder.getFolders()] *)
Definition listFolders (w : World) (folder : string) : list string :=
  map d_id
    (filter (fun d => match d_parent d with
                      | Some p => String.eqb p folder
                      | None => false
                      end) (w_folders w)).

(** [folder.getFilesByName(name)] *)
Definition listFilesByName (w : World) (folder name : string) : list string :=
  map f_id
    (filter (fun f => String.eqb (f_parent f) folder && String.eqb (f_name f) name)
       (w_files w)).

Definition getFiles (folder : string) : M (list string) :=
  fun w => mkRes (Ok (listFiles w folder)) w [].

Definition getFolders (folder : string) : M (list string) :=
  fun w => mkRes (Ok (listFolders w folder)) w [].

Definition getFilesByName (folder name : string) : M (list string) :=
  fun w => mkRes (Ok (listFilesByName w folder name)) w [].

Definition updFiles (g : FileRec -> FileRec) (id : string) (w : World) : World :=
  mkWorld
    (map (fun f => if String.eqb (f_id f) id then g f else f) (w_files w))
    (w_folders w) (w_now w) (w_clock w) (w_random w).

Definition updFolders (g : FolderRec -> FolderRec) (id : string) (w : World) : World :=
  mkWorld (w_files w)
    (map (fun d => if String.eqb (d_id d) id then g d else d) (w_folders w))
    (w_now w) (w_clock w) (w_random w).

Definition trashFile (f : FileRec) : FileRec :=
  mkFile (f_id f) (f_name f) (f_created f) (f_size f) true (f_md5 f) (f_parent f).

Definition trashFolderRec (d : FolderRec) : FolderRec :=
  mkFolder (d_id d) (d_name d) (d_created d) (d_updated d) true (d_parent d).

Definition reparent (target : string) (f : FileRec) : FileRec :=
  mkFile (f_id f) (f_name f) (f_created f) (f_size f) (f_trashed f) (f_md5 f) target.

Definition rename (n : string) (f : FileRec) : FileRec :=
  mkFile (f_id f) n (f_created f) (f_size f) (f_trashed f) (f_md5 f) (f_parent f).

(** [file.setTrashed(true)] *)
Definition setTrashedFile (id : string) : M unit :=
  fun w => mkRes (Ok tt) (updFiles trashFile id w) [EvSetTrashedFile id].

(** [folder.setTrashed(true)] *)
Definition setTrashedFolder (id : string) : M unit :=
  fun w => mkRes (Ok tt) (updFolders trashFolderRec id w) [EvSetTrashedFolder id].

(** [file.moveTo(target)] *)
Definition moveTo (id target : string) : M unit :=
  fun w => mkRes (Ok tt) (updFiles (reparent target) id w) [EvMoveTo id target].

(** [file.setName(n)] *)
Definition setName (id n : string) : M unit :=
  fun w => mkRes (Ok tt) (updFiles (rename n) id w) [EvSetName id n].

(** [Drive.Files.get(id, {fields: 'md5Checksum'}).md5Checksum]: [None] is
    JavaScript's [undefined]. *)
Definition driveFilesGetMd5 (id : string) : M (option string) :=
  fun w =>
    match findFile w id with
    | None => mkRes (Thrown "file not found") w [EvGetMd5 id]
    | Some f =>
        match f_md5 f with
        | Md5Unavailable => mkRes (Thrown "md5 request failed") w [EvGetMd5 id]
        | Md5Absent => mkRes (Ok None) w [EvGetMd5 id]
        | Md5Value s => mkRes (Ok (Some s)) w [EvGetMd5 id]
        end
    end.

(** [x || null] for an optional string: the empty string is falsy. *)
Definition orNull (x : option string) : option string :=
  match x with
  | Some EmptyString => None
  | other => other
  end.

(** [Date.now()] *)
Definition dateNow : M Z :=
  fun w =>
    match w_clock w with
    | [] => mkRes (Ok (w_now w)) w []
    | t :: ts => mkRes (Ok t) (mkWorld (w_files w) (w_folders w) t ts (w_random w)) []
    end.

(** [Math.floor(Math.random() * n)] for [n > 0]: some index below [n]. *)
Definition randomBelow (n : nat) : M nat :=
  fun w =>
    match w_random w with
    | [] => mkRes (Ok 0) w []
    | r :: rs =>
        mkRes (Ok (r mod n))
          (mkWorld (w_files w) (w_folders w) (w_now w) (w_clock w) rs) []
    end.

(** ** The runtime *)

(** [String.prototype.toLowerCase] is a function of the JavaScript runtime,
    which lowers every cased letter of the Unicode tables it ships with.  It
    is taken as a parameter of the model, acting on the text as it is
    encoded in a [string]: what is proved of the engine holds for every
    lower-casing function. *)
Class Runtime := {
  toLowerCase : string -> string
}.

(** A runtime for the sample runs: it lowers the letters A to Z and leaves
    every other character as it is. *)
Definition lowerAscii (c : ascii) : ascii :=
  let n := nat_of_ascii c in
  if ((65 <=? n)%nat && (n <=? 90)%nat)%bool then ascii_of_nat (n + 32) else c.

Fixpoint lowerAsciiString (s : string) : string :=
  match s with
  | EmptyString => EmptyString
  | String c s' => String (lowerAscii c) (lowerAsciiString s')
  end.

Definition asciiRuntime : Runtime := {| toLowerCase := lowerAsciiString |}.

Section Engine.
Context {rt : Runtime}.

(** ** utils.ts *)

(** [s.lastIndexOf(c)], [-1] when [c] does not occur; [i] is the index of
    the first character of [s]. *)
Fixpoint lastIndexFrom (c : ascii) (s : string) (i : Z) (acc : Z) : Z :=
  match s with
  | EmptyString => acc
  | String c' s' =>
      lastIndexFrom c s' (i + 1) (if Ascii.eqb c' c then i else acc)
  end.

Definition lastIndexOf (c : ascii) (s : string) : Z := lastIndexFrom c s 0 (-1).

(** [s.slice(n)] for [n >= 0]. *)
Definition sliceFrom (n : Z) (s : string) : string :=
  if (Z.of_nat (String.length s) <=? n)%Z then EmptyString
  else substring (Z.to_nat n) (String.length s - Z.to_nat n) s.

(** [x >>> 0] *)
Definition toUint32 (x : Z) : Z := (x mod 4294967296)%Z.

Definition getFileExtension (filename : string) : string :=
  toLowerCase
    (sliceFrom (toUint32 (lastIndexOf "."%char filename - 1) + 2)%Z filename).

Definition includes (xs : list string) (x : string) : bool :=
  existsb (String.eqb x) xs.

Definition isFileExcluded (fileName : string) (excludedExtensions : list string) : bool :=
  match excludedExtensions with
  | [] => false
  | _ => includes excludedExtensions (getFileExtension fileName)
  end.

(** The [while (true)] walk up the parents of [isFolderExcluded]. *)
Fixpoint parentsExcluded (fuel : nat) (current : string) (excluded : list string)
  : M bool :=
  match fuel with
  | O => diverge
  | S fuel' =>
      d <- readFolder current ;;
      match d_parent d with
      | None => ret false
      | Some p =>
          if includes excluded p then ret true
          else parentsExcluded fuel' p excluded
      end
  end.

Definition isFolderExcluded (fuel : nat) (folder : string) (excluded : list string)
  : M bool :=
  match excluded with
  | [] => ret false
  | _ =>
      if includes excluded folder then ret true
      else parentsExcluded fuel folder excluded
  end.

(** ** config.ts *)

(** The numeric settings are JavaScript numbers; creation times and sizes
    are whole numbers of milliseconds and bytes, and the settings are taken
    whole as well. *)

Inductive SortMode := LAST_UPDATED | RANDOM.
Inductive KeepStrategy := OLDEST | NEWEST | MOST_FILES.

Record Config := mkConfig {
  ROOT_FOLDER_IDS : list string;
  DUPLICATION_WINDOW_HOURS : Z;
  MAX_EXECUTION_TIME_SECONDS : Z;
  EXCLUDED_FOLDER_IDS : list string;
  EXCLUDED_EXTENSIONS : list string;
  FOLDER_SORT_MODE : SortMode;
  FILE_AGE_FILTER_DAYS : Z;
  MERGE_DUPLICATE_FOLDERS : bool;
  MERGE_FOLDERS_RECURSIVE : bool;
  MERGE_KEEP_FOLDER_STRATEGY : KeepStrategy;
  DRY_RUN : bool
}.

Record RuntimeConfig := mkRuntime {
  base : Config;
  DUPLICATION_WINDOW_MS : Z;
  MAX_EXECUTION_TIME_MS : Z;
  FILE_AGE_FILTER_MS : Z
}.

(** [getConfig], from the point where the script properties are parsed:
    the validation of the root list and the derived millisecond values. *)
Definition getConfig (config : Config) : M RuntimeConfig :=
  match ROOT_FOLDER_IDS config with
  | [] => throw "ROOT_FOLDER_IDS is empty. Please run setupConfig() first."
  | _ =>
      ret (mkRuntime config
             (DUPLICATION_WINDOW_HOURS config * 60 * 60 * 1000)%Z
             (MAX_EXECUTION_TIME_SECONDS config * 1000)%Z
             (FILE_AGE_FILTER_DAYS config * 24 * 60 * 60 * 1000)%Z)
  end.

(** ** processors.ts: the per-folder analysis *)

(** [FileInfo]; the [fileObject] handle of the source is [fi_id]. *)
Record FileInfo := mkInfo {
  fi_id : string;
  fi_name : string;
  fi_created : Z;
  fi_size : Z
}.

(** [fileGroups], a JavaScript object used as a map from digest to array.
    It is kept as an association list in insertion order, the order in
    which [for (const md5 in fileGroups)] visits keys that are not array
    indices (a 32-digit digest is none). *)
Definition FileGroups := list (string * list FileInfo).

(** [if (!m[k]) m[k] = []; m[k].push(x)], for an object or a [Map] whose
    values are arrays. *)
Fixpoint pushAssoc {A} (key : string) (x : A) (g : list (string * list A))
  : list (string * list A) :=
  match g with
  | [] => [(key, [x])]
  | (k, xs) :: rest =>
      if String.eqb k key then (k, xs ++ [x]) :: rest
      else (k, xs) :: pushAssoc key x rest
  end.

Record FolderStats := mkStats {
  filesAnalyzed : nat;
  filesSkipped : nat;
  filesDeleted : nat;
  spaceFreed : Z
}.

Record GroupAcc := mkAcc {
  ga_groups : FileGroups;
  ga_analyzed : nat;
  ga_skipped : nat
}.

Definition skipOne (acc : GroupAcc) : GroupAcc :=
  mkAcc (ga_groups acc) (ga_analyzed acc) (S (ga_skipped acc)).

(** The [try]/[catch] around the digest request: [None] when the [catch]
    branch ran, otherwise the value of [md5Checksum || null]. *)
Definition md5Lookup (id : string) : M (option (option string)) :=
  tryCatch (x <- driveFilesGetMd5 id ;; ret (Some (orNull x)))
           (fun _ => ret None).

(** The [while (filesIterator.hasNext())] loop. *)
Fixpoint groupLoop (config : RuntimeConfig) (files : list string) (acc : GroupAcc)
  : M GroupAcc :=
  match files with
  | [] => ret acc
  | id :: rest =>
      f <- readFile id ;;
      if f_trashed f then groupLoop config rest acc
      else if isFileExcluded (f_name f) (EXCLUDED_EXTENSIONS (base config))
      then groupLoop config rest (skipOne acc)
      else
        r <- md5Lookup id ;;
        match r with
        | None => groupLoop config rest (skipOne acc)
        | Some None => groupLoop config rest (skipOne acc)
        | Some (Some md5) =>
            groupLoop config rest
              (mkAcc
                 (pushAssoc md5
                    (mkInfo (f_id f) (f_name f) (f_created f) (f_size f))
                    (ga_groups acc))
                 (S (ga_analyzed acc)) (ga_skipped acc))
        end
  end.

(** [group.sort((a, b) => a.created - b.created)]: the sort of the host is
    stable, so its result is the one of a stable insertion sort. *)
Fixpoint insertByCreated (x : FileInfo) (l : list FileInfo) : list FileInfo :=
  match l with
  | [] => [x]
  | y :: l' =>
      if (fi_created x <=? fi_created y)%Z then x :: y :: l'
      else y :: insertByCreated x l'
  end.

Definition sortByCreated (l : list FileInfo) : list FileInfo :=
  fold_right insertByCreated [] l.

(** The test of the inner loop:
    [duplicate.created - oldest.created < config.DUPLICATION_WINDOW_MS]. *)
Definition withinWindow (config : RuntimeConfig) (oldest duplicate : FileInfo) : bool :=
  (fi_created duplicate - fi_created oldest <? DUPLICATION_WINDOW_MS config)%Z.

(** [for (let i = 1; i < group.length; i++)] over the sorted group. *)
Fixpoint dupLoop (config : RuntimeConfig) (oldest : FileInfo)
  (dups : list FileInfo) (acc : nat * Z) : M (nat * Z) :=
  match dups with
  | [] => ret acc
  | duplicate :: rest =>
      if withinWindow config oldest duplicate then
        when (negb (DRY_RUN (base config))) (setTrashedFile (fi_id duplicate)) ;;;
        dupLoop config oldest rest (S (fst acc), (snd acc + fi_size duplicate)%Z)
      else dupLoop config oldest rest acc
  end.

(** [for (const md5 in fileGroups)] *)
Fixpoint groupsLoop (config : RuntimeConfig) (groups : FileGroups) (acc : nat * Z)
  : M (nat * Z) :=
  match groups with
  | [] => ret acc
  | (_, group) :: rest =>
      if (1 <? List.length group)%nat then
        match sortByCreated group with
        | oldest :: dups =>
            acc' <- dupLoop config oldest dups acc ;;
            groupsLoop config rest acc'
        | [] => groupsLoop config rest acc
        end
      else groupsLoop config rest acc
  end.

Definition emptyAcc : GroupAcc := mkAcc [] 0 0.

(** The first half of [processFolder]: listing and grouping. *)
Definition collectGroups (folder : string) (config : RuntimeConfig) : M GroupAcc :=
  files <- getFiles folder ;;
  groupLoop config files emptyAcc.

Definition processFolder (folder : string) (config : RuntimeConfig) : M FolderStats :=
  d <- readFolder folder ;;
  _ <- dateNow ;;
  emit (EvLog (LogProcessingFolder (d_name d))) ;;;
  acc <- collectGroups folder config ;;
  r <- groupsLoop config (ga_groups acc) (0, 0%Z) ;;
  _ <- dateNow ;;
  ret (mkStats (ga_analyzed acc) (ga_skipped acc) (fst r) (snd r)).

(** [FolderInfo] *)
Record FolderInfo := mkFolderInfo {
  fo_folder : string;
  fo_lastModified : Z;
  fo_name : string
}.

(** The loop that loads the subfolders of a root into an array. *)
Fixpoint loadSubfolders (fuel : nat) (config : RuntimeConfig) (subs : list string)
  (folders : list FolderInfo) : M (list FolderInfo) :=
  match subs with
  | [] => ret folders
  | s :: rest =>
      excluded <- isFolderExcluded fuel s (EXCLUDED_FOLDER_IDS (base config)) ;;
      d <- readFolder s ;;
      if excluded then loadSubfolders fuel config rest folders
      else
        loadSubfolders fuel config rest
          (folders ++ [mkFolderInfo s (d_updated d) (d_name d)])
  end.

(** [[a[i], a[j]] = [a[j], a[i]]] *)
Fixpoint setNth {A} (i : nat) (x : A) (l : list A) : list A :=
  match l, i with
  | [], _ => []
  | _ :: l', O => x :: l'
  | y :: l', S i' => y :: setNth i' x l'
  end.

Definition swap {A} (i j : nat) (l : list A) : list A :=
  match nth_error l i, nth_error l j with
  | Some a, Some b => setNth j a (setNth i b l)
  | _, _ => l
  end.

(** The Fisher-Yates loop [for (let i = n - 1; i > 0; i--)]. *)
Fixpoint shuffleLoop (i : nat) (folders : list FolderInfo) : M (list FolderInfo) :=
  match i with
  | O => ret folders
  | S i' =>
      j <- randomBelow (S i) ;;
      shuffleLoop i' (swap i j folders)
  end.

(** [folders.sort((a, b) => b.lastModified - a.lastModified)] *)
Fixpoint insertByRecency (x : FolderInfo) (l : list FolderInfo) : list FolderInfo :=
  match l with
  | [] => [x]
  | y :: l' =>
      if (fo_lastModified y <=? fo_lastModified x)%Z then x :: y :: l'
      else y :: insertByRecency x l'
  end.

Definition sortByRecency (l : list FolderInfo) : list FolderInfo :=
  fold_right insertByRecency [] l.

Definition addFolderStats (stats : ProcessingStats) (fs : FolderStats) : ProcessingStats :=
  mkPStats (S (foldersProcessed stats)) (totalFolders stats)
    (p_filesAnalyzed stats + filesAnalyzed fs)
    (p_filesSkipped stats + filesSkipped fs)
    (p_filesDeleted stats + filesDeleted fs)
    (p_spaceFreed stats + spaceFreed fs)%Z.

(** [for (const folderInfo of folders)] with the budget test and the
    [try]/[catch] around [processFolder]. *)
Fixpoint processFoldersLoop (config : RuntimeConfig) (globalStartTime : Z)
  (folders : list FolderInfo) (stats : ProcessingStats) : M ProcessingStats :=
  match folders with
  | [] => ret stats
  | folderInfo :: rest =>
      now <- dateNow ;;
      if (MAX_EXECUTION_TIME_MS config <? now - globalStartTime)%Z then ret stats
      else
        r <- tryCatch
               (fs <- processFolder (fo_folder folderInfo) config ;; ret (Some fs))
               (fun _ => emit (EvLog (LogFolderError (fo_name folderInfo))) ;;;
                         ret None) ;;
        processFoldersLoop config globalStartTime rest
          (match r with
           | Some fs => addFolderStats stats fs
           | None => stats
           end)
  end.

Definition processRootFolder (fuel : nat) (rootFolder : string)
  (config : RuntimeConfig) (globalStartTime : Z) : M ProcessingStats :=
  root <- readFolder rootFolder ;;
  emit (EvLog (LogProcessingRoot (d_name root))) ;;;
  subs <- getFolders rootFolder ;;
  loaded <- loadSubfolders fuel config subs [] ;;
  folders <- match FOLDER_SORT_MODE (base config) with
             | RANDOM => shuffleLoop (List.length loaded - 1) loaded
             | LAST_UPDATED => ret (sortByRecency loaded)
             end ;;
  processFoldersLoop config globalStartTime folders
    (mkPStats 0 (List.length folders) 0 0 0 0%Z).

(** ** folder-merger.ts *)

(** [FolderNode]; the [folder] handle of the source is [n_id]. *)
Record FolderNode := mkNode {
  n_id : string;
  n_name : string;
  n_parentId : string;
  n_level : nat;
  n_path : string
}.

Record MergeStats := mkMergeStats {
  foldersScanned : nat;
  duplicateGroupsFound : nat;
  foldersMerged : nat;
  filesMovedDuringMerge : nat;
  filesDuplicatedDuringMerge : nat;
  filesRenamedDuringMerge : nat;
  emptyFoldersDeleted : nat
}.

Inductive Resolution := KEEP_EXISTING | KEEP_INCOMING | RENAME_INCOMING | ERROR.

(** The [reason] texts of [resolveFileConflict]. *)
Inductive Reason :=
| NoMd5Available
| DifferentContent
| OutsideWindow
| ExistingIsOlder
| IncomingIsOlder.

Record FileConflictResolution := mkConflict {
  existingFile : string;
  incomingFile : string;
  existingMd5 : option string;
  incomingMd5 : option string;
  resolution : Resolution;
  reason : Reason
}.

(** An entry of the breadth-first queue. *)
Record QueueItem := mkItem {
  q_folder : string;
  q_level : nat;
  q_path : string
}.

(** The inner [while (subFoldersIterator.hasNext())] of [buildFolderTree]. *)
Fixpoint scanSubfolders (fuel : nat) (config : RuntimeConfig) (current : QueueItem)
  (subs : list string) (allFolders : list FolderNode) (queue : list QueueItem)
  : M (list FolderNode * list QueueItem) :=
  match subs with
  | [] => ret (allFolders, queue)
  | subFolder :: rest =>
      excluded <- isFolderExcluded fuel subFolder (EXCLUDED_FOLDER_IDS (base config)) ;;
      if excluded then scanSubfolders fuel config current rest allFolders queue
      else
        d <- readFolder subFolder ;;
        let node := mkNode subFolder (d_name d) (q_folder current)
                      (S (q_level current))
                      (q_path current ++ "/" ++ d_name d) in
        scanSubfolders fuel config current rest (allFolders ++ [node])
          (if MERGE_FOLDERS_RECURSIVE (base config)
           then queue ++ [mkItem subFolder (n_level node) (n_path node)]
           else queue)
  end.

(** [while (queue.length > 0)]; [fuel] bounds the number of folders taken
    from the queue. *)
Fixpoint scanQueue (fuel : nat) (exclusionFuel : nat) (config : RuntimeConfig)
  (queue : list QueueItem) (allFolders : list FolderNode) : M (list FolderNode) :=
  match fuel with
  | O => match queue with
         | [] => ret allFolders
         | _ => diverge
         end
  | S fuel' =>
      match queue with
      | [] => ret allFolders
      | current :: queue' =>
          subs <- getFolders (q_folder current) ;;
          r <- scanSubfolders exclusionFuel config current subs allFolders queue' ;;
          scanQueue fuel' exclusionFuel config (snd r) (fst r)
      end
  end.

Definition buildFolderTree (fuel : nat) (rootFolder : string) (config : RuntimeConfig)
  : M (list FolderNode) :=
  root <- readFolder rootFolder ;;
  scanQueue fuel fuel config [mkItem rootFolder 0 (d_name root)] [].

Definition folderKey (node : FolderNode) : string :=
  n_parentId node ++ "::" ++ toLowerCase (n_name node).

Definition groupDuplicateFolders (folderTree : list FolderNode)
  : list (string * list FolderNode) :=
  fold_left (fun groups node => pushAssoc (folderKey node) node groups) folderTree [].

(** [getMd5Checksum]: a failed request yields [null]. *)
Definition getMd5Checksum (file : string) : M (option string) :=
  tryCatch (x <- driveFilesGetMd5 file ;; ret (orNull x)) (fun _ => ret None).

Definition resolveFileConflict (existing incoming : string) (config : RuntimeConfig)
  : M FileConflictResolution :=
  eMd5 <- getMd5Checksum existing ;;
  iMd5 <- getMd5Checksum incoming ;;
  match eMd5, iMd5 with
  | Some e, Some i =>
      if negb (String.eqb e i)
      then ret (mkConflict existing incoming eMd5 iMd5 RENAME_INCOMING DifferentContent)
      else
        ef <- readFile existing ;;
        inf <- readFile incoming ;;
        let existingCreated := f_created ef in
        let incomingCreated := f_created inf in
        let timeDiff := Z.abs (incomingCreated - existingCreated) in
        if (DUPLICATION_WINDOW_MS config <? timeDiff)%Z
        then ret (mkConflict existing incoming eMd5 iMd5 RENAME_INCOMING OutsideWindow)
        else if (existingCreated <=? incomingCreated)%Z
        then ret (mkConflict existing incoming eMd5 iMd5 KEEP_EXISTING ExistingIsOlder)
        else ret (mkConflict existing incoming eMd5 iMd5 KEEP_INCOMING IncomingIsOlder)
  | _, _ =>
      ret (mkConflict existing incoming eMd5 iMd5 RENAME_INCOMING NoMd5Available)
  end.

(** The decimal text of a counter, as a template literal prints it. *)
Definition showNat (n : nat) : string := NilEmpty.string_of_uint (Nat.to_uint n).

(** The first lines of [generateUniqueName]: stem and extension. *)
Definition splitName (baseName : string) : string * string :=
  let lastDot := lastIndexOf "."%char baseName in
  if (0 <? lastDot)%Z
  then (substring 0 (Z.to_nat lastDot) baseName, sliceFrom lastDot baseName)
  else (baseName, EmptyString).

(** [`${name} (${counter})${ext}`] *)
Definition numbered (name ext : string) (counter : nat) : string :=
  name ++ " (" ++ showNat counter ++ ")" ++ ext.

(** [while (targetFolder.getFilesByName(newName).hasNext())] *)
Fixpoint uniqueLoop (fuel : nat) (name ext target : string) (counter : nat)
  : M string :=
  match fuel with
  | O => diverge
  | S fuel' =>
      existing <- getFilesByName target (numbered name ext counter) ;;
      match existing with
      | [] => ret (numbered name ext counter)
      | _ :: _ => uniqueLoop fuel' name ext target (S counter)
      end
  end.

(** The loop is given one round more than the target has files: it cannot
    use them up, see [uniqueLoop_total]. *)
Definition generateUniqueName (baseName target : string) : M string :=
  w <- getWorld ;;
  uniqueLoop (S (List.length (listFiles w target)))
    (fst (splitName baseName)) (snd (splitName baseName)) target 2.

Definition isFolderEmpty (folder : string) : M bool :=
  files <- getFiles folder ;;
  subs <- getFolders folder ;;
  ret (match files, subs with
       | [], [] => true
       | _, _ => false
       end).

(** The [while (subFolders.hasNext())] loop of [countFilesRecursive];
    [countOne] is the recursive call. *)
Fixpoint sumCounts (countOne : string -> M nat) (subFolders : list string)
  (count : nat) : M nat :=
  match subFolders with
  | [] => ret count
  | s :: rest =>
      c <- countOne s ;;
      sumCounts countOne rest (count + c)
  end.

Fixpoint countFilesRecursive (fuel : nat) (folder : string) : M nat :=
  match fuel with
  | O => diverge
  | S fuel' =>
      files <- getFiles folder ;;
      subs <- getFolders folder ;;
      sumCounts (countFilesRecursive fuel') subs (List.length files)
  end.

(** [a.reduce(f)] without an initial value. *)
Fixpoint reduceFrom {A} (f : A -> A -> M A) (acc : A) (l : list A) : M A :=
  match l with
  | [] => ret acc
  | x :: l' => acc' <- f acc x ;; reduceFrom f acc' l'
  end.

Definition reduce {A} (f : A -> A -> M A) (l : list A) : M A :=
  match l with
  | [] => throw "Reduce of empty array with no initial value"
  | x :: l' => reduceFrom f x l'
  end.

(** [folders.map(f => ({node: f, fileCount: countFilesRecursive(f.folder)}))] *)
Fixpoint countAll (fuel : nat) (folders : list FolderNode)
  : M (list (FolderNode * nat)) :=
  match folders with
  | [] => ret []
  | f :: rest =>
      c <- countFilesRecursive fuel (n_id f) ;;
      cs <- countAll fuel rest ;;
      ret ((f, c) :: cs)
  end.

Definition selectTargetFolder (fuel : nat) (folders : list FolderNode)
  (config : RuntimeConfig) : M FolderNode :=
  match MERGE_KEEP_FOLDER_STRATEGY (base config) with
  | OLDEST =>
      reduce (fun oldest current =>
                c <- readFolder (n_id current) ;;
                o <- readFolder (n_id oldest) ;;
                ret (if (d_created c <? d_created o)%Z then current else oldest))
             folders
  | NEWEST =>
      reduce (fun newest current =>
                c <- readFolder (n_id current) ;;
                n <- readFolder (n_id newest) ;;
                ret (if (d_updated n <? d_updated c)%Z then current else newest))
             folders
  | MOST_FILES =>
      counts <- countAll fuel folders ;;
      best <- reduce (fun max current =>
                        ret (if (snd max <? snd current)%nat then current else max))
                     counts ;;
      ret (fst best)
  end.

Record FolderMergeResult := mkMergeResult {
  filesMoved : nat;
  duplicatesHandled : nat;
  filesRenamed : nat
}.

(** The body of the [while (sourceFiles.hasNext())] loop of [mergeFolder],
    for one source file. *)
Definition mergeFile (sourceFile target : string) (config : RuntimeConfig)
  (stats : FolderMergeResult) : M FolderMergeResult :=
  let live := negb (DRY_RUN (base config)) in
  f <- readFile sourceFile ;;
  if f_trashed f then ret stats
  else
    existingFiles <- getFilesByName target (f_name f) ;;
    match existingFiles with
    | [] =>
        when live (moveTo sourceFile target) ;;;
        ret (mkMergeResult (S (filesMoved stats)) (duplicatesHandled stats)
               (filesRenamed stats))
    | existing :: _ =>
        conflict <- resolveFileConflict existing sourceFile config ;;
        match resolution conflict with
        | KEEP_EXISTING =>
            when live (setTrashedFile sourceFile) ;;;
            ret (mkMergeResult (filesMoved stats) (S (duplicatesHandled stats))
                   (filesRenamed stats))
        | KEEP_INCOMING =>
            when live (setTrashedFile existing ;;; moveTo sourceFile target) ;;;
            ret (mkMergeResult (filesMoved stats) (S (duplicatesHandled stats))
                   (filesRenamed stats))
        | RENAME_INCOMING =>
            newName <- generateUniqueName (f_name f) target ;;
            when live (setName sourceFile newName ;;; moveTo sourceFile target) ;;;
            ret (mkMergeResult (filesMoved stats) (duplicatesHandled stats)
                   (S (filesRenamed stats)))
        | ERROR => ret stats
        end
    end.

Fixpoint mergeFiles (sourceFiles : list string) (target : string)
  (config : RuntimeConfig) (stats : FolderMergeResult) : M FolderMergeResult :=
  match sourceFiles with
  | [] => ret stats
  | sourceFile :: rest =>
      stats' <- mergeFile sourceFile target config stats ;;
      mergeFiles rest target config stats'
  end.

Definition mergeFolder (sourceNode targetNode : FolderNode) (config : RuntimeConfig)
  : M FolderMergeResult :=
  sourceFiles <- getFiles (n_id sourceNode) ;;
  mergeFiles sourceFiles (n_id targetNode) config (mkMergeResult 0 0 0).

(** Step 5 and 6 of [mergeDuplicateFolders]: the loop over the sources. *)
Fixpoint mergeSources (sources : list FolderNode) (target : FolderNode)
  (config : RuntimeConfig) (stats : MergeStats) : M MergeStats :=
  match sources with
  | [] => ret stats
  | sourceFolder :: rest =>
      mergeResult <- mergeFolder sourceFolder target config ;;
      empty <- isFolderEmpty (n_id sourceFolder) ;;
      when (empty && negb (DRY_RUN (base config)))
           (setTrashedFolder (n_id sourceFolder)) ;;;
      mergeSources rest target config
        (mkMergeStats (foldersScanned stats) (duplicateGroupsFound stats)
           (S (foldersMerged stats))
           (filesMovedDuringMerge stats + filesMoved mergeResult)
           (filesDuplicatedDuringMerge stats + duplicatesHandled mergeResult)
           (filesRenamedDuringMerge stats + filesRenamed mergeResult)
           (if empty then S (emptyFoldersDeleted stats)
            else emptyFoldersDeleted stats))
  end.

(** Step 3: the loop over the duplicate groups, with the budget test. *)
Fixpoint mergeGroups (fuel : nat) (groups : list (string * list FolderNode))
  (config : RuntimeConfig) (globalStartTime : Z) (stats : MergeStats)
  : M MergeStats :=
  match groups with
  | [] => ret stats
  | (_, folders) :: rest =>
      if (List.length folders <? 2)%nat
      then mergeGroups fuel rest config globalStartTime stats
      else
        now <- dateNow ;;
        if (MAX_EXECUTION_TIME_MS config <? now - globalStartTime)%Z then ret stats
        else
          targetFolder <- selectTargetFolder fuel folders config ;;
          let sourceFolders :=
            filter (fun f => negb (String.eqb (n_id f) (n_id targetFolder))) folders in
          stats' <- mergeSources sourceFolders targetFolder config stats ;;
          mergeGroups fuel rest config globalStartTime stats'
  end.

Definition mergeDuplicateFolders (fuel : nat) (rootFolder : string)
  (config : RuntimeConfig) (globalStartTime : Z) : M MergeStats :=
  emit (EvLog LogMergeScanStart) ;;;
  folderTree <- buildFolderTree fuel rootFolder config ;;
  let duplicateGroups := groupDuplicateFolders folderTree in
  let found :=
    List.length (filter (fun kv => (1 <? List.length (snd kv))%nat) duplicateGroups) in
  let stats := mkMergeStats (List.length folderTree) found 0 0 0 0 0 in
  if (found =? 0)%nat then ret stats
  else mergeGroups fuel duplicateGroups config globalStartTime stats.

(** ** main.ts *)

Definition addRootStats (total stats : ProcessingStats) : ProcessingStats :=
  mkPStats (foldersProcessed total + foldersProcessed stats)
    (totalFolders total + totalFolders stats)
    (p_filesAnalyzed total + p_filesAnalyzed stats)
    (p_filesSkipped total + p_filesSkipped stats)
    (p_filesDeleted total + p_filesDeleted stats)
    (p_spaceFreed total + p_spaceFreed stats)%Z.

(** [for (const rootFolderId of config.ROOT_FOLDER_IDS)] *)
Fixpoint processRoots (fuel : nat) (roots : list string) (config : RuntimeConfig)
  (startTime : Z) (totalStats : ProcessingStats) : M ProcessingStats :=
  match roots with
  | [] => ret totalStats
  | rootFolderId :: rest =>
      now <- dateNow ;;
      if (MAX_EXECUTION_TIME_MS config <? now - startTime)%Z
      then emit (EvLog LogGlobalTimeout) ;;; ret totalStats
      else
        r <- tryCatch
               (_ <- readFolder rootFolderId ;;
                stats <- processRootFolder fuel rootFolderId config startTime ;;
                ret (Some stats))
               (fun _ => emit (EvLog (LogRootError rootFolderId)) ;;; ret None) ;;
        processRoots fuel rest config startTime
          (match r with
           | Some stats => addRootStats totalStats stats
           | None => totalStats
           end)
  end.

(** [cleanDuplicateAttachments]; [properties] stands for the parsed script
    properties that [getConfig] reads. *)
Definition cleanDuplicateAttachments (fuel : nat) (properties : Config) : M unit :=
  startTime <- dateNow ;;
  tryCatch
    (config <- getConfig properties ;;
     totalStats <- processRoots fuel (ROOT_FOLDER_IDS (base config)) config startTime
                     (mkPStats 0 0 0 0 0 0%Z) ;;
     _ <- dateNow ;;
     emit (EvLog (LogSummary totalStats)))
    (fun msg => emit (EvLog (LogCriticalError msg))).

(** * Vocabulary of the statements *)

(** Identities are keys of the store. *)
Definition files_unique (w : World) : Prop := NoDup (map f_id (w_files w)).

Definition folders_unique (w : World) : Prop := NoDup (map d_id (w_folders w)).

(** The trashed flag of a file, as [isTrashed()] would report it. *)
Definition fileTrashed (w : World) (id : string) : option bool :=
  option_map f_trashed (findFile w id).

(** The records behind a list of handles. *)
Definition resolve (w : World) (ids : list string) : list FileRec :=
  flat_map (fun id => match findFile w id with
                      | Some f => [f]
                      | None => []
                      end) ids.

Definition infoOf (f : FileRec) : FileInfo :=
  mkInfo (f_id f) (f_name f) (f_created f) (f_size f).

(** What the digest request of [processFolder] yields for a record. *)
Definition md5Of (f : FileRec) : option string :=
  match f_md5 f with
  | Md5Value s => orNull (Some s)
  | _ => None
  end.

(** A file takes part in the grouping when it is visible, its extension is
    not excluded and it has a digest. *)
Definition candidateOf (config : RuntimeConfig) (f : FileRec)
  : option (string * FileInfo) :=
  if f_trashed f then None
  else if isFileExcluded (f_name f) (EXCLUDED_EXTENSIONS (base config)) then None
  else match md5Of f with
       | Some h => Some (h, infoOf f)
       | None => None
       end.

Definition candidates (config : RuntimeConfig) (recs : list FileRec)
  : list (string * FileInfo) :=
  flat_map (fun f => match candidateOf config f with
                     | Some c => [c]
                     | None => []
                     end) recs.

(** The files for which the digest is requested. *)
Definition hashed (config : RuntimeConfig) (f : FileRec) : bool :=
  negb (f_trashed f)
  && negb (isFileExcluded (f_name f) (EXCLUDED_EXTENSIONS (base config))).

Definition md5Events (config : RuntimeConfig) (recs : list FileRec) : list Event :=
  map (fun f => EvGetMd5 (f_id f)) (filter (hashed config) recs).

Definition stepAcc (config : RuntimeConfig) (acc : GroupAcc) (f : FileRec) : GroupAcc :=
  if f_trashed f then acc
  else if isFileExcluded (f_name f) (EXCLUDED_EXTENSIONS (base config))
  then skipOne acc
  else match md5Of f with
       | Some h =>
           mkAcc (pushAssoc h (infoOf f) (ga_groups acc))
             (S (ga_analyzed acc)) (ga_skipped acc)
       | None => skipOne acc
       end.

Definition accOf (config : RuntimeConfig) (recs : list FileRec) (acc : GroupAcc)
  : GroupAcc :=
  fold_left (stepAcc config) recs acc.

Definition groupBy {A} (cands : list (string * A)) (g : list (string * list A))
  : list (string * list A) :=
  fold_left (fun g c => pushAssoc (fst c) (snd c) g) cands g.

Fixpoint lookupGroup {A} (h : string) (g : list (string * list A)) : list A :=
  match g with
  | [] => []
  | (k, xs) :: rest => if String.eqb k h then xs else lookupGroup h rest
  end.

Definition membersOf {A} (h : string) (cands : list (string * A)) : list A :=
  map snd (filter (fun c => String.eqb (fst c) h) cands).

Definition allMembers {A} (g : list (string * list A)) : list A :=
  flat_map snd g.

(** The members of a group that the inner loop selects for deletion. *)
Definition groupVictims (config : RuntimeConfig) (group : list FileInfo)
  : list FileInfo :=
  if (1 <? List.length group)%nat then
    match sortByCreated group with
    | oldest :: dups => filter (withinWindow config oldest) dups
    | [] => []
    end
  else [].

Definition victims (config : RuntimeConfig) (groups : FileGroups) : list FileInfo :=
  flat_map (fun kv => groupVictims config (snd kv)) groups.

Definition totalSize (l : list FileInfo) : Z :=
  fold_right (fun x s => (fi_size x + s)%Z) 0%Z l.

Definition trashAll (ids : list string) (w : World) : World :=
  fold_left (fun w id => updFiles trashFile id w) ids w.

Definition trashEvents (config : RuntimeConfig) (vs : list FileInfo) : list Event :=
  if DRY_RUN (base config) then []
  else map (fun v => EvSetTrashedFile (fi_id v)) vs.

Definition trashWorld (config : RuntimeConfig) (vs : list FileInfo) (w : World)
  : World :=
  if DRY_RUN (base config) then w else trashAll (map fi_id vs) w.

Fixpoint sortedByCreated (l : list FileInfo) : Prop :=
  match l with
  | [] => True
  | x :: l' => (forall y, In y l' -> (fi_created x <= fi_created y)%Z)
               /\ sortedByCreated l'
  end.

(** The configuration with another setting of the dry-run switch. *)
Definition setDryRun (b : bool) (config : RuntimeConfig) : RuntimeConfig :=
  mkRuntime
    (mkConfig (ROOT_FOLDER_IDS (base config)) (DUPLICATION_WINDOW_HOURS (base config))
       (MAX_EXECUTION_TIME_SECONDS (base config)) (EXCLUDED_FOLDER_IDS (base config))
       (EXCLUDED_EXTENSIONS (base config)) (FOLDER_SORT_MODE (base config))
       (FILE_AGE_FILTER_DAYS (base config)) (MERGE_DUPLICATE_FOLDERS (base config))
       (MERGE_FOLDERS_RECURSIVE (base config))
       (MERGE_KEEP_FOLDER_STRATEGY (base config)) b)
    (DUPLICATION_WINDOW_MS config) (MAX_EXECUTION_TIME_MS config)
    (FILE_AGE_FILTER_MS config).

(** The world after one reading of the clock, and the reading. *)
Definition tick (w : World) : World := world (dateNow w).

Definition reading (w : World) : Z :=
  match w_clock w with
  | [] => w_now w
  | t :: _ => t
  end.

(** Keys are distinct and no array is empty. *)
Definition groups_wf {A} (g : list (string * list A)) : Prop :=
  NoDup (map fst g) /\ forall k xs, In (k, xs) g -> xs <> [].


(** ** Sample stores *)

Definition hour : Z := 3600000.

Definition sampleConfig (dry : bool) : RuntimeConfig :=
  mkRuntime
    (mkConfig ["root"] 24 300 [] [] LAST_UPDATED 0 false true OLDEST dry)
    (24 * hour) 300000 0.

(** Three copies of one content in the folder [F]: created at 0h, at 1h and
    at 30h. *)
Definition threeCopies : World :=
  mkWorld
    [ mkFile "A" "report.pdf" 0 10 false (Md5Value "H1") "F";
      mkFile "B" "report (1).pdf" hour 10 false (Md5Value "H1") "F";
      mkFile "C" "report (2).pdf" (30 * hour) 10 false (Md5Value "H1") "F" ]
    [ mkFolder "root" "Root" 0 0 false None;
      mkFolder "F" "Inbox" 0 0 false (Some "root") ]
    0 [] [].

(** Two copies of one content in the folder [F]: the first created at 0,
    the second [t] milliseconds later. *)
Definition twoCopies (t : Z) : World :=
  mkWorld
    [ mkFile "A" "report.pdf" 0 10 false (Md5Value "H1") "F";
      mkFile "B" "report (1).pdf" t 10 false (Md5Value "H1") "F" ]
    [ mkFolder "root" "Root" 0 0 false None;
      mkFolder "F" "Inbox" 0 0 false (Some "root") ]
    0 [] [].

(** A record after the [setTrashed] calls for the identities [ids]. *)
Definition markAll (ids : list string) (f : FileRec) : FileRec :=
  fold_left (fun f id => if String.eqb (f_id f) id then trashFile f else f) ids f.

(** The first group of the sample folder, as the grouping pass builds it. *)
Definition threeCopiesGroup : list FileInfo :=
  [ mkInfo "A" "report.pdf" 0 10;
    mkInfo "B" "report (1).pdf" hour 10;
    mkInfo "C" "report (2).pdf" (30 * hour) 10 ].

(** The configuration with another setting of the file-age filter. *)
Definition setAgeFilter (days : Z) (config : RuntimeConfig) : RuntimeConfig :=
  mkRuntime
    (mkConfig (ROOT_FOLDER_IDS (base config)) (DUPLICATION_WINDOW_HOURS (base config))
       (MAX_EXECUTION_TIME_SECONDS (base config)) (EXCLUDED_FOLDER_IDS (base config))
       (EXCLUDED_EXTENSIONS (base config)) (FOLDER_SORT_MODE (base config))
       days (MERGE_DUPLICATE_FOLDERS (base config))
       (MERGE_FOLDERS_RECURSIVE (base config))
       (MERGE_KEEP_FOLDER_STRATEGY (base config)) (DRY_RUN (base config)))
    (DUPLICATION_WINDOW_MS config) (MAX_EXECUTION_TIME_MS config)
    (days * 24 * 60 * 60 * 1000).

(** A folder with one file created at time 0, read a hundred days later. *)
Definition agedStore : World :=
  mkWorld
    [ mkFile "old" "scan.pdf" 0 10 false (Md5Value "H1") "F" ]
    [ mkFolder "root" "Root" 0 0 false None;
      mkFolder "F" "Inbox" 0 0 false (Some "root") ]
    (100 * 24 * hour) [] [].

(** ** Vocabulary for the merge *)

(** The decision of [resolveFileConflict] as a function of the two records. *)
Definition conflictOf (config : RuntimeConfig) (existing incoming : string)
  (ef inf : FileRec) : FileConflictResolution :=
  match md5Of ef, md5Of inf with
  | Some e, Some i =>
      if negb (String.eqb e i)
      then mkConflict existing incoming (md5Of ef) (md5Of inf)
             RENAME_INCOMING DifferentContent
      else if (DUPLICATION_WINDOW_MS config
                 <? Z.abs (f_created inf - f_created ef))%Z
      then mkConflict existing incoming (md5Of ef) (md5Of inf)
             RENAME_INCOMING OutsideWindow
      else if (f_created ef <=? f_created inf)%Z
      then mkConflict existing incoming (md5Of ef) (md5Of inf)
             KEEP_EXISTING ExistingIsOlder
      else mkConflict existing incoming (md5Of ef) (md5Of inf)
             KEEP_INCOMING IncomingIsOlder
  | _, _ =>
      mkConflict existing incoming (md5Of ef) (md5Of inf)
        RENAME_INCOMING NoMd5Available
  end.

(** The event is a store call on the file [id]. *)
Definition mentions (id : string) (e : Event) : bool :=
  match e with
  | EvGetMd5 f | EvSetTrashedFile f | EvMoveTo f _ | EvSetName f _ => String.eqb f id
  | EvSetTrashedFolder _ | EvLog _ => false
  end.

(** A target folder [T] holding [invoice.pdf], and an incoming file of the
    same name and content created two hours later in the source [S]. *)
Definition collisionStore (existingCreated incomingCreated : Z) : World :=
  mkWorld
    [ mkFile "e1" "invoice.pdf" existingCreated 10 false (Md5Value "H") "T";
      mkFile "i1" "invoice.pdf" incomingCreated 10 false (Md5Value "H") "S" ]
    [ mkFolder "root" "Root" 0 0 false None;
      mkFolder "T" "Acme" 0 0 false (Some "root");
      mkFolder "S" "Acme" 5 5 false (Some "root") ]
    0 [] [].

(** The names of the files listed in a folder. *)
Definition namesIn (w : World) (folder : string) : list string :=
  map f_name (filter (fun f => String.eqb (f_parent f) folder) (w_files w)).

(** The candidate that [generateUniqueName] tries for a counter value. *)
Definition candidateName (baseName : string) (counter : nat) : string :=
  numbered (fst (splitName baseName)) (snd (splitName baseName)) counter.

(** No dot occurs in the string. *)
Fixpoint dotFree (s : string) : Prop :=
  match s with
  | EmptyString => True
  | String c s' => c <> "."%char /\ dotFree s'
  end.

(** The naming rule as the specification words it: the name is split at its
    last dot, wherever that dot stands. *)
Definition splitAtLastDot (baseName : string) : string * string :=
  let lastDot := lastIndexOf "."%char baseName in
  if (0 <=? lastDot)%Z
  then (substring 0 (Z.to_nat lastDot) baseName, sliceFrom lastDot baseName)
  else (baseName, EmptyString).

(** A target folder without files. *)
Definition emptyTarget : World :=
  mkWorld [] [ mkFolder "T" "Acme" 0 0 false None ] 0 [] [].

(** A target folder that already holds the variants 2 to 4 of a name. *)
Definition crowdedTarget : World :=
  mkWorld
    [ mkFile "f1" "invoice.pdf" 0 1 false Md5Absent "T";
      mkFile "f2" "invoice (2).pdf" 0 1 false Md5Absent "T";
      mkFile "f3" "invoice (3).pdf" 0 1 false Md5Absent "T";
      mkFile "f4" "invoice (4).pdf" 0 1 false Md5Absent "T" ]
    [ mkFolder "T" "Acme" 0 0 false None ] 0 [] [].

(** The effect of a store call on the store. *)
Definition applyEvent (e : Event) (w : World) : World :=
  match e with
  | EvSetTrashedFile id => updFiles trashFile id w
  | EvSetTrashedFolder id => updFolders trashFolderRec id w
  | EvMoveTo id target => updFiles (reparent target) id w
  | EvSetName id n => updFiles (rename n) id w
  | EvGetMd5 _ | EvLog _ => w
  end.

Definition replay (evs : list Event) (w : World) : World :=
  fold_left (fun w e => applyEvent e w) evs w.

(** The mutating calls of [mergeFile] for a resolved collision. *)
Definition mergeActions (config : RuntimeConfig) (source target existing : string)
  (res : Resolution) (newName : string) : list Event :=
  if DRY_RUN (base config) then []
  else match res with
       | KEEP_EXISTING => [EvSetTrashedFile source]
       | KEEP_INCOMING => [EvSetTrashedFile existing; EvMoveTo source target]
       | RENAME_INCOMING => [EvSetName source newName; EvMoveTo source target]
       | ERROR => []
       end.

(** The counter that [mergeFile] increments for a resolution. *)
Definition bump (res : Resolution) (stats : FolderMergeResult) : FolderMergeResult :=
  match res with
  | KEEP_EXISTING | KEEP_INCOMING =>
      mkMergeResult (filesMoved stats) (S (duplicatesHandled stats)) (filesRenamed stats)
  | RENAME_INCOMING =>
      mkMergeResult (filesMoved stats) (duplicatesHandled stats) (S (filesRenamed stats))
  | ERROR => stats
  end.

(** A target that holds two files named [invoice.pdf]. *)
Definition twoNamesakes : World :=
  mkWorld
    [ mkFile "e1" "invoice.pdf" 0 10 false (Md5Value "H") "T";
      mkFile "e2" "invoice.pdf" hour 10 false (Md5Value "H") "T";
      mkFile "i1" "invoice.pdf" (2 * hour) 10 false (Md5Value "H") "S" ]
    [ mkFolder "root" "Root" 0 0 false None;
      mkFolder "T" "Acme" 0 0 false (Some "root");
      mkFolder "S" "Acme" 5 5 false (Some "root") ]
    0 [] [].

(** ** Frames *)

(** The two tables of the store are the same. *)
Definition sameStore (w w' : World) : Prop :=
  w_files w' = w_files w /\ w_folders w' = w_folders w.

(** Every run of [m] emits only events in [P] and relates the worlds before
    and after by [R]. *)
Definition keeps (P : Event -> Prop) (R : World -> World -> Prop) {A} (m : M A)
  : Prop :=
  forall w, Forall P (events (m w)) /\ R w (world (m w)).

Definition nonMutating (e : Event) : Prop := mutating e = false.

Definition notMergeStart (e : Event) : Prop := e <> EvLog LogMergeScanStart.

Definition anyWorld (w w' : World) : Prop := True.

(** Two sibling folders named [Acme]; the younger one holds one file. *)
Definition mergeStore : World :=
  mkWorld
    [ mkFile "f1" "a.txt" 0 10 false (Md5Value "H1") "S" ]
    [ mkFolder "root" "Root" 0 0 false None;
      mkFolder "T" "Acme" 0 0 false (Some "root");
      mkFolder "S" "Acme" 5 5 false (Some "root") ]
    0 [] [].

(** ** Vocabulary for the choice of the target *)

(** The subtree below [folder] is at most [fuel] levels deep. *)
Fixpoint heightWithin (w : World) (fuel : nat) (folder : string) : Prop :=
  match fuel with
  | O => False
  | S fuel' => Forall (heightWithin w fuel') (listFolders w folder)
  end.

(** The number of files in [folder] and below. *)
Fixpoint fileCount (w : World) (fuel : nat) (folder : string) : nat :=
  match fuel with
  | O => 0
  | S fuel' =>
      fold_left (fun count s => count + fileCount w fuel' s)
        (listFolders w folder) (List.length (listFiles w folder))
  end.

Definition createdOf (w : World) (n : FolderNode) : Z :=
  match findFolder w (n_id n) with
  | Some d => d_created d
  | None => 0%Z
  end.

Definition updatedOf (w : World) (n : FolderNode) : Z :=
  match findFolder w (n_id n) with
  | Some d => d_updated d
  | None => 0%Z
  end.

(** [a] beats [b] on the value that the configured strategy looks at. *)
Definition prefers (config : RuntimeConfig) (fuel : nat) (w : World)
  (a b : FolderNode) : Prop :=
  match MERGE_KEEP_FOLDER_STRATEGY (base config) with
  | OLDEST => (createdOf w a < createdOf w b)%Z
  | NEWEST => (updatedOf w b < updatedOf w a)%Z
  | MOST_FILES => fileCount w fuel (n_id b) < fileCount w fuel (n_id a)
  end.

Definition setStrategy (s : KeepStrategy) (config : RuntimeConfig) : RuntimeConfig :=
  mkRuntime
    (mkConfig (ROOT_FOLDER_IDS (base config)) (DUPLICATION_WINDOW_HOURS (base config))
       (MAX_EXECUTION_TIME_SECONDS (base config)) (EXCLUDED_FOLDER_IDS (base config))
       (EXCLUDED_EXTENSIONS (base config)) (FOLDER_SORT_MODE (base config))
       (FILE_AGE_FILTER_DAYS (base config)) (MERGE_DUPLICATE_FOLDERS (base config))
       (MERGE_FOLDERS_RECURSIVE (base config)) s (DRY_RUN (base config)))
    (DUPLICATION_WINDOW_MS config) (MAX_EXECUTION_TIME_MS config)
    (FILE_AGE_FILTER_MS config).

(** Three sibling folders of one name; the last two agree on creation
    time, modification time and number of files. *)
Definition tiedStore : World :=
  mkWorld
    [ mkFile "x1" "a.txt" 0 1 false Md5Absent "B";
      mkFile "x2" "b.txt" 0 1 false Md5Absent "C" ]
    [ mkFolder "root" "Root" 0 0 false None;
      mkFolder "A" "Acme" 9 1 false (Some "root");
      mkFolder "B" "Acme" 3 7 false (Some "root");
      mkFolder "C" "Acme" 3 7 false (Some "root") ]
    0 [] [].

Definition nodeA : FolderNode := mkNode "A" "Acme" "root" 1 "Root/Acme".
Definition nodeB : FolderNode := mkNode "B" "Acme" "root" 1 "Root/Acme".
Definition nodeC : FolderNode := mkNode "C" "Acme" "root" 1 "Root/Acme".

(** Script properties with folder merging switched on. *)
Definition mergingProperties : Config :=
  mkConfig ["root"] 24 300 [] [] LAST_UPDATED 0 true true OLDEST false.

(** ** Vocabulary for the further properties *)

(** The files of a folder that [isTrashed()] reports as visible. *)
Definition visibleIn (w : World) (folder : string) : list FileRec :=
  filter (fun f => negb (f_trashed f)) (resolve w (listFiles w folder)).

(** The record differs from [f] in the trashed flag at most. *)
Definition sameButTrashed (f f' : FileRec) : Prop :=
  f_id f' = f_id f /\ f_name f' = f_name f /\ f_created f' = f_created f /\
  f_size f' = f_size f /\ f_md5 f' = f_md5 f /\ f_parent f' = f_parent f.

(** [x] is the folder [id] or one of the folders above it. *)
Inductive ancestorOrSelf (w : World) : string -> string -> Prop :=
| anc_self id : ancestorOrSelf w id id
| anc_up x id d p :
    findFolder w id = Some d -> d_parent d = Some p ->
    ancestorOrSelf w x p -> ancestorOrSelf w x id.

(** Walking up from [id] reaches a folder without parent in fewer than
    [fuel] steps, through folders of the store. *)
Fixpoint rootedWithin (w : World) (fuel : nat) (id : string) : Prop :=
  match fuel with
  | O => False
  | S fuel' =>
      match findFolder w id with
      | None => False
      | Some d =>
          match d_parent d with
          | None => True
          | Some p => rootedWithin w fuel' p
          end
      end
  end.

(** The run-time configuration that [getConfig] derives from the parsed
    properties. *)
Definition runtimeOf (properties : Config) : RuntimeConfig :=
  mkRuntime properties
    (DUPLICATION_WINDOW_HOURS properties * 60 * 60 * 1000)%Z
    (MAX_EXECUTION_TIME_SECONDS properties * 1000)%Z
    (FILE_AGE_FILTER_DAYS properties * 24 * 60 * 60 * 1000)%Z.

(** Script properties without root folders. *)
Definition noRoots : Config :=
  mkConfig [] 24 300 [] [] LAST_UPDATED 0 false true OLDEST false.

(** Script properties for a dry run over the root of the sample stores. *)
Definition dryProperties : Config :=
  mkConfig ["root"] 24 300 [] [] RANDOM 0 false true OLDEST true.

(** The record [f'] is [f] with, at most, the trashed flag raised. *)
Definition flagStep (f f' : FileRec) : Prop :=
  sameButTrashed f f' /\ (f_trashed f = true -> f_trashed f' = true).

(** The folder record [d'] has the identity, name, parent and trashed
    flag of [d]. *)
Definition folderSame (d d' : FolderRec) : Prop :=
  d_id d' = d_id d /\ d_name d' = d_name d /\ d_parent d' = d_parent d /\
  d_trashed d' = d_trashed d.

(** The store [w'] holds the files of [w] in their order, some of them
    with the trashed flag raised, and its folders with their identity,
    name, parent and trashed flag. *)
Definition flagsOnly (w w' : World) : Prop :=
  Forall2 flagStep (w_files w) (w_files w') /\
  Forall2 folderSame (w_folders w) (w_folders w').

(** The store calls that the dedup pass may issue. *)
Definition trashesFilesOnly (e : Event) : Prop :=
  match e with
  | EvSetTrashedFolder _ | EvMoveTo _ _ | EvSetName _ _ => False
  | EvGetMd5 _ | EvSetTrashedFile _ | EvLog _ => True
  end.

(** Most recently updated first. *)
Fixpoint sortedByRecency (l : list FolderInfo) : Prop :=
  match l with
  | [] => True
  | x :: l' => (forall y, In y l' -> (fo_lastModified y <= fo_lastModified x)%Z)
               /\ sortedByRecency l'
  end.

(** The folders last updated at [t]. *)
Definition updatedAt (t : Z) (l : list FolderInfo) : list FolderInfo :=
  filter (fun f => (fo_lastModified f =? t)%Z) l.

(** Every folder of the store reaches a folder without parent in fewer
    than [fuel] steps: the parents are in the store and form no cycle. *)
Definition wellRooted (w : World) (fuel : nat) : Prop :=
  forall d, In d (w_folders w) -> rootedWithin w fuel (d_id d).

(** The nodes of a tree that carry the key [k], in the order of the tree. *)
Definition withKey (k : string) (tree : list FolderNode) : list FolderNode :=
  filter (fun n => String.eqb (folderKey n) k) tree.

(** The node that [buildFolderTree] records for the subfolder [d] of the
    queue entry [current]. *)
Definition nodeOf (current : QueueItem) (d : FolderRec) : FolderNode :=
  mkNode (d_id d) (d_name d) (q_folder current) (S (q_level current))
    (q_path current ++ "/" ++ d_name d).

(** The queue entry of a node. *)
Definition itemOf (n : FolderNode) : QueueItem :=
  mkItem (n_id n) (n_level n) (n_path n).

(** The folder, or a folder above it, is in the exclusion list. *)
Definition underExcluded (config : RuntimeConfig) (w : World) (folder : string)
  : Prop :=
  exists x, In x (EXCLUDED_FOLDER_IDS (base config)) /\ ancestorOrSelf w x folder.

(** The exclusion test of the scan lets the folder through. *)
Definition keepsFolder (fuel : nat) (config : RuntimeConfig) (w : World)
  (folder : string) : bool :=
  match outcome (isFolderExcluded fuel folder (EXCLUDED_FOLDER_IDS (base config)) w) with
  | Ok excluded => negb excluded
  | _ => false
  end.

(** The node is recorded one level or more below the root, under a folder
    that lists it among its subfolders, and is not excluded. *)
Definition linked (config : RuntimeConfig) (w : World) (n : FolderNode) : Prop :=
  1 <= n_level n /\ In (n_id n) (listFolders w (n_parentId n)) /\
  ~ underExcluded config w (n_id n).

(** Script properties with folder merging restricted to the first level. *)
Definition flatProperties : Config :=
  mkConfig ["root"] 24 300 [] [] LAST_UPDATED 0 true false OLDEST false.


(** The number of source files that [mergeFolder] reports as dealt with. *)
Definition handled (r : FolderMergeResult) : nat :=
  filesMoved r + duplicatesHandled r + filesRenamed r.

(** The call moves no file elsewhere than into [target]. *)
Definition intoTarget (target : string) (e : Event) : Prop :=
  match e with
  | EvMoveTo _ t => t = target
  | _ => True
  end.

(** The two sibling folders of the sample store for merging, as nodes. *)
Definition nodeT : FolderNode := mkNode "T" "Acme" "root" 1 "Root/Acme".
Definition nodeS : FolderNode := mkNode "S" "Acme" "root" 1 "Root/Acme".

(** The store [w'] has the folder table of [w] and its files in their
    order, some of them with the trashed flag raised. *)
Definition flagsKept (w w' : World) : Prop :=
  Forall2 flagStep (w_files w) (w_files w') /\ w_folders w' = w_folders w.



(** The store call is not the trashing of a folder. *)
Definition sparesFolders (e : Event) : Prop :=
  match e with
  | EvSetTrashedFolder _ => False
  | _ => True
  end.

(** The number of [file.setTrashed(true)] calls among the events. *)
Definition isTrashCall (e : Event) : bool :=
  match e with
  | EvSetTrashedFile _ => true
  | _ => false
  end.

Definition trashCalls (evs : list Event) : nat :=
  List.length (filter isTrashCall evs).

(** No more folders processed than counted, no more files deleted than
    analyzed. *)
Definition plausible (stats : ProcessingStats) : Prop :=
  foldersProcessed stats <= totalFolders stats /\
  p_filesDeleted stats <= p_filesAnalyzed stats.

(** ** Vocabulary for the loop over the subfolders *)

(** Every reading of the clock, now and later, lies within the execution
    budget counted from [start]. *)
Definition inBudget (config : RuntimeConfig) (start : Z) (w : World) : Prop :=
  (w_now w - start <= MAX_EXECUTION_TIME_MS config)%Z /\
  Forall (fun t => (t - start <= MAX_EXECUTION_TIME_MS config)%Z) (w_clock w).

(** The folder behind an entry of the array is in the store. *)
Definition present (w : World) (fi : FolderInfo) : bool :=
  match findFolder w (fo_folder fi) with
  | Some _ => true
  | None => false
  end.

(** The line that the visit of an entry writes: the heading of
    [processFolder], or the error line of the [catch] block. *)
Definition visitLine (w : World) (fi : FolderInfo) : Event :=
  match findFolder w (fo_folder fi) with
  | Some d => EvLog (LogProcessingFolder (d_name d))
  | None => EvLog (LogFolderError (fo_name fi))
  end.

Definition isVisitLine (e : Event) : bool :=
  match e with
  | EvLog (LogProcessingFolder _) | EvLog (LogFolderError _) => true
  | _ => false
  end.

(** Three entries of a subfolder array; the second names a folder that is
    in no store of the samples. *)
Definition sampleVisits : list FolderInfo :=
  [ mkFolderInfo "F" 0 "Inbox"; mkFolderInfo "gone" 0 "Gone";
    mkFolderInfo "root" 0 "Root" ].

(** * Generic facts *)

Lemma res_eta {A} (r : Res A) : r = mkRes (outcome r) (world r) (events r).
Proof. destruct r; reflexivity. Qed.

Lemma bind_run {A B} (m : M A) (f : A -> M B) w a w1 e1 :
  m w = mkRes (Ok a) w1 e1 ->
  bind m f w = mkRes (outcome (f a w1)) (world (f a w1)) (e1 ++ events (f a w1)).
Proof. intros H. unfold bind. rewrite H. reflexivity. Qed.

Lemma find_file_id w id f : findFile w id = Some f -> f_id f = id.
Proof.
  unfold findFile. intros H. apply find_some in H. destruct H as [_ H].
  now apply String.eqb_eq.
Qed.

Lemma find_file_in w id f : findFile w id = Some f -> In f (w_files w).
Proof. unfold findFile. intros H. now apply find_some in H. Qed.

Lemma in_files_found w f : In f (w_files w) -> findFile w (f_id f) <> None.
Proof.
  unfold findFile. intros Hin Hnone.
  pose proof (find_none _ _ Hnone f Hin) as H. cbv beta in H.
  now rewrite String.eqb_refl in H.
Qed.

Lemma listFiles_found w folder id : In id (listFiles w folder) -> findFile w id <> None.
Proof.
  unfold listFiles. intros H. apply in_map_iff in H. destruct H as [f [<- Hf]].
  apply filter_In in Hf. now apply in_files_found.
Qed.

Lemma NoDup_map_filter {A B} (f : A -> B) (p : A -> bool) l :
  NoDup (map f l) -> NoDup (map f (filter p l)).
Proof.
  induction l as [|x l IH]; simpl; intros H; [constructor|].
  inversion H as [|? ? Hx Hl]; subst.
  destruct (p x); simpl; auto.
  constructor; auto. intros Hin. apply Hx.
  apply in_map_iff in Hin. destruct Hin as [y [Hy Hin]].
  apply filter_In in Hin. apply in_map_iff. exists y. tauto.
Qed.

Lemma listFiles_NoDup w folder : files_unique w -> NoDup (listFiles w folder).
Proof. intros H. unfold listFiles. now apply NoDup_map_filter. Qed.

Lemma NoDup_map_eq {A B} (f : A -> B) l x y :
  NoDup (map f l) -> In x l -> In y l -> f x = f y -> x = y.
Proof.
  induction l as [|a l IH]; simpl; intros H Hx Hy E; [contradiction|].
  inversion H as [|? ? Ha Hl]; subst.
  destruct Hx as [-> | Hx], Hy as [-> | Hy]; auto.
  - exfalso. apply Ha. rewrite E. now apply in_map.
  - exfalso. apply Ha. rewrite <- E. now apply in_map.
Qed.

(** * The grouping loop *)

Lemma resolve_cons w id ids f :
  findFile w id = Some f -> resolve w (id :: ids) = f :: resolve w ids.
Proof. intros H. unfold resolve. simpl. now rewrite H. Qed.

Lemma readFile_run w id f :
  findFile w id = Some f -> readFile id w = mkRes (Ok f) w [].
Proof. intros H. unfold readFile. now rewrite H. Qed.

Lemma md5Lookup_run w id f :
  findFile w id = Some f ->
  md5Lookup id w =
    mkRes (Ok (match f_md5 f with
               | Md5Unavailable => None
               | Md5Absent => Some None
               | Md5Value s => Some (orNull (Some s))
               end)) w [EvGetMd5 id].
Proof.
  intros H. unfold md5Lookup, tryCatch, bind, driveFilesGetMd5, ret.
  rewrite H. destruct (f_md5 f); reflexivity.
Qed.

Lemma groupLoop_run config ids : forall acc w,
  (forall id, In id ids -> findFile w id <> None) ->
  groupLoop config ids acc w =
    mkRes (Ok (accOf config (resolve w ids) acc)) w (md5Events config (resolve w ids)).
Proof.
  induction ids as [|id ids IH]; intros acc w Hall.
  - reflexivity.
  - destruct (findFile w id) as [f|] eqn:Hf.
    2:{ exfalso. apply (Hall id); [now left | assumption]. }
    rewrite (resolve_cons _ _ _ _ Hf).
    assert (Hid : f_id f = id) by now apply find_file_id in Hf.
    assert (Hrest : forall i, In i ids -> findFile w i <> None)
      by (intros i Hi; apply Hall; now right).
    cbn [groupLoop]. rewrite (bind_run _ _ _ _ _ _ (readFile_run _ _ _ Hf)).
    unfold accOf, md5Events. cbn [fold_left filter app].
    unfold stepAcc at 2, hashed at 1.
    destruct (f_trashed f); cbn [negb andb].
    { rewrite IH by assumption. reflexivity. }
    destruct (isFileExcluded (f_name f) (EXCLUDED_EXTENSIONS (base config)));
      cbn [negb andb].
    { rewrite IH by assumption. reflexivity. }
    rewrite (bind_run _ _ _ _ _ _ (md5Lookup_run _ _ _ Hf)).
    unfold md5Of. cbn [map]. subst id.
    destruct (f_md5 f) as [| |s]; cbn [orNull];
      try (rewrite IH by assumption; reflexivity).
    destruct s; rewrite IH by assumption; reflexivity.
Qed.

(** * The deletion loops *)

Lemma when_trash_run config id w :
  when (negb (DRY_RUN (base config))) (setTrashedFile id) w =
    mkRes (Ok tt)
      (if DRY_RUN (base config) then w else updFiles trashFile id w)
      (if DRY_RUN (base config) then [] else [EvSetTrashedFile id]).
Proof. destruct (DRY_RUN (base config)); reflexivity. Qed.

Lemma dupLoop_run config oldest dups : forall acc w,
  dupLoop config oldest dups acc w =
    mkRes (Ok (fst acc + List.length (filter (withinWindow config oldest) dups),
               (snd acc + totalSize (filter (withinWindow config oldest) dups))%Z))
      (trashWorld config (filter (withinWindow config oldest) dups) w)
      (trashEvents config (filter (withinWindow config oldest) dups)).
Proof.
  induction dups as [|d dups IH]; intros [n s] w.
  - cbn. unfold ret, trashWorld, trashEvents.
    rewrite Nat.add_0_r, Z.add_0_r. now destruct (DRY_RUN (base config)).
  - cbn [dupLoop filter]. destruct (withinWindow config oldest d).
    + rewrite (bind_run _ _ _ _ _ _ (when_trash_run config (fi_id d) w)).
      rewrite IH. cbn [outcome world events fst snd List.length totalSize fold_right].
      unfold trashWorld, trashEvents.
      f_equal.
      * do 2 f_equal; [lia | unfold totalSize; lia].
      * destruct (DRY_RUN (base config)); reflexivity.
      * destruct (DRY_RUN (base config)); reflexivity.
    + apply IH.
Qed.

Lemma trashWorld_app config vs1 vs2 w :
  trashWorld config (vs1 ++ vs2) w = trashWorld config vs2 (trashWorld config vs1 w).
Proof.
  unfold trashWorld, trashAll. destruct (DRY_RUN (base config)); [reflexivity|].
  now rewrite map_app, fold_left_app.
Qed.

Lemma trashEvents_app config vs1 vs2 :
  trashEvents config (vs1 ++ vs2) = trashEvents config vs1 ++ trashEvents config vs2.
Proof.
  unfold trashEvents. destruct (DRY_RUN (base config)); [reflexivity|].
  now rewrite map_app.
Qed.

Lemma totalSize_app vs1 vs2 :
  totalSize (vs1 ++ vs2) = (totalSize vs1 + totalSize vs2)%Z.
Proof. induction vs1 as [|v vs1 IH]; cbn; [reflexivity|]. unfold totalSize in *. lia. Qed.

Lemma victims_cons config k group groups :
  victims config ((k, group) :: groups) =
    groupVictims config group ++ victims config groups.
Proof. reflexivity. Qed.

Lemma groupsLoop_run config groups : forall acc w,
  groupsLoop config groups acc w =
    mkRes (Ok (fst acc + List.length (victims config groups),
               (snd acc + totalSize (victims config groups))%Z))
      (trashWorld config (victims config groups) w)
      (trashEvents config (victims config groups)).
Proof.
  induction groups as [|[k group] groups IH]; intros [n s] w.
  - cbn. unfold ret, trashWorld, trashEvents.
    rewrite Nat.add_0_r, Z.add_0_r. now destruct (DRY_RUN (base config)).
  - cbn [groupsLoop]. rewrite victims_cons. unfold groupVictims.
    destruct (1 <? List.length group)%nat.
    + destruct (sortByCreated group) as [|oldest dups].
      * cbn [app]. apply IH.
      * rewrite (bind_run _ _ _ _ _ _ (dupLoop_run config oldest dups (n, s) w)).
        rewrite IH. cbn [outcome world events fst snd].
        rewrite trashWorld_app, trashEvents_app, totalSize_app, length_app.
        f_equal. do 2 f_equal; lia.
    + cbn [app]. apply IH.
Qed.

(** * [processFolder] as a whole *)

Lemma dateNow_run w : dateNow w = mkRes (Ok (reading w)) (tick w) [].
Proof. unfold tick, reading, dateNow. destruct (w_clock w); reflexivity. Qed.

Lemma tick_files w : w_files (tick w) = w_files w.
Proof. unfold tick, dateNow. destruct (w_clock w); reflexivity. Qed.

Lemma tick_folders w : w_folders (tick w) = w_folders w.
Proof. unfold tick, dateNow. destruct (w_clock w); reflexivity. Qed.

Lemma findFile_ext w w' id : w_files w = w_files w' -> findFile w id = findFile w' id.
Proof. unfold findFile. now intros ->. Qed.

Lemma listFiles_ext w w' folder :
  w_files w = w_files w' -> listFiles w folder = listFiles w' folder.
Proof. unfold listFiles. now intros ->. Qed.

Lemma resolve_ext w w' ids : w_files w = w_files w' -> resolve w ids = resolve w' ids.
Proof.
  intros H. unfold resolve. apply flat_map_ext. intros id.
  now rewrite (findFile_ext _ _ _ H).
Qed.

Lemma readFolder_run w id d :
  findFolder w id = Some d -> readFolder id w = mkRes (Ok d) w [].
Proof. intros H. unfold readFolder. now rewrite H. Qed.

Lemma emit_run e w : emit e w = mkRes (Ok tt) w [e].
Proof. reflexivity. Qed.

Lemma collectGroups_run folder config w :
  collectGroups folder config w =
    mkRes (Ok (accOf config (resolve w (listFiles w folder)) emptyAcc)) w
      (md5Events config (resolve w (listFiles w folder))).
Proof.
  unfold collectGroups, bind, getFiles. cbn [outcome world events].
  rewrite groupLoop_run by (intros id; apply listFiles_found).
  reflexivity.
Qed.

Lemma trashAll_folders ids : forall w, w_folders (trashAll ids w) = w_folders w.
Proof.
  induction ids as [|i ids IH]; intros w; cbn; [reflexivity|].
  unfold trashAll in IH. now rewrite IH.
Qed.

Lemma trashWorld_folders config vs w :
  w_folders (trashWorld config vs w) = w_folders w.
Proof.
  unfold trashWorld. destruct (DRY_RUN (base config)); [reflexivity|].
  apply trashAll_folders.
Qed.

Lemma trashAll_files ids : forall w w',
  w_files w = w_files w' -> w_files (trashAll ids w) = w_files (trashAll ids w').
Proof.
  induction ids as [|i ids IH]; intros w w' H; cbn; [assumption|].
  apply IH. unfold updFiles. cbn. now rewrite H.
Qed.

Lemma trashWorld_files config vs w w' :
  w_files w = w_files w' ->
  w_files (trashWorld config vs w) = w_files (trashWorld config vs w').
Proof.
  unfold trashWorld. destruct (DRY_RUN (base config)); [trivial|].
  apply trashAll_files.
Qed.

Section ProcessFolderRun.
Variables (folder : string) (config : RuntimeConfig) (w : World).

Let recs := resolve w (listFiles w folder).
Let acc := accOf config recs emptyAcc.
Let vs := victims config (ga_groups acc).

Lemma processFolder_run d :
  findFolder w folder = Some d ->
  processFolder folder config w =
    mkRes (Ok (mkStats (ga_analyzed acc) (ga_skipped acc)
                 (List.length vs) (totalSize vs)))
      (tick (trashWorld config vs (tick w)))
      (EvLog (LogProcessingFolder (d_name d))
         :: md5Events config recs ++ trashEvents config vs).
Proof.
  intros Hd. unfold processFolder.
  rewrite (bind_run _ _ _ _ _ _ (readFolder_run _ _ _ Hd)).
  rewrite (bind_run _ _ _ _ _ _ (dateNow_run w)).
  rewrite (bind_run _ _ _ _ _ _ (emit_run _ _)).
  rewrite (bind_run _ _ _ _ _ _ (collectGroups_run folder config (tick w))).
  rewrite (listFiles_ext (tick w) w folder (tick_files w)).
  rewrite (resolve_ext (tick w) w _ (tick_files w)).
  fold recs. fold acc.
  rewrite (bind_run _ _ _ _ _ _ (groupsLoop_run config (ga_groups acc) (0, 0%Z) (tick w))).
  fold vs.
  rewrite (bind_run _ _ _ _ _ _ (dateNow_run _)).
  cbn. rewrite app_nil_r. reflexivity.
Qed.

Lemma processFolder_missing :
  findFolder w folder = None ->
  processFolder folder config w = mkRes (Thrown "folder not found") w [].
Proof.
  intros Hd. unfold processFolder, bind, readFolder. now rewrite Hd.
Qed.

Lemma processFolder_files :
  w_files (world (processFolder folder config w)) =
    match findFolder w folder with
    | Some _ => w_files (trashWorld config vs w)
    | None => w_files w
    end.
Proof.
  destruct (findFolder w folder) as [d|] eqn:Hd.
  - rewrite (processFolder_run d Hd). cbn [world].
    rewrite tick_files. apply trashWorld_files, tick_files.
  - now rewrite (processFolder_missing Hd).
Qed.
End ProcessFolderRun.

(** * Sorting by creation time *)

Lemma insertByCreated_perm x l : Permutation (insertByCreated x l) (x :: l).
Proof.
  induction l as [|y l IH]; cbn; [reflexivity|].
  destruct (fi_created x <=? fi_created y)%Z; [reflexivity|].
  rewrite IH. apply perm_swap.
Qed.

Lemma sortByCreated_perm l : Permutation (sortByCreated l) l.
Proof.
  induction l as [|x l IH]; cbn; [reflexivity|].
  rewrite insertByCreated_perm. now constructor.
Qed.

Lemma sortByCreated_in l x : In x (sortByCreated l) <-> In x l.
Proof.
  split; apply Permutation_in; [|symmetry]; apply sortByCreated_perm.
Qed.

Lemma insertByCreated_sorted x l :
  sortedByCreated l -> sortedByCreated (insertByCreated x l).
Proof.
  induction l as [|y l IH]; cbn; intros Hs.
  - split; [intros ? []|exact I].
  - destruct Hs as [Hy Hl].
    destruct (fi_created x <=? fi_created y)%Z eqn:E.
    + apply Z.leb_le in E. cbn. repeat split; auto.
      intros z [<-|Hz]; [assumption|]. specialize (Hy z Hz). lia.
    + apply Z.leb_gt in E. cbn. split; [|auto].
      intros z Hz. apply (Permutation_in _ (insertByCreated_perm x l)) in Hz.
      destruct Hz as [<-|Hz]; [lia|auto].
Qed.

Lemma sortByCreated_sorted l : sortedByCreated (sortByCreated l).
Proof.
  induction l as [|x l IH]; cbn; [exact I|]. now apply insertByCreated_sorted.
Qed.

(** What is first after the sort is an earliest member. *)
Lemma sortByCreated_head_min l oldest rest :
  sortByCreated l = oldest :: rest ->
  forall m, In m l -> (fi_created oldest <= fi_created m)%Z.
Proof.
  intros E m Hm. pose proof (sortByCreated_sorted l) as Hs. rewrite E in Hs.
  apply sortByCreated_in in Hm. rewrite E in Hm. destruct Hs as [Hmin _].
  destruct Hm as [<-|Hm]; [lia|auto].
Qed.

Lemma insertByCreated_front x l :
  (forall y, In y l -> (fi_created x <= fi_created y)%Z) ->
  insertByCreated x l = x :: l.
Proof.
  destruct l as [|y l]; cbn; [reflexivity|]. intros H.
  assert (fi_created x <= fi_created y)%Z as E by (apply H; now left).
  apply Z.leb_le in E. now rewrite E.
Qed.

Lemma filter_insertByCreated_keep p x l :
  sortedByCreated l -> p x = true ->
  filter p (insertByCreated x l) = insertByCreated x (filter p l).
Proof.
  induction l as [|y l IH]; intros Hs Hp.
  - cbn. now rewrite Hp.
  - destruct Hs as [Hy Hl]. cbn [insertByCreated].
    destruct (fi_created x <=? fi_created y)%Z eqn:E.
    + cbn [filter]. rewrite Hp. symmetry. apply insertByCreated_front.
      apply Z.leb_le in E. intros z Hz.
      assert (In z (y :: l)) as Hz'.
      { destruct (p y); [destruct Hz as [<-|Hz]; [now left|]|];
          right; now apply filter_In in Hz. }
      destruct Hz' as [<-|Hz']; [assumption|]. specialize (Hy z Hz'). lia.
    + cbn [filter]. destruct (p y).
      * cbn [insertByCreated]. rewrite E. f_equal. now apply IH.
      * now apply IH.
Qed.

Lemma filter_insertByCreated_drop p x l :
  p x = false -> filter p (insertByCreated x l) = filter p l.
Proof.
  intros Hp. induction l as [|y l IH]; cbn.
  - now rewrite Hp.
  - destruct (fi_created x <=? fi_created y)%Z; cbn; [now rewrite Hp|].
    now rewrite IH.
Qed.

(** A stable sort commutes with taking a subsequence. *)
Lemma sortByCreated_filter p l :
  sortByCreated (filter p l) = filter p (sortByCreated l).
Proof.
  induction l as [|x l IH]; [reflexivity|].
  change (sortByCreated (x :: l)) with (insertByCreated x (sortByCreated l)).
  cbn [filter]. destruct (p x) eqn:Hp.
  - change (sortByCreated (x :: filter p l))
      with (insertByCreated x (sortByCreated (filter p l))).
    rewrite IH. symmetry.
    apply filter_insertByCreated_keep; [apply sortByCreated_sorted | assumption].
  - now rewrite filter_insertByCreated_drop.
Qed.

(** * Groups *)

Lemma lookup_pushAssoc {A} h k (x : A) g :
  lookupGroup h (pushAssoc k x g) =
    if String.eqb k h then lookupGroup h g ++ [x] else lookupGroup h g.
Proof.
  induction g as [|[k' xs] g IH]; cbn.
  - destruct (String.eqb k h); reflexivity.
  - destruct (String.eqb k' k) eqn:E; cbn.
    + apply String.eqb_eq in E. subst k'.
      destruct (String.eqb k h); reflexivity.
    + destruct (String.eqb k' h) eqn:E'; [|assumption].
      apply String.eqb_eq in E'. subst k'.
      rewrite String.eqb_sym in E. now rewrite E.
Qed.

Lemma lookup_groupBy {A} h (cands : list (string * A)) : forall g,
  lookupGroup h (groupBy cands g) = lookupGroup h g ++ membersOf h cands.
Proof.
  induction cands as [|[k x] cands IH]; intros g; cbn.
  - unfold membersOf. cbn. now rewrite app_nil_r.
  - unfold groupBy in *. rewrite IH, lookup_pushAssoc. unfold membersOf. cbn.
    destruct (String.eqb k h); cbn; [now rewrite <- app_assoc | reflexivity].
Qed.

Lemma pushAssoc_keys {A} k (x : A) g h :
  In h (map fst (pushAssoc k x g)) <-> h = k \/ In h (map fst g).
Proof.
  induction g as [|[k' xs] g IH]; cbn.
  - intuition.
  - destruct (String.eqb k' k) eqn:E; cbn.
    + apply String.eqb_eq in E. subst. intuition.
    + rewrite IH. intuition.
Qed.

Lemma pushAssoc_wf {A} k (x : A) g : groups_wf g -> groups_wf (pushAssoc k x g).
Proof.
  induction g as [|[k' xs] g IH]; intros [Hk Hne]; cbn.
  - split; [repeat constructor; intros []|].
    intros ? ? [E|[]]. inversion E; subst. discriminate.
  - inversion Hk as [|? ? Hk' Hg]; subst.
    destruct (String.eqb k' k) eqn:E.
    + split; [assumption|]. intros h ys [E'|Hin].
      * inversion E'; subst. now destruct xs.
      * apply (Hne h ys). now right.
    + assert (groups_wf g) as Hwf.
      { split; [assumption|]. intros h ys Hin. apply (Hne h ys). now right. }
      destruct (IH Hwf) as [Hk2 Hne2]. split.
      * cbn. constructor; [|assumption]. rewrite pushAssoc_keys.
        intros [->|Hin]; [|contradiction]. now rewrite String.eqb_refl in E.
      * intros h ys [E'|Hin]; [|now apply (Hne2 h ys)].
        inversion E'; subst. apply (Hne h ys). now left.
Qed.

Lemma groupBy_wf {A} (cands : list (string * A)) : forall g,
  groups_wf g -> groups_wf (groupBy cands g).
Proof.
  induction cands as [|c cands IH]; intros g Hwf; cbn; [assumption|].
  apply IH. now apply pushAssoc_wf.
Qed.

Lemma lookup_in_wf {A} (g : list (string * list A)) h xs :
  groups_wf g -> (In (h, xs) g <-> xs = lookupGroup h g /\ xs <> []).
Proof.
  induction g as [|[k ys] g IH]; intros [Hk Hne]; cbn.
  - split; [intros []|]. intros [-> H]. now apply H.
  - inversion Hk as [|? ? Hk' Hg]; subst.
    assert (groups_wf g) as Hwf.
    { split; [assumption|]. intros k' zs Hin. apply (Hne k' zs). now right. }
    specialize (IH Hwf). destruct (String.eqb k h) eqn:E.
    + apply String.eqb_eq in E. subst k. split.
      * intros [E|Hin].
        -- inversion E; subst. split; [reflexivity|]. apply (Hne h xs). now left.
        -- exfalso. apply Hk'. apply in_map_iff. now exists (h, xs).
      * intros [-> _]. now left.
    + split.
      * intros [E'|Hin]; [|now apply IH].
        inversion E'; subst. now rewrite String.eqb_refl in E.
      * intros H. right. now apply IH.
Qed.

Lemma groups_wf_nil {A} : groups_wf (@nil (string * list A)).
Proof. split; [constructor | intros ? ? []]. Qed.

(** A group of the grouping is the subsequence of the candidates that
    carry its digest. *)
Lemma groupBy_in {A} (cands : list (string * A)) h xs :
  In (h, xs) (groupBy cands []) <-> xs = membersOf h cands /\ xs <> [].
Proof.
  rewrite (lookup_in_wf _ h xs (groupBy_wf cands [] groups_wf_nil)).
  now rewrite lookup_groupBy.
Qed.

Lemma accOf_groups config recs : forall acc,
  ga_groups (accOf config recs acc) =
    groupBy (candidates config recs) (ga_groups acc).
Proof.
  induction recs as [|f recs IH]; intros acc; [reflexivity|].
  unfold accOf, candidates in *. cbn [fold_left flat_map].
  rewrite IH. unfold groupBy. rewrite fold_left_app. f_equal.
  unfold stepAcc, candidateOf.
  destruct (f_trashed f); [reflexivity|].
  destruct (isFileExcluded _ _); [reflexivity|].
  destruct (md5Of f); reflexivity.
Qed.

(** * Identities of the members *)

Lemma resolve_in w ids f :
  In f (resolve w ids) -> In (f_id f) ids /\ findFile w (f_id f) = Some f.
Proof.
  unfold resolve. intros H. apply in_flat_map in H. destruct H as [id [Hid Hf]].
  destruct (findFile w id) as [f'|] eqn:E; [|contradiction].
  destruct Hf as [<-|[]]. pose proof (find_file_id _ _ _ E) as Hi.
  rewrite Hi. auto.
Qed.

Lemma resolve_ids w ids :
  (forall id, In id ids -> findFile w id <> None) -> map f_id (resolve w ids) = ids.
Proof.
  induction ids as [|id ids IH]; intros H; [reflexivity|].
  destruct (findFile w id) as [f|] eqn:E.
  - rewrite (resolve_cons _ _ _ _ E). cbn. rewrite (find_file_id _ _ _ E).
    f_equal. apply IH. intros i Hi. apply H. now right.
  - exfalso. apply (H id); [now left | assumption].
Qed.

Lemma candidateOf_some config f h m :
  candidateOf config f = Some (h, m) ->
  m = infoOf f /\ f_trashed f = false /\ md5Of f = Some h /\ hashed config f = true.
Proof.
  unfold candidateOf, hashed. destruct (f_trashed f); [discriminate|].
  destruct (isFileExcluded _ _); [discriminate|].
  destruct (md5Of f); [|discriminate]. intros E. inversion E; subst. auto.
Qed.

Lemma candidates_in config recs h m :
  In (h, m) (candidates config recs) <->
  exists f, In f recs /\ candidateOf config f = Some (h, m).
Proof.
  unfold candidates. rewrite in_flat_map. split.
  - intros [f [Hf Hc]]. exists f. split; [assumption|].
    destruct (candidateOf config f); [|contradiction].
    destruct Hc as [->|[]]. reflexivity.
  - intros [f [Hf Hc]]. exists f. split; [assumption|]. rewrite Hc. now left.
Qed.

Lemma candidates_NoDup config recs :
  NoDup (map f_id recs) ->
  NoDup (map (fun c => fi_id (snd c)) (candidates config recs)).
Proof.
  induction recs as [|f recs IH]; cbn; intros H; [constructor|].
  inversion H as [|? ? Hf Hr]; subst. specialize (IH Hr).
  destruct (candidateOf config f) as [[h m]|] eqn:E; cbn; [|assumption].
  constructor; [|assumption]. intros Hin. apply Hf.
  apply in_map_iff in Hin. destruct Hin as [[h' m'] [Hid Hin]]. cbn in Hid.
  apply candidates_in in Hin. destruct Hin as [f' [Hf' Hc']].
  apply candidateOf_some in Hc'. apply candidateOf_some in E.
  destruct Hc' as [-> _]. destruct E as [-> _]. cbn in Hid.
  rewrite <- Hid. now apply in_map.
Qed.

Lemma membersOf_in {A} h (cands : list (string * A)) m :
  In m (membersOf h cands) <-> In (h, m) cands.
Proof.
  unfold membersOf. rewrite in_map_iff. split.
  - intros [[k x] [E Hin]]. cbn in E. subst x. apply filter_In in Hin.
    destruct Hin as [Hin Hk]. cbn in Hk. apply String.eqb_eq in Hk. now subst.
  - intros Hin. exists (h, m). split; [reflexivity|]. apply filter_In.
    split; [assumption|]. cbn. apply String.eqb_refl.
Qed.

Lemma membersOf_NoDup h (cands : list (string * FileInfo)) :
  NoDup (map (fun c => fi_id (snd c)) cands) ->
  NoDup (map fi_id (membersOf h cands)).
Proof.
  intros H. unfold membersOf. rewrite map_map.
  now apply NoDup_map_filter.
Qed.

Section Groups.
Variables (config : RuntimeConfig) (cands : list (string * FileInfo)).
Hypothesis cands_unique : NoDup (map (fun c => fi_id (snd c)) cands).

Let groups : FileGroups := groupBy cands [].

Lemma group_members_unique h g : In (h, g) groups -> NoDup (map fi_id g).
Proof.
  intros Hg. apply groupBy_in in Hg. destruct Hg as [-> _].
  now apply membersOf_NoDup.
Qed.

Lemma member_same_group h g h' g' m m' :
  In (h, g) groups -> In (h', g') groups -> In m g -> In m' g' ->
  fi_id m = fi_id m' -> g = g' /\ m = m'.
Proof.
  intros Hg Hg' Hm Hm' E.
  apply groupBy_in in Hg. apply groupBy_in in Hg'.
  destruct Hg as [-> _], Hg' as [-> _].
  apply membersOf_in in Hm. apply membersOf_in in Hm'.
  assert ((h, m) = (h', m')) as E'
    by (apply (NoDup_map_eq _ _ _ _ cands_unique Hm Hm'); exact E).
  inversion E'; subst. auto.
Qed.

Lemma victims_in v :
  In v (victims config groups) <->
  exists h g oldest rest,
    In (h, g) groups /\ (1 < List.length g)%nat /\
    sortByCreated g = oldest :: rest /\ In v rest /\
    withinWindow config oldest v = true.
Proof.
  unfold victims. rewrite in_flat_map. split.
  - intros [[h g] [Hg Hv]]. cbn in Hv. unfold groupVictims in Hv.
    destruct (1 <? List.length g)%nat eqn:E; [|contradiction].
    apply Nat.ltb_lt in E.
    destruct (sortByCreated g) as [|oldest rest] eqn:Es; [contradiction|].
    apply filter_In in Hv. exists h, g, oldest, rest. tauto.
  - intros [h [g [oldest [rest [Hg [Hl [Es [Hv Hw]]]]]]]].
    exists (h, g). split; [assumption|]. cbn. unfold groupVictims.
    apply Nat.ltb_lt in Hl. rewrite Hl, Es. apply filter_In. auto.
Qed.

Lemma sorted_ids_unique h g :
  In (h, g) groups -> NoDup (map fi_id (sortByCreated g)).
Proof.
  intros Hg. apply (Permutation_NoDup (l := map fi_id g)).
  - apply Permutation_map. symmetry. apply sortByCreated_perm.
  - now apply (group_members_unique h).
Qed.

(** A member selected for deletion has the identity of no group's first
    member. *)
Lemma oldest_not_victim h g oldest rest v :
  In (h, g) groups -> sortByCreated g = oldest :: rest ->
  In v (victims config groups) -> fi_id v <> fi_id oldest.
Proof.
  intros Hg Es Hv E. apply victims_in in Hv.
  destruct Hv as [h' [g' [o' [rest' [Hg' [_ [Es' [Hv _]]]]]]]].
  assert (In oldest g) as Ho by (apply sortByCreated_in; rewrite Es; now left).
  assert (In v g') as Hv' by (apply sortByCreated_in; rewrite Es'; now right).
  destruct (member_same_group _ _ _ _ _ _ Hg' Hg Hv' Ho E) as [-> ->].
  rewrite Es in Es'. inversion Es'; subst.
  pose proof (sorted_ids_unique _ _ Hg) as Hn. rewrite Es in Hn.
  cbn in Hn. inversion Hn as [|? ? Hnot _]; subst.
  apply Hnot. now apply in_map.
Qed.

(** Among the later members of a sorted group, exactly those inside
    the window are selected, and identities tell them apart. *)
Lemma later_member_victim h g oldest rest d :
  In (h, g) groups -> (1 < List.length g)%nat ->
  sortByCreated g = oldest :: rest -> In d rest ->
  (In (fi_id d) (map fi_id (victims config groups)) <->
   withinWindow config oldest d = true).
Proof.
  intros Hg Hl Es Hd. split.
  - intros Hin. apply in_map_iff in Hin. destruct Hin as [v [E Hv]].
    apply victims_in in Hv.
    destruct Hv as [h' [g' [o' [rest' [Hg' [_ [Es' [Hv Hw]]]]]]]].
    assert (In d g) as Hd' by (apply sortByCreated_in; rewrite Es; now right).
    assert (In v g') as Hv' by (apply sortByCreated_in; rewrite Es'; now right).
    destruct (member_same_group _ _ _ _ _ _ Hg' Hg Hv' Hd' E) as [-> ->].
    rewrite Es in Es'. inversion Es'; subst. assumption.
  - intros Hw. apply in_map. apply victims_in.
    exists h, g, oldest, rest. auto.
Qed.
End Groups.

(** * The trashed flags after a run *)

Lemma fileTrashed_ext w w' id :
  w_files w = w_files w' -> fileTrashed w id = fileTrashed w' id.
Proof. intros H. unfold fileTrashed. now rewrite (findFile_ext _ _ _ H). Qed.

Lemma find_map_keep {A} (p : A -> bool) (g : A -> A) (l : list A) :
  (forall x, p (g x) = p x) -> find p (map g l) = option_map g (find p l).
Proof.
  intros H. induction l as [|x l IH]; cbn; [reflexivity|].
  rewrite H. destruct (p x); [reflexivity | assumption].
Qed.

Lemma findFile_updFiles g id w i :
  (forall f, f_id (g f) = f_id f) ->
  findFile (updFiles g id w) i =
    option_map (fun f => if String.eqb (f_id f) id then g f else f) (findFile w i).
Proof.
  intros Hg. unfold findFile, updFiles. cbn [w_files].
  apply find_map_keep. intros f. destruct (String.eqb (f_id f) id); [|reflexivity].
  now rewrite Hg.
Qed.

Lemma fileTrashed_trash id w i :
  fileTrashed (updFiles trashFile id w) i =
    option_map (fun b => b || String.eqb i id) (fileTrashed w i).
Proof.
  unfold fileTrashed. rewrite findFile_updFiles by reflexivity.
  destruct (findFile w i) as [f|] eqn:E; [|reflexivity]. cbn.
  rewrite (find_file_id _ _ _ E).
  destruct (String.eqb i id); cbn; [now rewrite orb_true_r | now rewrite orb_false_r].
Qed.

Lemma fileTrashed_trashAll ids : forall w i,
  fileTrashed (trashAll ids w) i =
    option_map (fun b => b || includes ids i) (fileTrashed w i).
Proof.
  induction ids as [|id ids IH]; intros w i.
  - cbn. destruct (fileTrashed w i); cbn; [now rewrite orb_false_r | reflexivity].
  - change (trashAll (id :: ids) w) with (trashAll ids (updFiles trashFile id w)).
    rewrite IH, fileTrashed_trash. destruct (fileTrashed w i); [|reflexivity].
    cbn. now rewrite orb_assoc.
Qed.

Lemma includes_in ids i : includes ids i = true <-> In i ids.
Proof.
  unfold includes. rewrite existsb_exists. split.
  - intros [x [Hx E]]. apply String.eqb_eq in E. now subst.
  - intros H. exists i. split; [assumption | apply String.eqb_refl].
Qed.

Lemma includes_not_in ids i : ~ In i ids -> includes ids i = false.
Proof.
  intros H. destruct (includes ids i) eqn:E; [|reflexivity].
  apply includes_in in E. contradiction.
Qed.

Lemma trashEvents_in config vs e :
  In e (trashEvents config vs) <->
  DRY_RUN (base config) = false /\ exists v, In v vs /\ e = EvSetTrashedFile (fi_id v).
Proof.
  unfold trashEvents. destruct (DRY_RUN (base config)).
  - split; [intros [] | intros [H _]; discriminate].
  - rewrite in_map_iff. split.
    + intros [v [E Hv]]. split; [reflexivity|]. now exists v.
    + intros [_ [v [Hv E]]]. now exists v.
Qed.

Lemma md5Events_in config recs e :
  In e (md5Events config recs) <->
  exists f, In f recs /\ hashed config f = true /\ e = EvGetMd5 (f_id f).
Proof.
  unfold md5Events. rewrite in_map_iff. split.
  - intros [f [E Hf]]. apply filter_In in Hf. exists f.
    destruct Hf as [Hf Hh]. auto.
  - intros [f [Hf [Hh E]]]. exists f. split; [auto|]. apply filter_In. auto.
Qed.

(** * Phase 2: the retention policy *)

Section FolderRun.
Variables (folder : string) (config : RuntimeConfig) (w : World).
Hypothesis unique : files_unique w.

Let recs := resolve w (listFiles w folder).
Let cands := candidates config recs.
Let groups : FileGroups := groupBy cands [].
Let vs := victims config groups.

Lemma run_cands_unique : NoDup (map (fun c => fi_id (snd c)) cands).
Proof.
  apply candidates_NoDup. unfold recs.
  rewrite resolve_ids by (intros id; apply listFiles_found).
  now apply listFiles_NoDup.
Qed.

(** A member of a group is a visible file of the store. *)
Lemma run_member_visible h g m :
  In (h, g) groups -> In m g -> fileTrashed w (fi_id m) = Some false.
Proof.
  intros Hg Hm. apply groupBy_in in Hg. destruct Hg as [-> _].
  apply membersOf_in in Hm. apply candidates_in in Hm.
  destruct Hm as [f [Hf Hc]]. apply candidateOf_some in Hc.
  destruct Hc as [-> [Ht _]]. apply resolve_in in Hf. destruct Hf as [_ Hf].
  unfold fileTrashed. cbn. rewrite Hf. cbn. now rewrite Ht.
Qed.

Lemma run_events e :
  In e (events (processFolder folder config w)) ->
  (exists n, e = EvLog (LogProcessingFolder n))
  \/ In e (md5Events config recs) \/ In e (trashEvents config vs).
Proof.
  destruct (findFolder w folder) as [d|] eqn:Hd.
  - rewrite (processFolder_run folder config w d Hd). cbn [events].
    rewrite accOf_groups. intros [<-|Hin]; [left; eauto|].
    apply in_app_or in Hin. tauto.
  - rewrite (processFolder_missing folder config w Hd). intros [].
Qed.

Lemma run_flag id :
  fileTrashed (world (processFolder folder config w)) id =
    match findFolder w folder with
    | Some _ =>
        if DRY_RUN (base config) then fileTrashed w id
        else option_map (fun b => b || includes (map fi_id vs) id) (fileTrashed w id)
    | None => fileTrashed w id
    end.
Proof.
  assert (w_files (world (processFolder folder config w)) =
          w_files (match findFolder w folder with
                   | Some _ => trashWorld config vs w
                   | None => w
                   end)) as Hfiles.
  { rewrite processFolder_files, accOf_groups.
    destruct (findFolder w folder); reflexivity. }
  rewrite (fileTrashed_ext _ _ id Hfiles).
  destruct (findFolder w folder); [|reflexivity].
  unfold trashWorld. destruct (DRY_RUN (base config)); [reflexivity|].
  apply fileTrashed_trashAll.
Qed.

Lemma run_oldest_kept h g oldest rest :
  In (h, g) groups -> sortByCreated g = oldest :: rest ->
  ~ In (EvSetTrashedFile (fi_id oldest)) (events (processFolder folder config w))
  /\ fileTrashed (world (processFolder folder config w)) (fi_id oldest) = Some false.
Proof.
  intros Hg Es.
  assert (~ In (fi_id oldest) (map fi_id vs)) as Hnot.
  { intros Hin. apply in_map_iff in Hin. destruct Hin as [v [E Hv]].
    exact (oldest_not_victim config cands run_cands_unique h g oldest rest v
             Hg Es Hv E). }
  assert (fileTrashed w (fi_id oldest) = Some false) as Hvis.
  { apply (run_member_visible h g); [assumption|].
    apply sortByCreated_in. rewrite Es. now left. }
  split.
  - intros Hin. apply run_events in Hin. destruct Hin as [[n E]|[Hin|Hin]].
    + discriminate.
    + apply md5Events_in in Hin. destruct Hin as [f [_ [_ E]]]. discriminate.
    + apply trashEvents_in in Hin. destruct Hin as [_ [v [Hv E]]].
      inversion E as [E']. apply Hnot. rewrite E'. now apply in_map.
  - rewrite run_flag, Hvis. cbn. rewrite (includes_not_in _ _ Hnot).
    destruct (findFolder w folder); [|reflexivity].
    now destruct (DRY_RUN (base config)).
Qed.
End FolderRun.

(** C1.  In every group that the grouping pass of [processFolder] builds
    (the visible, hashed files of the folder, by digest), whatever its size
    and whatever the dry-run switch, the member placed first by the sort is
    an earliest-created member of the group, [processFolder] issues no
    [setTrashed] call for it, and it is not trashed in the store that
    [processFolder] leaves. *)
Theorem earliest_member_never_trashed :
  forall folder config w acc md5 group,
    files_unique w ->
    outcome (collectGroups folder config w) = Ok acc ->
    In (md5, group) (ga_groups acc) ->
    exists oldest rest,
      sortByCreated group = oldest :: rest /\
      In oldest group /\
      (forall m, In m group -> (fi_created oldest <= fi_created m)%Z) /\
      ~ In (EvSetTrashedFile (fi_id oldest))
           (events (processFolder folder config w)) /\
      fileTrashed (world (processFolder folder config w)) (fi_id oldest)
        = Some false.
Proof.
  intros folder config w acc md5 group Hu Hacc Hg.
  rewrite collectGroups_run in Hacc. cbn in Hacc. inversion Hacc; subst acc.
  rewrite accOf_groups in Hg.
  destruct (sortByCreated group) as [|oldest rest] eqn:Es.
  - exfalso. apply groupBy_in in Hg. destruct Hg as [_ Hne].
    apply Hne. apply Permutation_nil. rewrite <- Es.
    apply sortByCreated_perm.
  - exists oldest, rest. split; [reflexivity|].
    split; [apply sortByCreated_in; rewrite Es; now left|].
    split; [now apply (sortByCreated_head_min group oldest rest)|].
    now apply (run_oldest_kept folder config w Hu md5 group oldest rest).
Qed.

Lemma threeCopies_unique : files_unique threeCopies.
Proof.
  unfold files_unique. cbn. repeat constructor; cbn; intuition discriminate.
Qed.

(** C3.  At exactly the window value the two passes disagree.  Two
    copies of one content lie in a folder, the second created exactly
    [DUPLICATION_WINDOW_MS] after the first: [processFolder] groups them,
    the earlier one first, issues no [setTrashed] call for the later one
    and leaves it in place (its comparison is the strict [<]), while for
    the same two files [resolveFileConflict], whose test is
    [timeDiff > DUPLICATION_WINDOW_MS], finds the later one within the
    window and answers KEEP_EXISTING.  One millisecond below the window
    value [processFolder] trashes the later copy. *)
Theorem boundary_member_retained :
  let config := sampleConfig false in
  let atWindow := twoCopies (DUPLICATION_WINDOW_MS config) in
  let inside := twoCopies (DUPLICATION_WINDOW_MS config - 1) in
  (exists acc,
      outcome (collectGroups "F" config atWindow) = Ok acc /\
      ga_groups acc =
        [("H1", [mkInfo "A" "report.pdf" 0 10;
                 mkInfo "B" "report (1).pdf" (DUPLICATION_WINDOW_MS config) 10])]) /\
  ~ In (EvSetTrashedFile "B") (events (processFolder "F" config atWindow)) /\
  fileTrashed (world (processFolder "F" config atWindow)) "B" = Some false /\
  outcome (processFolder "F" config atWindow) = Ok (mkStats 2 0 0 0) /\
  (exists c,
      outcome (resolveFileConflict "A" "B" config atWindow) = Ok c /\
      resolution c = KEEP_EXISTING /\ reason c = ExistingIsOlder) /\
  In (EvSetTrashedFile "B") (events (processFolder "F" config inside)) /\
  fileTrashed (world (processFolder "F" config inside)) "B" = Some true.
Proof.
  cbv zeta. split; [eexists; split; reflexivity|]. split.
  { intros H. vm_compute in H. intuition discriminate. }
  split; [reflexivity|]. split; [reflexivity|]. split.
  { eexists. split; [reflexivity|]. split; reflexivity. }
  split; [|reflexivity].
  vm_compute. tauto.
Qed.

(** * Running the pass again *)

Lemma markAll_spec ids : forall f,
  markAll ids f = if includes ids (f_id f) then trashFile f else f.
Proof.
  induction ids as [|id ids IH]; intros f; [reflexivity|].
  change (markAll (id :: ids) f)
    with (markAll ids (if String.eqb (f_id f) id then trashFile f else f)).
  rewrite IH. unfold includes. cbn [existsb].
  destruct (String.eqb (f_id f) id) eqn:E; cbn [f_id trashFile].
  - cbn. now destruct (existsb (String.eqb (f_id f)) ids).
  - reflexivity.
Qed.

Lemma findFile_trashAll ids : forall w i,
  findFile (trashAll ids w) i = option_map (markAll ids) (findFile w i).
Proof.
  induction ids as [|id ids IH]; intros w i.
  - cbn. now destruct (findFile w i).
  - change (trashAll (id :: ids) w) with (trashAll ids (updFiles trashFile id w)).
    rewrite IH, findFile_updFiles by reflexivity.
    now destruct (findFile w i).
Qed.

Lemma listFiles_trashAll ids : forall w folder,
  listFiles (trashAll ids w) folder = listFiles w folder.
Proof.
  induction ids as [|id ids IH]; intros w folder; [reflexivity|].
  change (trashAll (id :: ids) w) with (trashAll ids (updFiles trashFile id w)).
  rewrite IH. unfold listFiles, updFiles. cbn [w_files].
  induction (w_files w) as [|f l IHl]; [reflexivity|].
  cbn [map filter].
  assert (f_parent (if String.eqb (f_id f) id then trashFile f else f) = f_parent f
          /\ f_id (if String.eqb (f_id f) id then trashFile f else f) = f_id f)
    as [Hp Hi] by (destruct (String.eqb (f_id f) id); auto).
  rewrite Hp. destruct (String.eqb (f_parent f) folder); cbn [map];
    now rewrite ?Hi, IHl.
Qed.

Lemma resolve_trashAll vids w ids :
  resolve (trashAll vids w) ids = map (markAll vids) (resolve w ids).
Proof.
  induction ids as [|i ids IH]; [reflexivity|].
  unfold resolve in *. cbn [flat_map]. rewrite map_app, IH. f_equal.
  rewrite findFile_trashAll. now destruct (findFile w i).
Qed.

Lemma candidates_marked config vids recs :
  candidates config (map (markAll vids) recs) =
    filter (fun c => negb (includes vids (fi_id (snd c)))) (candidates config recs).
Proof.
  induction recs as [|f recs IH]; [reflexivity|].
  unfold candidates in *. cbn [map flat_map]. rewrite filter_app, IH. f_equal.
  rewrite markAll_spec. destruct (includes vids (f_id f)) eqn:E.
  - unfold candidateOf at 1. cbn [f_trashed trashFile].
    destruct (candidateOf config f) as [[h m]|] eqn:Ec; [|reflexivity].
    apply candidateOf_some in Ec. destruct Ec as [-> _]. cbn. now rewrite E.
  - destruct (candidateOf config f) as [[h m]|] eqn:Ec; [|reflexivity].
    apply candidateOf_some in Ec. destruct Ec as [-> _]. cbn. now rewrite E.
Qed.

Lemma membersOf_filter {A} h (p : A -> bool) (cands : list (string * A)) :
  membersOf h (filter (fun c => p (snd c)) cands) = filter p (membersOf h cands).
Proof.
  unfold membersOf. induction cands as [|[k x] cands IH]; [reflexivity|].
  cbn [filter snd fst]. destruct (p x) eqn:Ep; cbn [filter fst].
  - destruct (String.eqb k h); cbn [map filter snd]; rewrite ?Ep, IH; reflexivity.
  - destruct (String.eqb k h); cbn [map filter snd]; rewrite ?Ep, IH; reflexivity.
Qed.

Lemma filter_none {A} (p : A -> bool) l :
  (forall x, In x l -> p x = false) -> filter p l = [].
Proof.
  induction l as [|x l IH]; intros H; [reflexivity|]. cbn.
  rewrite (H x) by now left. apply IH. intros y Hy. apply H. now right.
Qed.

Lemma victims_none config groups :
  (forall h g, In (h, g) groups -> groupVictims config g = []) ->
  victims config groups = [].
Proof.
  induction groups as [|[h g] groups IH]; intros H; [reflexivity|].
  rewrite victims_cons, (H h g) by now left.
  apply IH. intros h' g' Hin. apply (H h' g'). now right.
Qed.

Section SecondRun.
Variables (config : RuntimeConfig) (cands : list (string * FileInfo)).
Hypothesis cands_unique : NoDup (map (fun c => fi_id (snd c)) cands).

Let groups : FileGroups := groupBy cands [].
Let vids := map fi_id (victims config groups).
Let kept (m : FileInfo) := negb (includes vids (fi_id m)).

(** What a run leaves of a group holds nothing the policy would select. *)
Lemma survivors_have_no_victims h g2 :
  In (h, g2) (groupBy (filter (fun c => kept (snd c)) cands) []) ->
  groupVictims config g2 = [].
Proof.
  intros Hg2. apply groupBy_in in Hg2. destruct Hg2 as [-> Hne].
  rewrite membersOf_filter in *. set (g1 := membersOf h cands) in *.
  assert (In (h, g1) groups) as Hg1.
  { apply groupBy_in. split; [reflexivity|]. intros E. apply Hne.
    now rewrite E. }
  unfold groupVictims. destruct (1 <? List.length (filter kept g1))%nat;
    [|reflexivity].
  rewrite sortByCreated_filter.
  destruct (sortByCreated g1) as [|oldest rest] eqn:Es; [reflexivity|].
  assert (kept oldest = true) as Ho.
  { unfold kept. rewrite includes_not_in; [reflexivity|].
    intros Hin. apply in_map_iff in Hin. destruct Hin as [v [E Hv]].
    exact (oldest_not_victim config cands cands_unique h g1 oldest rest v
             Hg1 Es Hv E). }
  cbn [filter]. rewrite Ho. apply filter_none. intros d Hd.
  apply filter_In in Hd. destruct Hd as [Hd Hk].
  destruct (withinWindow config oldest d) eqn:Hw; [|reflexivity].
  exfalso. unfold kept in Hk. apply negb_true_iff in Hk.
  assert (In (fi_id d) vids) as Hin.
  { apply in_map. apply victims_in. exists h, g1, oldest, rest.
    repeat split; auto.
    rewrite <- (Permutation_length (sortByCreated_perm g1)), Es.
    destruct rest; [contradiction | cbn; lia]. }
  apply includes_in in Hin. congruence.
Qed.
End SecondRun.

(** C9.  With dry-run off, a second run of [processFolder] on the store
    that a first run leaves issues no [setTrashed] call, changes no file
    record, and reports zero deleted files and zero bytes freed; it returns
    whenever the folder exists. *)
Theorem dedup_idempotent :
  forall folder config w,
    files_unique w ->
    DRY_RUN (base config) = false ->
    let r1 := processFolder folder config w in
    let r2 := processFolder folder config (world r1) in
    (forall id, ~ In (EvSetTrashedFile id) (events r2)) /\
    w_files (world r2) = w_files (world r1) /\
    (forall stats, outcome r2 = Ok stats ->
       filesDeleted stats = 0 /\ spaceFreed stats = 0%Z) /\
    (findFolder w folder <> None -> exists stats, outcome r2 = Ok stats).
Proof.
  intros folder config w Hu Hlive r1 r2.
  destruct (findFolder w folder) as [d|] eqn:Hd.
  2:{ subst r2 r1. rewrite (processFolder_missing folder config w Hd). cbn [world].
      rewrite (processFolder_missing folder config w Hd). cbn.
      repeat split; try discriminate; auto. intros H; now elim H. }
  set (cands := candidates config (resolve w (listFiles w folder))).
  set (vs := victims config (groupBy cands [])).
  assert (w_files (world r1) = w_files (trashAll (map fi_id vs) w)) as Hfiles.
  { subst r1. rewrite processFolder_files, Hd, accOf_groups.
    unfold trashWorld. now rewrite Hlive. }
  assert (findFolder (world r1) folder = Some d) as Hd1.
  { subst r1. rewrite (processFolder_run folder config w d Hd). cbn [world].
    unfold findFolder in *. now rewrite tick_folders, trashWorld_folders, tick_folders. }
  assert (victims config
            (ga_groups (accOf config
               (resolve (world r1) (listFiles (world r1) folder)) emptyAcc)) = [])
    as Hnone.
  { rewrite accOf_groups.
    rewrite (listFiles_ext _ _ folder Hfiles), (resolve_ext _ _ _ Hfiles).
    rewrite listFiles_trashAll, resolve_trashAll, candidates_marked.
    apply victims_none. intros h g Hg.
    exact (survivors_have_no_victims config cands
             (run_cands_unique folder config w Hu) h g Hg). }
  subst r2. rewrite (processFolder_run folder config (world r1) d Hd1).
  rewrite Hnone. cbn [events world outcome].
  repeat split.
  - intros id [E|Hin]; [discriminate|]. apply in_app_or in Hin.
    destruct Hin as [Hin|Hin].
    + apply md5Events_in in Hin. destruct Hin as [f [_ [_ E]]]. discriminate.
    + unfold trashEvents in Hin. now destruct (DRY_RUN (base config)).
  - rewrite tick_files. unfold trashWorld, trashAll.
    destruct (DRY_RUN (base config)); cbn; apply tick_files.
  - inversion H. reflexivity.
  - inversion H. reflexivity.
  - intros _. eexists. reflexivity.
Qed.

(** * The filters in front of the digest request *)

(** A file whose extension is excluded is never hashed. *)
Lemma excluded_extension_never_hashed folder config w f :
  files_unique w ->
  In f (w_files w) ->
  isFileExcluded (f_name f) (EXCLUDED_EXTENSIONS (base config)) = true ->
  ~ In (EvGetMd5 (f_id f)) (events (processFolder folder config w)).
Proof.
  intros Hu Hf Hex Hin. apply run_events in Hin.
  destruct Hin as [[n E]|[Hin|Hin]]; [discriminate| |].
  - apply md5Events_in in Hin. destruct Hin as [f' [Hf' [Hh E]]].
    inversion E as [E']. apply resolve_in in Hf'. destruct Hf' as [_ Hf'].
    apply find_file_in in Hf'.
    assert (f = f') by (apply (NoDup_map_eq f_id (w_files w)); auto).
    subst f'. unfold hashed in Hh. rewrite Hex in Hh.
    now rewrite andb_false_r in Hh.
  - apply trashEvents_in in Hin. destruct Hin as [_ [v [_ E]]]. discriminate.
Qed.

(** [processFolder] does not read the file-age setting. *)
Lemma processFolder_ignores_age_filter folder config days w :
  processFolder folder (setAgeFilter days config) w = processFolder folder config w.
Proof.
  destruct (findFolder w folder) as [d|] eqn:Hd.
  - now rewrite !(processFolder_run folder _ w d Hd).
  - now rewrite !(processFolder_missing folder _ w Hd).
Qed.

(** C2, evaluated.  With the age filter set to seven days, a file created
    a hundred days before the run is still sent to the digest request and
    counted as analyzed. *)
Theorem age_filter_not_applied :
  let config := setAgeFilter 7 (sampleConfig false) in
  let r := processFolder "F" config agedStore in
  (0 < FILE_AGE_FILTER_DAYS (base config))%Z /\
  (f_created (mkFile "old" "scan.pdf" 0 10 false (Md5Value "H1") "F")
     < reading agedStore - FILE_AGE_FILTER_MS config)%Z /\
  In (EvGetMd5 "old") (events r) /\
  outcome r = Ok (mkStats 1 0 0 0%Z).
Proof.
  cbv zeta. repeat split.
  - vm_compute. right. now left.
Qed.

(** * Phase 1: conflict resolution *)

Lemma getMd5Checksum_run w id f :
  findFile w id = Some f ->
  getMd5Checksum id w = mkRes (Ok (md5Of f)) w [EvGetMd5 id].
Proof.
  intros H. unfold getMd5Checksum, tryCatch, bind, driveFilesGetMd5, ret, md5Of.
  rewrite H. destruct (f_md5 f); reflexivity.
Qed.

Lemma resolveFileConflict_run config w existing incoming ef inf :
  findFile w existing = Some ef ->
  findFile w incoming = Some inf ->
  resolveFileConflict existing incoming config w =
    mkRes (Ok (conflictOf config existing incoming ef inf)) w
      [EvGetMd5 existing; EvGetMd5 incoming].
Proof.
  intros He Hi. unfold resolveFileConflict, conflictOf.
  rewrite (bind_run _ _ _ _ _ _ (getMd5Checksum_run _ _ _ He)).
  rewrite (bind_run _ _ _ _ _ _ (getMd5Checksum_run _ _ _ Hi)).
  destruct (md5Of ef) as [e|]; [|reflexivity].
  destruct (md5Of inf) as [i|]; [|reflexivity].
  destruct (negb (String.eqb e i)); [reflexivity|].
  rewrite (bind_run _ _ _ _ _ _ (readFile_run _ _ _ He)).
  rewrite (bind_run _ _ _ _ _ _ (readFile_run _ _ _ Hi)).
  destruct (DUPLICATION_WINDOW_MS config <? Z.abs (f_created inf - f_created ef))%Z;
    [reflexivity|].
  destruct (f_created ef <=? f_created inf)%Z; reflexivity.
Qed.

Lemma getFilesByName_run w folder name :
  getFilesByName folder name w = mkRes (Ok (listFilesByName w folder name)) w [].
Proof. reflexivity. Qed.

(** The decision table of [resolveFileConflict]. *)
Lemma conflictOf_cases config existing incoming ef inf :
  let dt := Z.abs (f_created inf - f_created ef) in
  let c := conflictOf config existing incoming ef inf in
  (md5Of ef = None \/ md5Of inf = None \/ md5Of ef <> md5Of inf ->
     resolution c = RENAME_INCOMING) /\
  (md5Of ef <> None -> md5Of ef = md5Of inf ->
     (DUPLICATION_WINDOW_MS config < dt)%Z -> resolution c = RENAME_INCOMING) /\
  (md5Of ef <> None -> md5Of ef = md5Of inf ->
     (dt <= DUPLICATION_WINDOW_MS config)%Z ->
     (f_created ef <= f_created inf)%Z -> resolution c = KEEP_EXISTING) /\
  (md5Of ef <> None -> md5Of ef = md5Of inf ->
     (dt <= DUPLICATION_WINDOW_MS config)%Z ->
     (f_created inf < f_created ef)%Z -> resolution c = KEEP_INCOMING).
Proof.
  cbv zeta. unfold conflictOf.
  destruct (md5Of ef) as [e|], (md5Of inf) as [i|]; cbn;
    try (repeat split; intros; try reflexivity; congruence).
  destruct (String.eqb e i) eqn:E; cbn.
  - apply String.eqb_eq in E. subst i.
    destruct (DUPLICATION_WINDOW_MS config <? Z.abs (f_created inf - f_created ef))%Z
      eqn:Ew; [apply Z.ltb_lt in Ew | apply Z.ltb_ge in Ew];
      (destruct (f_created ef <=? f_created inf)%Z eqn:Ec;
       [apply Z.leb_le in Ec | apply Z.leb_gt in Ec]);
      cbn; repeat split; intros; try reflexivity; try lia;
      try (destruct H as [H|[H|H]]; congruence).
  - apply String.eqb_neq in E.
    repeat split; intros; try reflexivity; congruence.
Qed.

(** * Unique names *)

Lemma length_append (a b : string) :
  String.length (a ++ b) = String.length a + String.length b.
Proof. induction a as [|c a IH]; cbn; [reflexivity | now rewrite IH]. Qed.

Lemma append_inj_l (a b c : string) : (a ++ b = a ++ c)%string -> b = c.
Proof.
  induction a as [|x a IH]; cbn; intros H; [assumption|].
  inversion H. auto.
Qed.

Lemma append_inj_r (s : string) : forall a b : string,
  (a ++ s = b ++ s)%string -> a = b.
Proof.
  induction a as [|x a IH]; intros [|y b] H; cbn in H.
  - reflexivity.
  - exfalso. apply (f_equal String.length) in H. cbn in H.
    rewrite length_append in H. lia.
  - exfalso. apply (f_equal String.length) in H. cbn in H.
    rewrite length_append in H. lia.
  - inversion H. f_equal. auto.
Qed.

Lemma showNat_inj j k : showNat j = showNat k -> j = k.
Proof.
  unfold showNat. intros H. apply DecimalNat.Unsigned.to_uint_inj.
  apply (f_equal NilEmpty.uint_of_string) in H.
  rewrite !NilEmpty.usu in H. now inversion H.
Qed.

Lemma numbered_inj name ext j k : numbered name ext j = numbered name ext k -> j = k.
Proof.
  unfold numbered. intros H. apply append_inj_l in H.
  apply (append_inj_l " (") in H. apply showNat_inj.
  apply (append_inj_r (")" ++ ext)%string). exact H.
Qed.

Lemma byName_nil w folder name :
  listFilesByName w folder name = [] <-> ~ In name (namesIn w folder).
Proof.
  unfold listFilesByName, namesIn. induction (w_files w) as [|f l IH]; cbn.
  - tauto.
  - destruct (String.eqb (f_parent f) folder); cbn.
    + destruct (String.eqb (f_name f) name) eqn:E; cbn.
      * apply String.eqb_eq in E. split; [discriminate|]. intros H. elim H. now left.
      * apply String.eqb_neq in E. rewrite IH. tauto.
    + exact IH.
Qed.

Lemma namesIn_length w folder :
  List.length (namesIn w folder) = List.length (listFiles w folder).
Proof. unfold namesIn, listFiles. now rewrite !length_map. Qed.

Section UniqueLoop.
Variables (name ext target : string) (w : World).

Let free (k : nat) := listFilesByName w target (numbered name ext k) = [].

Lemma free_dec k : {free k} + {~ free k}.
Proof.
  unfold free. destruct (listFilesByName w target (numbered name ext k));
    [now left | right; discriminate].
Qed.

Lemma uniqueLoop_first : forall fuel counter k,
  counter <= k -> k - counter < fuel ->
  (forall j, counter <= j < k -> ~ free j) -> free k ->
  uniqueLoop fuel name ext target counter w =
    mkRes (Ok (numbered name ext k)) w [].
Proof.
  induction fuel as [|fuel IH]; intros counter k Hle Hfuel Hused Hfree; [lia|].
  cbn [uniqueLoop]. rewrite (bind_run _ _ _ _ _ _ (getFilesByName_run _ _ _)).
  destruct (Nat.eq_dec counter k) as [->|Hne].
  - unfold free in Hfree. rewrite Hfree. reflexivity.
  - assert (~ free counter) as Hc by (apply Hused; lia).
    unfold free in Hc.
    destruct (listFilesByName w target (numbered name ext counter)) as [|x l];
      [now elim Hc|].
    cbn [outcome world events app].
    rewrite (IH (S counter) k); [reflexivity | lia | lia | | assumption].
    intros j Hj. apply Hused. lia.
Qed.

Lemma first_free_or_all_used start : forall n,
  (exists k, start <= k <= start + n /\ free k /\
             forall j, start <= j < k -> ~ free j)
  \/ (forall j, start <= j <= start + n -> ~ free j).
Proof.
  induction n as [|n [IH|IH]].
  - destruct (free_dec start) as [Hf|Hf].
    + left. exists start. repeat split; auto; lia.
    + right. intros j Hj. assert (j = start) as -> by lia. assumption.
  - left. destruct IH as [k [Hk H]]. exists k. split; [lia | assumption].
  - destruct (free_dec (start + S n)) as [Hf|Hf].
    + left. exists (start + S n). repeat split; auto; try lia.
      intros j Hj. apply IH. lia.
    + right. intros j Hj. destruct (Nat.eq_dec j (start + S n)) as [->|Hne];
        [assumption | apply IH; lia].
Qed.

(** A folder with [n] files cannot hold [n + 1] different candidates. *)
Lemma not_all_used start :
  ~ (forall j, start <= j <= start + List.length (listFiles w target) -> ~ free j).
Proof.
  intros Hall. set (n := List.length (listFiles w target)) in *.
  assert (NoDup (map (numbered name ext) (seq start (S n)))) as Hnd.
  { apply Injective_map_NoDup; [|apply seq_NoDup].
    intros j k. apply numbered_inj. }
  assert (incl (map (numbered name ext) (seq start (S n))) (namesIn w target))
    as Hincl.
  { intros x Hx. apply in_map_iff in Hx. destruct Hx as [j [<- Hj]].
    apply in_seq in Hj. specialize (Hall j).
    destruct (in_dec string_dec (numbered name ext j) (namesIn w target))
      as [Hin|Hnot]; [assumption|].
    exfalso. apply Hall; [lia|]. unfold free. now apply byName_nil. }
  pose proof (NoDup_incl_length Hnd Hincl) as Hlen.
  rewrite length_map, length_seq, namesIn_length in Hlen. fold n in Hlen. lia.
Qed.

(** The loop returns the first candidate that is not in the target. *)
Lemma uniqueLoop_total start :
  exists k,
    start <= k /\
    uniqueLoop (S (List.length (listFiles w target))) name ext target start w =
      mkRes (Ok (numbered name ext k)) w [] /\
    free k /\ forall j, start <= j < k -> ~ free j.
Proof.
  destruct (first_free_or_all_used start (List.length (listFiles w target)))
    as [[k [Hk [Hf Hu]]]|Hall].
  - exists k. split; [lia|]. split; [|auto].
    apply uniqueLoop_first; auto; lia.
  - now apply not_all_used in Hall.
Qed.
End UniqueLoop.

Lemma generateUniqueName_run baseName target w :
  exists k,
    2 <= k /\
    generateUniqueName baseName target w =
      mkRes (Ok (candidateName baseName k)) w [] /\
    listFilesByName w target (candidateName baseName k) = [] /\
    forall j, 2 <= j < k ->
      listFilesByName w target (candidateName baseName j) <> [].
Proof.
  destruct (uniqueLoop_total (fst (splitName baseName)) (snd (splitName baseName))
              target w 2) as [k [Hk [Hrun [Hf Hu]]]].
  exists k. split; [assumption|]. split; [|split; assumption].
  unfold generateUniqueName, bind, getWorld. cbn [outcome world events].
  rewrite Hrun. reflexivity.
Qed.

(** * One source file against the target *)

Section Collision.
Variables (config : RuntimeConfig) (w : World).
Variables (source target : string) (stats : FolderMergeResult).
Variables (sf ef : FileRec) (e1 : string) (rest : list string).
Hypothesis source_found : findFile w source = Some sf.
Hypothesis source_visible : f_trashed sf = false.
Hypothesis listing : listFilesByName w target (f_name sf) = e1 :: rest.
Hypothesis existing_found : findFile w e1 = Some ef.

Let c := conflictOf config e1 source ef sf.

Lemma mergeFile_collision :
  exists k,
    2 <= k /\
    listFilesByName w target (candidateName (f_name sf) k) = [] /\
    (forall j, 2 <= j < k ->
       listFilesByName w target (candidateName (f_name sf) j) <> []) /\
    mergeFile source target config stats w =
      mkRes (Ok (bump (resolution c) stats))
        (replay (mergeActions config source target e1 (resolution c)
                   (candidateName (f_name sf) k)) w)
        ([EvGetMd5 e1; EvGetMd5 source]
           ++ mergeActions config source target e1 (resolution c)
                (candidateName (f_name sf) k)).
Proof.
  destruct (generateUniqueName_run (f_name sf) target w)
    as [k [Hk [Hrun [Hfree Hused]]]].
  exists k. repeat split; try assumption.
  unfold mergeFile.
  rewrite (bind_run _ _ _ _ _ _ (readFile_run _ _ _ source_found)).
  rewrite source_visible.
  rewrite (bind_run _ _ _ _ _ _ (getFilesByName_run _ _ _)).
  rewrite listing.
  rewrite (bind_run _ _ _ _ _ _
             (resolveFileConflict_run config w e1 source ef sf
                existing_found source_found)).
  fold c. unfold mergeActions.
  destruct (resolution c); destruct (DRY_RUN (base config)); cbn;
    try reflexivity.
  - unfold bind. rewrite Hrun. reflexivity.
  - unfold bind. rewrite Hrun. reflexivity.
Qed.
End Collision.

(** C4.  For a name collision between the target's file [e1] and the
    incoming file [source]: an absent digest on either side or two different
    digests give rename-incoming; equal digests further apart in creation
    time than the window give rename-incoming; equal digests not further
    apart give keep-existing exactly when the existing file is not younger
    ([mergeFile] then trashes the incoming file and does not move it), and
    keep-incoming otherwise ([mergeFile] then trashes the existing file and
    moves the incoming one, without renaming it). *)
Theorem collision_resolution :
  forall config w source target stats sf ef e1 rest,
    findFile w source = Some sf ->
    f_trashed sf = false ->
    listFilesByName w target (f_name sf) = e1 :: rest ->
    findFile w e1 = Some ef ->
    let dt := Z.abs (f_created sf - f_created ef) in
    let r := mergeFile source target config stats w in
    exists c,
      outcome (resolveFileConflict e1 source config w) = Ok c /\
      (md5Of ef = None \/ md5Of sf = None \/ md5Of ef <> md5Of sf ->
         resolution c = RENAME_INCOMING) /\
      (md5Of ef <> None -> md5Of ef = md5Of sf ->
         (DUPLICATION_WINDOW_MS config < dt)%Z ->
         resolution c = RENAME_INCOMING) /\
      (md5Of ef <> None -> md5Of ef = md5Of sf ->
         (dt <= DUPLICATION_WINDOW_MS config)%Z ->
         (f_created ef <= f_created sf)%Z ->
         resolution c = KEEP_EXISTING /\
         (DRY_RUN (base config) = false ->
            events r = [EvGetMd5 e1; EvGetMd5 source; EvSetTrashedFile source])) /\
      (md5Of ef <> None -> md5Of ef = md5Of sf ->
         (dt <= DUPLICATION_WINDOW_MS config)%Z ->
         (f_created sf < f_created ef)%Z ->
         resolution c = KEEP_INCOMING /\
         (DRY_RUN (base config) = false ->
            events r = [EvGetMd5 e1; EvGetMd5 source;
                        EvSetTrashedFile e1; EvMoveTo source target])).
Proof.
  intros config w source target stats sf ef e1 rest Hs Hv Hl He dt r.
  exists (conflictOf config e1 source ef sf).
  rewrite (resolveFileConflict_run config w e1 source ef sf He Hs).
  destruct (conflictOf_cases config e1 source ef sf) as [H1 [H2 [H3 H4]]].
  destruct (mergeFile_collision config w source target stats sf ef e1 rest
              Hs Hv Hl He) as [k [_ [_ [_ Hrun]]]].
  split; [reflexivity|]. split; [exact H1|]. split; [exact H2|].
  split.
  - intros Hn Heq Hdt Hc. specialize (H3 Hn Heq Hdt Hc). split; [exact H3|].
    intros Hlive. subst r. rewrite Hrun. cbn [events]. unfold mergeActions.
    now rewrite H3, Hlive.
  - intros Hn Heq Hdt Hc. specialize (H4 Hn Heq Hdt Hc). split; [exact H4|].
    intros Hlive. subst r. rewrite Hrun. cbn [events]. unfold mergeActions.
    now rewrite H4, Hlive.
Qed.

(** * Stem and extension *)

Lemma lastIndexFrom_dotFree s : forall i acc,
  dotFree s -> lastIndexFrom "."%char s i acc = acc.
Proof.
  induction s as [|c s IH]; intros i acc H; [reflexivity|].
  destruct H as [Hc Hs]. cbn [lastIndexFrom].
  apply Ascii.eqb_neq in Hc. rewrite Hc. now apply IH.
Qed.

Lemma lastIndexFrom_append a b : forall i acc,
  lastIndexFrom "."%char (a ++ b) i acc =
    lastIndexFrom "."%char b (i + Z.of_nat (String.length a))
      (lastIndexFrom "."%char a i acc).
Proof.
  induction a as [|c a IH]; intros i acc.
  - cbn. now rewrite Z.add_0_r.
  - cbn [append lastIndexFrom String.length]. rewrite IH. f_equal. lia.
Qed.

Lemma lastIndexOf_split stem ext :
  dotFree ext ->
  lastIndexOf "."%char (stem ++ String "."%char ext) = Z.of_nat (String.length stem).
Proof.
  intros H. unfold lastIndexOf. rewrite lastIndexFrom_append.
  cbn [lastIndexFrom]. rewrite Ascii.eqb_refl. now rewrite lastIndexFrom_dotFree.
Qed.

Lemma substring_whole s : substring 0 (String.length s) s = s.
Proof. induction s as [|c s IH]; cbn; [reflexivity | now rewrite IH]. Qed.

Lemma substring_prefix a b : substring 0 (String.length a) (a ++ b) = a.
Proof.
  induction a as [|c a IH]; cbn.
  - now destruct b.
  - now rewrite IH.
Qed.

Lemma substring_suffix a b :
  substring (String.length a) (String.length b) (a ++ b) = b.
Proof.
  induction a as [|c a IH]; cbn; [apply substring_whole | assumption].
Qed.

Lemma sliceFrom_suffix a b :
  b <> EmptyString -> sliceFrom (Z.of_nat (String.length a)) (a ++ b) = b.
Proof.
  intros Hb. unfold sliceFrom. rewrite length_append, Nat2Z.id.
  destruct (Z.of_nat (String.length a + String.length b)
              <=? Z.of_nat (String.length a))%Z eqn:E.
  - apply Z.leb_le in E. destruct b; [now elim Hb | cbn in E; lia].
  - replace (String.length a + String.length b - String.length a)
      with (String.length b) by lia.
    apply substring_suffix.
Qed.

(** A dot that is not the first character splits the name; a name without
    a dot, or with a leading dot only, is not split. *)
Lemma splitName_spec baseName :
  (forall stem ext,
      stem <> EmptyString -> dotFree ext ->
      baseName = (stem ++ String "."%char ext)%string ->
      splitName baseName = (stem, String "."%char ext)) /\
  (dotFree baseName \/
   (exists rest, baseName = String "."%char rest /\ dotFree rest) ->
   splitName baseName = (baseName, EmptyString)).
Proof.
  split.
  - intros stem ext Hs He ->. unfold splitName.
    rewrite (lastIndexOf_split stem ext He).
    assert ((0 <? Z.of_nat (String.length stem))%Z = true) as ->.
    { apply Z.ltb_lt. destruct stem; [now elim Hs | cbn; lia]. }
    rewrite Nat2Z.id, substring_prefix, sliceFrom_suffix; [reflexivity|discriminate].
  - intros [H|[rest [-> H]]]; unfold splitName, lastIndexOf.
    + now rewrite lastIndexFrom_dotFree.
    + cbn [lastIndexFrom]. rewrite Ascii.eqb_refl.
      now rewrite lastIndexFrom_dotFree.
Qed.

(** C7, as amended.  The name is split into stem and extension at its last
    dot when that dot is not the first character, and is otherwise taken
    whole with an empty extension; the candidates stem + " (k)" + extension
    are tried for k = 2, 3, ... against the current listing of the target,
    and the first one that the target does not hold is returned; with the
    variants 2 to 4 present and the variant 5 absent, the variant 5 is
    returned. *)
Theorem unique_name_first_free :
  forall baseName target w,
    ((forall stem ext,
         stem <> EmptyString -> dotFree ext ->
         baseName = (stem ++ String "."%char ext)%string ->
         splitName baseName = (stem, String "."%char ext)) /\
     (dotFree baseName \/
      (exists rest, baseName = String "."%char rest /\ dotFree rest) ->
      splitName baseName = (baseName, EmptyString))) /\
    (exists k,
        2 <= k /\
        generateUniqueName baseName target w =
          mkRes (Ok (candidateName baseName k)) w [] /\
        listFilesByName w target (candidateName baseName k) = [] /\
        forall j, 2 <= j < k ->
          listFilesByName w target (candidateName baseName j) <> []) /\
    ((forall j, 2 <= j <= 4 ->
         listFilesByName w target (candidateName baseName j) <> []) ->
     listFilesByName w target (candidateName baseName 5) = [] ->
     outcome (generateUniqueName baseName target w) = Ok (candidateName baseName 5)).
Proof.
  intros baseName target w. split; [apply splitName_spec|].
  destruct (generateUniqueName_run baseName target w)
    as [k [Hk [Hrun [Hfree Hused]]]].
  split; [exists k; auto|].
  intros H24 H5. rewrite Hrun. cbn [outcome].
  assert (k = 5) as ->; [|reflexivity].
  destruct (Nat.lt_trichotomy k 5) as [Hlt|[->|Hgt]]; [|reflexivity|].
  - exfalso. apply (H24 k); [lia | assumption].
  - exfalso. apply (Hused 5); [lia | assumption].
Qed.

(** The rule worded as a split at the last dot, wherever it stands, gives
    another name than the code for a name whose only dot is the first
    character. *)
Lemma leading_dot_name_not_split :
  splitAtLastDot ".env" = (EmptyString, ".env") /\
  outcome (generateUniqueName ".env" "T" emptyTarget) = Ok ".env (2)" /\
  outcome (generateUniqueName ".env" "T" emptyTarget) <>
    Ok (numbered (fst (splitAtLastDot ".env")) (snd (splitAtLastDot ".env")) 2).
Proof.
  split; [reflexivity|]. split; [reflexivity|]. discriminate.
Qed.

(** * Namesakes in the target *)

Lemma unique_find w f : files_unique w -> In f (w_files w) -> findFile w (f_id f) = Some f.
Proof.
  intros Hu Hf. destruct (findFile w (f_id f)) as [f'|] eqn:E.
  - f_equal. apply (NoDup_map_eq f_id (w_files w)); auto.
    + now apply find_file_in in E.
    + now apply find_file_id in E.
  - now apply in_files_found in Hf.
Qed.

Lemma listFilesByName_in w folder name id :
  In id (listFilesByName w folder name) ->
  exists f, In f (w_files w) /\ f_id f = id /\ f_parent f = folder /\ f_name f = name.
Proof.
  unfold listFilesByName. intros H. apply in_map_iff in H.
  destruct H as [f [Hid Hf]]. apply filter_In in Hf. destruct Hf as [Hf Hp].
  apply andb_true_iff in Hp. destruct Hp as [Hp Hn].
  apply String.eqb_eq in Hp, Hn. exists f. auto.
Qed.

Lemma findFile_applyEvent e w id :
  mentions id e = false -> findFile (applyEvent e w) id = findFile w id.
Proof.
  intros H.
  destruct e as [f|f|d|f t|f n|l]; cbn [applyEvent]; try reflexivity;
    cbn in H; apply String.eqb_neq in H;
    rewrite findFile_updFiles by reflexivity;
    destruct (findFile w id) as [x|] eqn:E; try reflexivity; cbn;
    rewrite (find_file_id _ _ _ E); apply String.eqb_neq in H;
    rewrite String.eqb_sym in H; now rewrite H.
Qed.

Lemma findFile_replay evs id : forall w,
  Forall (fun e => mentions id e = false) evs ->
  findFile (replay evs w) id = findFile w id.
Proof.
  induction evs as [|e evs IH]; intros w H; [reflexivity|].
  inversion H; subst. cbn [replay fold_left]. unfold replay in IH.
  rewrite IH by assumption. now apply findFile_applyEvent.
Qed.

Lemma mergeActions_mention config source target e1 res newName other :
  other <> source -> other <> e1 ->
  Forall (fun e => mentions other e = false)
    (mergeActions config source target e1 res newName).
Proof.
  intros Hs He. unfold mergeActions.
  apply String.eqb_neq in Hs, He. rewrite String.eqb_sym in Hs, He.
  destruct (DRY_RUN (base config)); [constructor|].
  destruct res; repeat constructor; cbn; assumption.
Qed.

(** C10.  When the target lists two or more files under the colliding
    name, [mergeFile] resolves the collision against the first one only:
    the decision is the one for the pair (first listed file, incoming
    file), and no call of the step (digest request, [setTrashed], move or
    rename) touches another namesake, whose record stays as it was. *)
Theorem only_first_namesake_consulted :
  forall config w source target stats sf e1 rest other,
    files_unique w ->
    findFile w source = Some sf ->
    f_trashed sf = false ->
    f_parent sf <> target ->
    listFilesByName w target (f_name sf) = e1 :: rest ->
    In other rest ->
    let r := mergeFile source target config stats w in
    Forall (fun e => mentions other e = false) (events r) /\
    findFile (world r) other = findFile w other /\
    exists ef,
      findFile w e1 = Some ef /\
      outcome (resolveFileConflict e1 source config w) =
        Ok (conflictOf config e1 source ef sf) /\
      outcome r = Ok (bump (resolution (conflictOf config e1 source ef sf)) stats).
Proof.
  intros config w source target stats sf e1 rest other Hu Hs Hv Hp Hl Ho r.
  assert (NoDup (e1 :: rest)) as Hnd.
  { rewrite <- Hl. unfold listFilesByName. now apply NoDup_map_filter. }
  assert (other <> e1) as Hne1.
  { inversion Hnd; subst. intros ->. contradiction. }
  assert (other <> source) as Hnes.
  { intros ->.
    destruct (listFilesByName_in w target (f_name sf) source) as [f [Hf [Hid [Hpar _]]]].
    { rewrite Hl. now right. }
    pose proof (unique_find w f Hu Hf) as Hfind. rewrite Hid, Hs in Hfind.
    inversion Hfind; subst. contradiction. }
  destruct (listFilesByName_in w target (f_name sf) e1) as [ef [Hef [Hid _]]].
  { rewrite Hl. now left. }
  pose proof (unique_find w ef Hu Hef) as He. rewrite Hid in He.
  destruct (mergeFile_collision config w source target stats sf ef e1 rest
              Hs Hv Hl He) as [k [_ [_ [_ Hrun]]]].
  subst r. rewrite Hrun. cbn [events world outcome].
  pose proof (mergeActions_mention config source target e1
                (resolution (conflictOf config e1 source ef sf))
                (candidateName (f_name sf) k) other Hnes Hne1) as Hact.
  split; [|split].
  - repeat constructor; cbn; try assumption.
    + apply String.eqb_neq. congruence.
    + apply String.eqb_neq. congruence.
  - now apply findFile_replay.
  - exists ef. split; [assumption|]. split; [|reflexivity].
    now rewrite (resolveFileConflict_run config w e1 source ef sf He Hs).
Qed.

Lemma twoNamesakes_unique : files_unique twoNamesakes.
Proof.
  unfold files_unique. cbn. repeat constructor; cbn; intuition discriminate.
Qed.

(** * Frame rules for the monad *)

Section Keeps.
Variables (P : Event -> Prop) (R : World -> World -> Prop).
Hypothesis R_refl : forall w, R w w.
Hypothesis R_trans : forall a b c, R a b -> R b c -> R a c.
Hypothesis R_same : forall w w', sameStore w w' -> R w w'.
Hypothesis P_md5 : forall id, P (EvGetMd5 id).

Lemma keeps_ret {A} (a : A) : keeps P R (ret a).
Proof. intros w. split; [constructor | apply R_refl]. Qed.

Lemma keeps_throw {A} msg : keeps P R (@throw A msg).
Proof. intros w. split; [constructor | apply R_refl]. Qed.

Lemma keeps_diverge {A} : keeps P R (@diverge A).
Proof. intros w. split; [constructor | apply R_refl]. Qed.

Lemma keeps_bind {A B} (m : M A) (f : A -> M B) :
  keeps P R m -> (forall a, keeps P R (f a)) -> keeps P R (bind m f).
Proof.
  intros Hm Hf w. unfold bind. destruct (Hm w) as [He Hw].
  destruct (outcome (m w)) as [a| |]; cbn; auto.
  destruct (Hf a (world (m w))) as [He' Hw']. split.
  - apply Forall_app. auto.
  - eapply R_trans; eauto.
Qed.

Lemma keeps_tryCatch {A} (m : M A) (h : string -> M A) :
  keeps P R m -> (forall msg, keeps P R (h msg)) -> keeps P R (tryCatch m h).
Proof.
  intros Hm Hh w. unfold tryCatch. destruct (Hm w) as [He Hw].
  destruct (outcome (m w)) as [a|msg|]; cbn; auto.
  destruct (Hh msg (world (m w))) as [He' Hw']. split.
  - apply Forall_app. auto.
  - eapply R_trans; eauto.
Qed.

Lemma keeps_emit e : P e -> keeps P R (emit e).
Proof. intros H w. split; [repeat constructor; assumption | apply R_refl]. Qed.

Lemma keeps_readFile id : keeps P R (readFile id).
Proof.
  intros w. unfold readFile. destruct (findFile w id); cbn;
    (split; [constructor | apply R_refl]).
Qed.

Lemma keeps_readFolder id : keeps P R (readFolder id).
Proof.
  intros w. unfold readFolder. destruct (findFolder w id); cbn;
    (split; [constructor | apply R_refl]).
Qed.

Lemma keeps_getFiles folder : keeps P R (getFiles folder).
Proof. intros w. split; [constructor | apply R_refl]. Qed.

Lemma keeps_getFolders folder : keeps P R (getFolders folder).
Proof. intros w. split; [constructor | apply R_refl]. Qed.

Lemma keeps_getFilesByName folder name : keeps P R (getFilesByName folder name).
Proof. intros w. split; [constructor | apply R_refl]. Qed.

Lemma keeps_getWorld : keeps P R getWorld.
Proof. intros w. split; [constructor | apply R_refl]. Qed.

Lemma keeps_dateNow : keeps P R dateNow.
Proof.
  intros w. unfold dateNow. destruct (w_clock w); cbn;
    (split; [constructor | apply R_same; split; reflexivity]).
Qed.

Lemma keeps_randomBelow n : keeps P R (randomBelow n).
Proof.
  intros w. unfold randomBelow. destruct (w_random w); cbn;
    (split; [constructor | apply R_same; split; reflexivity]).
Qed.

Lemma keeps_driveFilesGetMd5 id : keeps P R (driveFilesGetMd5 id).
Proof.
  intros w. unfold driveFilesGetMd5. destruct (findFile w id) as [f|]; cbn.
  - destruct (f_md5 f); cbn; (split; [repeat constructor; apply P_md5 | apply R_refl]).
  - split; [repeat constructor; apply P_md5 | apply R_refl].
Qed.

Lemma keeps_parentsExcluded excluded : forall fuel current,
  keeps P R (parentsExcluded fuel current excluded).
Proof.
  induction fuel as [|fuel IH]; intros current; cbn [parentsExcluded].
  - apply keeps_diverge.
  - apply keeps_bind; [apply keeps_readFolder|]. intros d.
    destruct (d_parent d) as [p|]; [|apply keeps_ret].
    destruct (includes excluded p); [apply keeps_ret | apply IH].
Qed.

Lemma keeps_isFolderExcluded fuel folder excluded :
  keeps P R (isFolderExcluded fuel folder excluded).
Proof.
  unfold isFolderExcluded. destruct excluded as [|x xs]; [apply keeps_ret|].
  destruct (includes (x :: xs) folder);
    [apply keeps_ret | apply keeps_parentsExcluded].
Qed.

Lemma keeps_getMd5Checksum id : keeps P R (getMd5Checksum id).
Proof.
  unfold getMd5Checksum. apply keeps_tryCatch.
  - apply keeps_bind; [apply keeps_driveFilesGetMd5 | intros; apply keeps_ret].
  - intros; apply keeps_ret.
Qed.

Lemma keeps_resolveFileConflict existing incoming config :
  keeps P R (resolveFileConflict existing incoming config).
Proof.
  unfold resolveFileConflict.
  apply keeps_bind; [apply keeps_getMd5Checksum|]. intros eMd5.
  apply keeps_bind; [apply keeps_getMd5Checksum|]. intros iMd5.
  destruct eMd5 as [e|]; [|apply keeps_ret].
  destruct iMd5 as [i|]; [|apply keeps_ret].
  destruct (negb (String.eqb e i)); [apply keeps_ret|].
  apply keeps_bind; [apply keeps_readFile|]. intros ef.
  apply keeps_bind; [apply keeps_readFile|]. intros inf.
  cbv zeta. destruct (_ <? _)%Z; [apply keeps_ret|].
  destruct (_ <=? _)%Z; apply keeps_ret.
Qed.

Lemma keeps_uniqueLoop name ext target : forall fuel counter,
  keeps P R (uniqueLoop fuel name ext target counter).
Proof.
  induction fuel as [|fuel IH]; intros counter; cbn [uniqueLoop].
  - apply keeps_diverge.
  - apply keeps_bind; [apply keeps_getFilesByName|]. intros existing.
    destruct existing; [apply keeps_ret | apply IH].
Qed.

Lemma keeps_generateUniqueName baseName target :
  keeps P R (generateUniqueName baseName target).
Proof.
  unfold generateUniqueName. apply keeps_bind; [apply keeps_getWorld|].
  intros w. apply keeps_uniqueLoop.
Qed.

Lemma keeps_isFolderEmpty folder : keeps P R (isFolderEmpty folder).
Proof.
  unfold isFolderEmpty. apply keeps_bind; [apply keeps_getFiles|]. intros files.
  apply keeps_bind; [apply keeps_getFolders|]. intros subs. apply keeps_ret.
Qed.

Lemma keeps_countFilesRecursive : forall fuel folder,
  keeps P R (countFilesRecursive fuel folder).
Proof.
  induction fuel as [|fuel IH]; intros folder; cbn [countFilesRecursive].
  - apply keeps_diverge.
  - apply keeps_bind; [apply keeps_getFiles|]. intros files.
    apply keeps_bind; [apply keeps_getFolders|]. intros subs.
    generalize (List.length files).
    induction subs as [|s subs IHs]; intros n; cbn [sumCounts].
    + apply keeps_ret.
    + apply keeps_bind; [apply IH|]. intros c. apply IHs.
Qed.

Lemma keeps_reduceFrom {A} (f : A -> A -> M A) l :
  (forall a b, keeps P R (f a b)) -> forall acc, keeps P R (reduceFrom f acc l).
Proof.
  intros Hf. induction l as [|x l IH]; intros acc; cbn [reduceFrom].
  - apply keeps_ret.
  - apply keeps_bind; [apply Hf | intros; apply IH].
Qed.

Lemma keeps_reduce {A} (f : A -> A -> M A) l :
  (forall a b, keeps P R (f a b)) -> keeps P R (reduce f l).
Proof.
  intros Hf. destruct l; cbn [reduce]; [apply keeps_throw|].
  now apply keeps_reduceFrom.
Qed.

Lemma keeps_countAll fuel folders : keeps P R (countAll fuel folders).
Proof.
  induction folders as [|f folders IH]; cbn [countAll]; [apply keeps_ret|].
  apply keeps_bind; [apply keeps_countFilesRecursive|]. intros c.
  apply keeps_bind; [apply IH|]. intros cs. apply keeps_ret.
Qed.

Lemma keeps_selectTargetFolder fuel folders config :
  keeps P R (selectTargetFolder fuel folders config).
Proof.
  unfold selectTargetFolder. destruct (MERGE_KEEP_FOLDER_STRATEGY (base config)).
  - apply keeps_reduce. intros a b.
    apply keeps_bind; [apply keeps_readFolder|]. intros c.
    apply keeps_bind; [apply keeps_readFolder|]. intros o. apply keeps_ret.
  - apply keeps_reduce. intros a b.
    apply keeps_bind; [apply keeps_readFolder|]. intros c.
    apply keeps_bind; [apply keeps_readFolder|]. intros o. apply keeps_ret.
  - apply keeps_bind; [apply keeps_countAll|]. intros counts.
    apply keeps_bind; [|intros; apply keeps_ret].
    apply keeps_reduce. intros a b. apply keeps_ret.
Qed.

Lemma keeps_scanSubfolders fuel config current subs : forall allFolders queue,
  keeps P R (scanSubfolders fuel config current subs allFolders queue).
Proof.
  induction subs as [|s subs IH]; intros allFolders queue; cbn [scanSubfolders].
  - apply keeps_ret.
  - apply keeps_bind; [apply keeps_isFolderExcluded|]. intros excluded.
    destruct excluded; [apply IH|].
    apply keeps_bind; [apply keeps_readFolder|]. intros d. apply IH.
Qed.

Lemma keeps_scanQueue exclusionFuel config : forall fuel queue allFolders,
  keeps P R (scanQueue fuel exclusionFuel config queue allFolders).
Proof.
  induction fuel as [|fuel IH]; intros queue allFolders; cbn [scanQueue].
  - destruct queue; [apply keeps_ret | apply keeps_diverge].
  - destruct queue as [|current queue]; [apply keeps_ret|].
    apply keeps_bind; [apply keeps_getFolders|]. intros subs.
    apply keeps_bind; [apply keeps_scanSubfolders|]. intros r. apply IH.
Qed.

Lemma keeps_buildFolderTree fuel rootFolder config :
  keeps P R (buildFolderTree fuel rootFolder config).
Proof.
  unfold buildFolderTree. apply keeps_bind; [apply keeps_readFolder|].
  intros root. apply keeps_scanQueue.
Qed.
End Keeps.

(** * Dry-run *)

Lemma sameStore_refl w : sameStore w w.
Proof. split; reflexivity. Qed.

Lemma sameStore_trans a b c : sameStore a b -> sameStore b c -> sameStore a c.
Proof. intros [H1 H2] [H3 H4]. split; congruence. Qed.

Section DryMerge.
Variable config : RuntimeConfig.
Hypothesis dry : DRY_RUN (base config) = true.

Let quiet {A} (m : M A) := keeps nonMutating sameStore m.

Ltac frame :=
  first
    [ apply keeps_ret | apply keeps_getFiles | apply keeps_getFolders
    | apply keeps_getFilesByName | apply keeps_readFile | apply keeps_readFolder
    | apply keeps_dateNow | apply keeps_isFolderEmpty
    | apply keeps_generateUniqueName | apply keeps_resolveFileConflict
    | apply keeps_selectTargetFolder | apply keeps_buildFolderTree
    | apply keeps_emit ];
  try exact sameStore_refl; try exact sameStore_trans;
  try (intros; assumption); try (intros; reflexivity).

Lemma quiet_mergeFile sourceFile target stats :
  quiet (mergeFile sourceFile target config stats).
Proof.
  unfold quiet, mergeFile. rewrite dry. cbn [negb when].
  apply keeps_bind; [apply sameStore_trans | frame |]. intros f.
  destruct (f_trashed f); [frame|].
  apply keeps_bind; [apply sameStore_trans | frame |]. intros existingFiles.
  destruct existingFiles as [|existing others].
  - apply keeps_bind; [apply sameStore_trans | frame | intros; frame].
  - apply keeps_bind; [apply sameStore_trans | frame |]. intros conflict.
    destruct (resolution conflict).
    + apply keeps_bind; [apply sameStore_trans | frame | intros; frame].
    + apply keeps_bind; [apply sameStore_trans | frame | intros; frame].
    + apply keeps_bind; [apply sameStore_trans | frame |]. intros newName.
      apply keeps_bind; [apply sameStore_trans | frame | intros; frame].
    + frame.
Qed.

Lemma quiet_mergeFiles target sourceFiles : forall stats,
  quiet (mergeFiles sourceFiles target config stats).
Proof.
  induction sourceFiles as [|s l IH]; intros stats; cbn [mergeFiles]; [frame|].
  apply keeps_bind; [apply sameStore_trans | apply quiet_mergeFile | intros; apply IH].
Qed.

Lemma quiet_mergeFolder sourceNode targetNode :
  quiet (mergeFolder sourceNode targetNode config).
Proof.
  unfold mergeFolder.
  apply keeps_bind; [apply sameStore_trans | frame | intros; apply quiet_mergeFiles].
Qed.

Lemma quiet_mergeSources target sources : forall stats,
  quiet (mergeSources sources target config stats).
Proof.
  induction sources as [|s l IH]; intros stats; cbn [mergeSources]; [frame|].
  apply keeps_bind; [apply sameStore_trans | apply quiet_mergeFolder |].
  intros mergeResult.
  apply keeps_bind; [apply sameStore_trans | frame |]. intros empty.
  rewrite dry, andb_false_r.
  apply keeps_bind; [apply sameStore_trans | frame | intros; apply IH].
Qed.

Lemma quiet_mergeGroups fuel globalStartTime groups : forall stats,
  quiet (mergeGroups fuel groups config globalStartTime stats).
Proof.
  induction groups as [|[k folders] groups IH]; intros stats;
    cbn [mergeGroups]; [frame|].
  destruct (List.length folders <? 2)%nat; [apply IH|].
  apply keeps_bind; [apply sameStore_trans | frame |]. intros now.
  destruct (_ <? _)%Z; [frame|].
  apply keeps_bind; [apply sameStore_trans | frame |]. intros targetFolder.
  apply keeps_bind;
    [apply sameStore_trans | apply quiet_mergeSources | intros; apply IH].
Qed.

Lemma quiet_mergeDuplicateFolders fuel rootFolder globalStartTime :
  quiet (mergeDuplicateFolders fuel rootFolder config globalStartTime).
Proof.
  unfold mergeDuplicateFolders.
  apply keeps_bind; [apply sameStore_trans | frame |]. intros _.
  apply keeps_bind; [apply sameStore_trans | frame |]. intros folderTree.
  cbv zeta. destruct (_ =? 0)%nat; [frame | apply quiet_mergeGroups].
Qed.

Lemma quiet_processFolder folder : quiet (processFolder folder config).
Proof.
  intros w. destruct (findFolder w folder) as [d|] eqn:Hd.
  - rewrite (processFolder_run folder config w d Hd). cbn [events world].
    unfold trashEvents, trashWorld. rewrite dry, app_nil_r. split.
    + constructor; [reflexivity|]. unfold md5Events.
      apply Forall_forall. intros e He. apply in_map_iff in He.
      destruct He as [f [<- _]]. reflexivity.
    + split; now rewrite ?tick_files, ?tick_folders.
  - rewrite (processFolder_missing folder config w Hd). cbn.
    split; [constructor | apply sameStore_refl].
Qed.
End DryMerge.

Lemma processFolder_stats_independent_of_dry_run folder config b w :
  outcome (processFolder folder (setDryRun b config) w) =
    outcome (processFolder folder config w).
Proof.
  destruct (findFolder w folder) as [d|] eqn:Hd.
  - now rewrite !(processFolder_run folder _ w d Hd).
  - now rewrite !(processFolder_missing folder _ w Hd).
Qed.

Lemma groupDuplicateFolders_pair n1 n2 :
  folderKey n1 = folderKey n2 ->
  groupDuplicateFolders [n1; n2] = [(folderKey n1, [n1; n2])].
Proof.
  intros E. unfold groupDuplicateFolders. cbn [fold_left pushAssoc].
  now rewrite E, String.eqb_refl.
Qed.

Lemma mergeStore_merge_outcome b :
  outcome (mergeDuplicateFolders 10 "root" (sampleConfig b) 0 mergeStore) =
    Ok (mkMergeStats 2 1 1 1 0 0 (if b then 0 else 1)).
Proof.
  unfold mergeDuplicateFolders. rewrite (bind_run _ _ _ _ _ _ (emit_run _ _)).
  assert (buildFolderTree 10 "root" (sampleConfig b) mergeStore =
            mkRes (Ok [mkNode "T" "Acme" "root" 1 "Root/Acme";
                       mkNode "S" "Acme" "root" 1 "Root/Acme"]) mergeStore [])
    as Htree by (destruct b; reflexivity).
  rewrite (bind_run _ _ _ _ _ _ Htree). cbv zeta.
  rewrite (groupDuplicateFolders_pair (mkNode "T" "Acme" "root" 1 "Root/Acme")
             (mkNode "S" "Acme" "root" 1 "Root/Acme") eq_refl).
  destruct b; reflexivity.
Qed.

(** C8.  The statistics of a dry run of the merge pass are not those of
    the run with dry-run off.  Two sibling folders bear one name and the
    younger holds one file, with no name collision: the live run moves the
    file and removes the emptied folder ([emptyFoldersDeleted] is 1); the
    dry run counts the move it would make, then asks the unmoved store
    whether the folder is empty, and counts no removed folder. *)
Theorem dry_run_statistics_differ :
  outcome (mergeDuplicateFolders 10 "root" (sampleConfig true) 0 mergeStore) =
    Ok (mkMergeStats 2 1 1 1 0 0 0) /\
  outcome (mergeDuplicateFolders 10 "root" (sampleConfig false) 0 mergeStore) =
    Ok (mkMergeStats 2 1 1 1 0 0 1) /\
  outcome (mergeDuplicateFolders 10 "root" (sampleConfig true) 0 mergeStore) <>
    outcome (mergeDuplicateFolders 10 "root" (sampleConfig false) 0 mergeStore).
Proof.
  rewrite !mergeStore_merge_outcome. split; [reflexivity|]. split; [reflexivity|].
  discriminate.
Qed.

(** * The choice of the target folder *)

Section ReduceFirstBest.
Context {A : Type}.
Variables (f : A -> A -> M A) (better : A -> A -> bool) (D : A -> Prop) (w : World).
Hypothesis f_run : forall acc x, D acc -> D x ->
  f acc x w = mkRes (Ok (if better x acc then x else acc)) w [].

Lemma reduceFrom_stay t : forall post,
  D t -> (forall q, In q post -> D q /\ better q t = false) ->
  reduceFrom f t post w = mkRes (Ok t) w [].
Proof.
  induction post as [|q post IH]; intros Dt H; [reflexivity|].
  cbn [reduceFrom]. destruct (H q (or_introl eq_refl)) as [Dq Hq].
  rewrite (bind_run _ _ _ _ _ _ (f_run t q Dt Dq)). rewrite Hq.
  rewrite IH; [reflexivity | assumption |]. intros x Hx. apply H. now right.
Qed.

Lemma reduceFrom_reach t post : forall l acc,
  D t -> D acc -> better t acc = true ->
  (forall p, In p l -> D p /\ better t p = true) ->
  (forall q, In q post -> D q /\ better q t = false) ->
  reduceFrom f acc (l ++ t :: post) w = mkRes (Ok t) w [].
Proof.
  induction l as [|x l IH]; intros acc Dt Dacc Hacc Hl Hpost.
  - change ([] ++ t :: post) with (t :: post). cbn [reduceFrom].
    rewrite (bind_run _ _ _ _ _ _ (f_run acc t Dacc Dt)). rewrite Hacc.
    now rewrite reduceFrom_stay.
  - change ((x :: l) ++ t :: post) with (x :: (l ++ t :: post)).
    cbn [reduceFrom]. destruct (Hl x (or_introl eq_refl)) as [Dx Hx].
    rewrite (bind_run _ _ _ _ _ _ (f_run acc x Dacc Dx)).
    assert (forall p, In p l -> D p /\ better t p = true) as Hl'
      by (intros p Hp; apply Hl; now right).
    destruct (better x acc); rewrite IH; auto.
Qed.

(** [reduce] with a strict comparison returns the first of the best. *)
Lemma reduce_first_best pre t post :
  D t ->
  (forall p, In p pre -> D p /\ better t p = true) ->
  (forall q, In q post -> D q /\ better q t = false) ->
  reduce f (pre ++ t :: post) w = mkRes (Ok t) w [].
Proof.
  intros Dt Hpre Hpost. destruct pre as [|p pre].
  - now apply reduceFrom_stay.
  - destruct (Hpre p (or_introl eq_refl)) as [Dp Hp].
    change (reduce f ((p :: pre) ++ t :: post))
      with (reduceFrom f p (pre ++ t :: post)).
    apply reduceFrom_reach; auto. intros x Hx. apply Hpre. now right.
Qed.
End ReduceFirstBest.

Lemma getFiles_run w folder :
  getFiles folder w = mkRes (Ok (listFiles w folder)) w [].
Proof. reflexivity. Qed.

Lemma getFolders_run w folder :
  getFolders folder w = mkRes (Ok (listFolders w folder)) w [].
Proof. reflexivity. Qed.

Lemma countFilesRecursive_run w : forall fuel folder,
  heightWithin w fuel folder ->
  countFilesRecursive fuel folder w = mkRes (Ok (fileCount w fuel folder)) w [].
Proof.
  induction fuel as [|fuel IH]; intros folder H; [contradiction|].
  cbn [heightWithin] in H. cbn [countFilesRecursive fileCount].
  rewrite (bind_run _ _ _ _ _ _ (getFiles_run w folder)).
  rewrite (bind_run _ _ _ _ _ _ (getFolders_run w folder)).
  assert (forall subs n, Forall (heightWithin w fuel) subs ->
            sumCounts (countFilesRecursive fuel) subs n w =
              mkRes (Ok (fold_left (fun count s => count + fileCount w fuel s) subs n))
                w []) as Hloop.
  { induction subs as [|s subs IHs]; intros n Hs; [reflexivity|].
    inversion Hs; subst. cbn [sumCounts fold_left].
    rewrite (bind_run _ _ _ _ _ _ (IH s H2)). now rewrite IHs. }
  now rewrite Hloop.
Qed.

Lemma countAll_run w fuel folders :
  (forall n, In n folders -> heightWithin w fuel (n_id n)) ->
  countAll fuel folders w =
    mkRes (Ok (map (fun n => (n, fileCount w fuel (n_id n))) folders)) w [].
Proof.
  induction folders as [|n folders IH]; intros H; [reflexivity|].
  cbn [countAll map].
  rewrite (bind_run _ _ _ _ _ _ (countFilesRecursive_run w fuel (n_id n)
                                      (H n (or_introl eq_refl)))).
  rewrite (bind_run _ _ _ _ _ _ (IH (fun m Hm => H m (or_intror Hm)))).
  reflexivity.
Qed.

(** C6.  Whatever the strategy, [selectTargetFolder] returns the member
    [t] of the group that no later member beats and that beats every
    earlier member on the value the strategy compares (creation time for
    OLDEST, last modification for NEWEST, recursive file count for
    MOST_FILES): among members that tie on that value the one that comes
    first in the input sequence is returned. *)
Theorem first_member_wins_ties :
  forall fuel config w pre t post,
    (forall n, In n (pre ++ t :: post) -> findFolder w (n_id n) <> None) ->
    (forall n, In n (pre ++ t :: post) -> heightWithin w fuel (n_id n)) ->
    (forall p, In p pre -> prefers config fuel w t p) ->
    (forall q, In q post -> ~ prefers config fuel w q t) ->
    selectTargetFolder fuel (pre ++ t :: post) config w = mkRes (Ok t) w [].
Proof.
  intros fuel config w pre t post Hfound Hheight Hpre Hpost.
  unfold selectTargetFolder, prefers in *.
  destruct (MERGE_KEEP_FOLDER_STRATEGY (base config)).
  - apply (reduce_first_best _
             (fun x acc => (createdOf w x <? createdOf w acc)%Z)
             (fun n => findFolder w (n_id n) <> None)).
    + intros acc x Dacc Dx. unfold createdOf.
      destruct (findFolder w (n_id acc)) as [o|] eqn:Eo; [|now elim Dacc].
      destruct (findFolder w (n_id x)) as [c|] eqn:Ec; [|now elim Dx].
      rewrite (bind_run _ _ _ _ _ _ (readFolder_run _ _ _ Ec)).
      rewrite (bind_run _ _ _ _ _ _ (readFolder_run _ _ _ Eo)). reflexivity.
    + apply Hfound. apply in_or_app. right. now left.
    + intros p Hp. split; [apply Hfound, in_or_app; now left|].
      apply Z.ltb_lt. now apply Hpre.
    + intros q Hq. split; [apply Hfound, in_or_app; right; now right|].
      apply Z.ltb_ge. specialize (Hpost q Hq). lia.
  - apply (reduce_first_best _
             (fun x acc => (updatedOf w acc <? updatedOf w x)%Z)
             (fun n => findFolder w (n_id n) <> None)).
    + intros acc x Dacc Dx. unfold updatedOf.
      destruct (findFolder w (n_id acc)) as [o|] eqn:Eo; [|now elim Dacc].
      destruct (findFolder w (n_id x)) as [c|] eqn:Ec; [|now elim Dx].
      rewrite (bind_run _ _ _ _ _ _ (readFolder_run _ _ _ Ec)).
      rewrite (bind_run _ _ _ _ _ _ (readFolder_run _ _ _ Eo)). reflexivity.
    + apply Hfound. apply in_or_app. right. now left.
    + intros p Hp. split; [apply Hfound, in_or_app; now left|].
      apply Z.ltb_lt. now apply Hpre.
    + intros q Hq. split; [apply Hfound, in_or_app; right; now right|].
      apply Z.ltb_ge. specialize (Hpost q Hq). lia.
  - rewrite (bind_run _ _ _ _ _ _ (countAll_run w fuel _ Hheight)).
    rewrite map_app. cbn [map].
    assert (reduce
              (fun max current : FolderNode * nat =>
                 ret (if (snd max <? snd current)%nat then current else max))
              (map (fun n => (n, fileCount w fuel (n_id n))) pre
                 ++ (t, fileCount w fuel (n_id t))
                 :: map (fun n => (n, fileCount w fuel (n_id n))) post) w =
            mkRes (Ok (t, fileCount w fuel (n_id t))) w []) as Hred.
    { apply (reduce_first_best _
               (fun x acc : FolderNode * nat => (snd acc <? snd x)%nat)
               (fun _ => True)).
      - reflexivity.
      - exact I.
      - intros p Hp. apply in_map_iff in Hp. destruct Hp as [n [<- Hn]].
        split; [exact I|]. cbn. apply Nat.ltb_lt. now apply Hpre.
      - intros q Hq. apply in_map_iff in Hq. destruct Hq as [n [<- Hn]].
        split; [exact I|]. cbn. apply Nat.ltb_ge. specialize (Hpost n Hn). lia. }
    rewrite (bind_run _ _ _ _ _ _ Hred). reflexivity.
Qed.

Lemma tied_nodes_found n :
  In n ([nodeA] ++ nodeB :: [nodeC]) -> findFolder tiedStore (n_id n) <> None.
Proof. intros [<-|[<-|[<-|[]]]]; discriminate. Qed.

Lemma tied_nodes_height n :
  In n ([nodeA] ++ nodeB :: [nodeC]) -> heightWithin tiedStore 3 (n_id n).
Proof. intros [<-|[<-|[<-|[]]]]; cbn; repeat constructor. Qed.

(** * The order of the phases *)

Section NoMerge.
Let quiet {A} (m : M A) := keeps notMergeStart anyWorld m.

Ltac side :=
  try (intros; exact I); try (intros; intro; discriminate).

Ltac nm :=
  first
    [ apply keeps_ret | apply keeps_throw | apply keeps_getFiles
    | apply keeps_getFolders | apply keeps_readFile | apply keeps_readFolder
    | apply keeps_dateNow | apply keeps_randomBelow | apply keeps_emit
    | apply keeps_isFolderExcluded | apply keeps_driveFilesGetMd5 ];
  side.

Ltac nm_bind := apply keeps_bind; [side | .. ].

Lemma nm_setTrashedFile id : quiet (setTrashedFile id).
Proof.
  intros w. split; [|exact I]. repeat constructor. intro. discriminate.
Qed.

Lemma nm_md5Lookup id : quiet (md5Lookup id).
Proof.
  unfold md5Lookup. apply keeps_tryCatch; side.
  - nm_bind; [nm | intros; nm].
  - intros; nm.
Qed.

Lemma nm_groupLoop config files : forall acc, quiet (groupLoop config files acc).
Proof.
  induction files as [|id files IH]; intros acc; cbn [groupLoop]; [nm|].
  nm_bind; [nm|]. intros f. destruct (f_trashed f); [apply IH|].
  destruct (isFileExcluded _ _); [apply IH|].
  nm_bind; [apply nm_md5Lookup|]. intros [[md5|]|]; apply IH.
Qed.

Lemma nm_dupLoop config oldest dups : forall acc,
  quiet (dupLoop config oldest dups acc).
Proof.
  induction dups as [|d dups IH]; intros acc; cbn [dupLoop]; [nm|].
  destruct (withinWindow config oldest d); [|apply IH].
  nm_bind; [|intros; apply IH].
  destruct (negb (DRY_RUN (base config))); cbn [when];
    [apply nm_setTrashedFile | nm].
Qed.

Lemma nm_groupsLoop config groups : forall acc, quiet (groupsLoop config groups acc).
Proof.
  induction groups as [|[k group] groups IH]; intros acc; cbn [groupsLoop]; [nm|].
  destruct (1 <? List.length group)%nat; [|apply IH].
  destruct (sortByCreated group) as [|oldest dups]; [apply IH|].
  nm_bind; [apply nm_dupLoop | intros; apply IH].
Qed.

Lemma nm_processFolder folder config : quiet (processFolder folder config).
Proof.
  unfold processFolder, collectGroups.
  nm_bind; [nm|]. intros d. nm_bind; [nm|]. intros _.
  nm_bind; [nm|]. intros _.
  nm_bind; [nm_bind; [nm | intros; apply nm_groupLoop]|]. intros acc.
  nm_bind; [apply nm_groupsLoop|]. intros r.
  nm_bind; [nm | intros; nm].
Qed.

Lemma nm_loadSubfolders fuel config subs : forall folders,
  quiet (loadSubfolders fuel config subs folders).
Proof.
  induction subs as [|s subs IH]; intros folders; cbn [loadSubfolders]; [nm|].
  nm_bind; [nm|]. intros excluded. nm_bind; [nm|]. intros d.
  destruct excluded; apply IH.
Qed.

Lemma nm_shuffleLoop : forall i folders, quiet (shuffleLoop i folders).
Proof.
  induction i as [|i IH]; intros folders; cbn [shuffleLoop]; [nm|].
  nm_bind; [nm | intros; apply IH].
Qed.

Lemma nm_processFoldersLoop config globalStartTime folders : forall stats,
  quiet (processFoldersLoop config globalStartTime folders stats).
Proof.
  induction folders as [|fi folders IH]; intros stats;
    cbn [processFoldersLoop]; [nm|].
  nm_bind; [nm|]. intros now. destruct (_ <? _)%Z; [nm|].
  nm_bind; [|intros; apply IH].
  apply keeps_tryCatch; side.
  - nm_bind; [apply nm_processFolder | intros; nm].
  - intros msg. nm_bind; [nm | intros; nm].
Qed.

Lemma nm_processRootFolder fuel rootFolder config globalStartTime :
  quiet (processRootFolder fuel rootFolder config globalStartTime).
Proof.
  unfold processRootFolder.
  nm_bind; [nm|]. intros root. nm_bind; [nm|]. intros _.
  nm_bind; [nm|]. intros subs.
  nm_bind; [apply nm_loadSubfolders|]. intros loaded.
  nm_bind; [|intros; apply nm_processFoldersLoop].
  destruct (FOLDER_SORT_MODE (base config)); [nm | apply nm_shuffleLoop].
Qed.

Lemma nm_processRoots fuel config startTime roots : forall totalStats,
  quiet (processRoots fuel roots config startTime totalStats).
Proof.
  induction roots as [|r roots IH]; intros totalStats; cbn [processRoots]; [nm|].
  nm_bind; [nm|]. intros now. destruct (_ <? _)%Z.
  - nm_bind; [nm | intros; nm].
  - nm_bind; [|intros; apply IH].
    apply keeps_tryCatch; side.
    + nm_bind; [nm|]. intros _.
      nm_bind; [apply nm_processRootFolder | intros; nm].
    + intros msg. nm_bind; [nm | intros; nm].
Qed.

Lemma nm_cleanDuplicateAttachments fuel properties :
  quiet (cleanDuplicateAttachments fuel properties).
Proof.
  unfold cleanDuplicateAttachments.
  nm_bind; [nm|]. intros startTime.
  apply keeps_tryCatch; side.
  - nm_bind.
    + unfold getConfig. destruct (ROOT_FOLDER_IDS properties); nm.
    + intros config. nm_bind; [apply nm_processRoots|]. intros totalStats.
      nm_bind; [nm | intros; nm].
  - intros msg. nm.
Qed.
End NoMerge.

(** Two nodes with one key form one group. *)
Lemma mergeStore_merge_events :
  events (mergeDuplicateFolders 10 "root"
            (mkRuntime mergingProperties (24 * hour) 300000 0) 0 mergeStore) =
    [EvLog LogMergeScanStart; EvMoveTo "f1" "T"; EvSetTrashedFolder "S"].
Proof.
  unfold mergeDuplicateFolders.
  rewrite (bind_run _ _ _ _ _ _ (emit_run _ _)).
  assert (buildFolderTree 10 "root"
            (mkRuntime mergingProperties (24 * hour) 300000 0) mergeStore =
          mkRes (Ok [mkNode "T" "Acme" "root" 1 "Root/Acme";
                     mkNode "S" "Acme" "root" 1 "Root/Acme"]) mergeStore [])
    as Htree by reflexivity.
  rewrite (bind_run _ _ _ _ _ _ Htree). cbv zeta.
  rewrite (groupDuplicateFolders_pair (mkNode "T" "Acme" "root" 1 "Root/Acme")
             (mkNode "S" "Acme" "root" 1 "Root/Acme") eq_refl).
  reflexivity.
Qed.

(** C5, evaluated.  [cleanDuplicateAttachments] never starts the merge
    scan, whatever the configuration: with merging switched on and two
    sibling folders of one name in the root, both folders are deduplicated
    as they stand, no merge step is logged, and the store is left with the
    two folders and their files where they were. *)
Theorem merge_phase_never_runs :
  (forall fuel properties w,
      ~ In (EvLog LogMergeScanStart)
           (events (cleanDuplicateAttachments fuel properties w))) /\
  (let r := cleanDuplicateAttachments 10 mergingProperties mergeStore in
   MERGE_DUPLICATE_FOLDERS mergingProperties = true /\
   events r =
     [ EvLog (LogProcessingRoot "Root");
       EvLog (LogProcessingFolder "Acme"); EvGetMd5 "f1";
       EvLog (LogProcessingFolder "Acme");
       EvLog (LogSummary (mkPStats 2 2 1 0 0 0%Z)) ] /\
   sameStore mergeStore (world r)) /\
  (let m := mergeDuplicateFolders 10 "root"
              (mkRuntime mergingProperties (24 * hour) 300000 0) 0 mergeStore in
   events m = [EvLog LogMergeScanStart; EvMoveTo "f1" "T"; EvSetTrashedFolder "S"]).
Proof.
  split; [|split].
  - intros fuel properties w Hin.
    destruct (nm_cleanDuplicateAttachments fuel properties w) as [H _].
    rewrite Forall_forall in H. now apply (H _ Hin).
  - cbv zeta. split; [reflexivity|]. split; [reflexivity|].
    split; reflexivity.
  - exact mergeStore_merge_events.
Qed.

(** * Further properties of the per-folder analysis *)

Lemma Forall2_same {A} (R : A -> A -> Prop) l : (forall x, R x x) -> Forall2 R l l.
Proof. intros H. induction l; constructor; auto. Qed.

Lemma Forall2_compose {A} (R : A -> A -> Prop) :
  (forall a b c, R a b -> R b c -> R a c) ->
  forall a b c, Forall2 R a b -> Forall2 R b c -> Forall2 R a c.
Proof.
  intros HR a b c H. revert c. induction H; intros c Hc; inversion Hc; subst;
    constructor; eauto.
Qed.

Lemma Forall2_update {A} (R : A -> A -> Prop) (p : A -> bool) (g : A -> A) l :
  (forall x, R x x) -> (forall x, R x (g x)) ->
  Forall2 R l (map (fun x => if p x then g x else x) l).
Proof.
  intros Hr Hg. induction l as [|x l IH]; cbn; constructor; [|assumption].
  destruct (p x); auto.
Qed.

Lemma folderSame_refl d : folderSame d d.
Proof. repeat split. Qed.

Lemma folderSame_trans a b c : folderSame a b -> folderSame b c -> folderSame a c.
Proof.
  unfold folderSame. intros H1 H2.
  repeat split; (etransitivity; [apply H2 | apply H1]).
Qed.

Lemma folders_kept w w' :
  w_folders w' = w_folders w -> Forall2 folderSame (w_folders w) (w_folders w').
Proof. intros ->. apply Forall2_same, folderSame_refl. Qed.

Lemma accOf_counts config recs : forall acc,
  ga_analyzed (accOf config recs acc) + ga_skipped (accOf config recs acc) =
    ga_analyzed acc + ga_skipped acc
    + List.length (filter (fun f => negb (f_trashed f)) recs).
Proof.
  induction recs as [|f recs IH]; intros acc; [cbn; lia|].
  change (accOf config (f :: recs) acc) with (accOf config recs (stepAcc config acc f)).
  rewrite IH. cbn [filter]. unfold stepAcc.
  destruct (f_trashed f); cbn [negb]; [lia|].
  destruct (isFileExcluded _ _); cbn; [lia|].
  destruct (md5Of f); cbn; lia.
Qed.

Lemma accOf_analyzed config recs : forall acc,
  ga_analyzed (accOf config recs acc) =
    ga_analyzed acc + List.length (candidates config recs).
Proof.
  induction recs as [|f recs IH]; intros acc; [cbn; lia|].
  change (accOf config (f :: recs) acc) with (accOf config recs (stepAcc config acc f)).
  rewrite IH. unfold candidates. cbn [flat_map]. rewrite length_app.
  unfold stepAcc, candidateOf.
  destruct (f_trashed f); [cbn; lia|].
  destruct (isFileExcluded _ _); [cbn; lia|].
  destruct (md5Of f); cbn; lia.
Qed.

Lemma allMembers_pushAssoc {A} k (x : A) g :
  List.length (allMembers (pushAssoc k x g)) = S (List.length (allMembers g)).
Proof.
  unfold allMembers. induction g as [|[k' xs] g IH]; [reflexivity|].
  cbn [pushAssoc]. destruct (String.eqb k' k); cbn [flat_map snd].
  - rewrite !length_app. cbn [List.length]. lia.
  - cbn [fst snd] in *. rewrite !length_app, IH. lia.
Qed.

Lemma allMembers_groupBy {A} (cands : list (string * A)) : forall g,
  List.length (allMembers (groupBy cands g)) =
    List.length (allMembers g) + List.length cands.
Proof.
  induction cands as [|c cands IH]; intros g.
  - unfold groupBy. cbn [fold_left List.length]. lia.
  - unfold groupBy in *. cbn [fold_left]. rewrite IH, allMembers_pushAssoc.
    cbn [List.length]. lia.
Qed.

Lemma groupVictims_length config g :
  g <> [] -> S (List.length (groupVictims config g)) <= List.length g.
Proof.
  intros Hne. unfold groupVictims.
  destruct (1 <? List.length g)%nat eqn:E.
  - apply Nat.ltb_lt in E.
    rewrite <- (Permutation_length (sortByCreated_perm g)) in *.
    destruct (sortByCreated g) as [|o dups]; cbn [List.length] in *; [lia|].
    pose proof (filter_length_le (withinWindow config o) dups). lia.
  - destruct g; [now elim Hne | cbn; lia].
Qed.

Lemma victims_length config groups :
  (forall k g, In (k, g) groups -> g <> []) ->
  List.length (victims config groups) + List.length groups
    <= List.length (allMembers groups).
Proof.
  induction groups as [|[k g] groups IH]; intros H; [cbn; lia|].
  rewrite victims_cons. unfold allMembers in *. cbn [flat_map snd List.length].
  rewrite !length_app.
  pose proof (groupVictims_length config g (H k g (or_introl eq_refl))).
  assert (forall k' g', In (k', g') groups -> g' <> []) as H'
    by (intros k' g' Hin; apply (H k' g'); now right).
  specialize (IH H'). lia.
Qed.

Lemma processFolder_counts_run :
  forall folder config w,
    findFolder w folder <> None ->
    exists stats,
      outcome (processFolder folder config w) = Ok stats /\
      filesAnalyzed stats + filesSkipped stats = List.length (visibleIn w folder) /\
      filesDeleted stats <= filesAnalyzed stats /\
      (0 < filesAnalyzed stats -> filesDeleted stats < filesAnalyzed stats).
Proof.
  intros folder config w Hf.
  destruct (findFolder w folder) as [d|] eqn:Hd; [clear Hf | now elim Hf].
  rewrite (processFolder_run folder config w d Hd). cbn [outcome].
  eexists. split; [reflexivity|]. cbn [filesAnalyzed filesSkipped filesDeleted].
  set (recs := resolve w (listFiles w folder)).
  split; [rewrite accOf_counts; reflexivity|].
  rewrite accOf_groups, accOf_analyzed. cbn [ga_groups ga_analyzed emptyAcc].
  set (cands := candidates config recs).
  pose proof (victims_length config (groupBy cands [])) as Hv.
  rewrite allMembers_groupBy in Hv.
  change (List.length (@allMembers FileInfo [])) with 0 in Hv.
  assert (forall k g, In (k, g) (groupBy cands []) -> g <> []) as Hne
    by (intros k g Hin; now apply groupBy_in in Hin).
  specialize (Hv Hne). split; [lia|]. intros Hpos.
  assert (groupBy cands [] <> []) as Hg.
  { intros E. pose proof (allMembers_groupBy cands []) as Hl.
    rewrite E in Hl. change (List.length (@allMembers FileInfo [])) with 0 in Hl.
    fold cands in Hl. lia. }
  destruct (groupBy cands []); [now elim Hg | cbn [List.length] in Hv; lia].
Qed.

(** X1.  Every visible file of the folder is counted once, as analyzed or
    as skipped; fewer files are deleted than were analyzed, since every
    group keeps a member. *)
Theorem processFolder_counts :
  forall folder config w,
    findFolder w folder <> None ->
    exists stats,
      outcome (processFolder folder config w) = Ok stats /\
      filesAnalyzed stats + filesSkipped stats = List.length (visibleIn w folder) /\
      filesDeleted stats <= filesAnalyzed stats /\
      (0 < filesAnalyzed stats -> filesDeleted stats < filesAnalyzed stats).
Proof. exact processFolder_counts_run. Qed.

Lemma victim_listed config w ids v :
  In v (victims config (groupBy (candidates config (resolve w ids)) [])) ->
  In (fi_id v) ids.
Proof.
  intros Hv. apply victims_in in Hv.
  destruct Hv as [h [g [o [rest [Hg [_ [Es [Hin _]]]]]]]].
  assert (In v g) as Hm by (apply sortByCreated_in; rewrite Es; now right).
  apply groupBy_in in Hg. destruct Hg as [-> _].
  apply membersOf_in, candidates_in in Hm. destruct Hm as [f [Hf Hc]].
  apply candidateOf_some in Hc. destruct Hc as [-> _].
  apply resolve_in in Hf. now destruct Hf.
Qed.

Lemma processFolder_folders folder config w :
  w_folders (world (processFolder folder config w)) = w_folders w.
Proof.
  destruct (findFolder w folder) as [d|] eqn:Hd.
  - rewrite (processFolder_run folder config w d Hd). cbn [world].
    now rewrite tick_folders, trashWorld_folders, tick_folders.
  - now rewrite (processFolder_missing folder config w Hd).
Qed.

(** X2.  [processFolder] changes nothing but trashed flags: every file of
    the store keeps its identity, name, creation time, size, digest and
    folder, a trashed file stays trashed, the flag of a file changes only
    with dry-run off and only for a file listed in the processed folder,
    and every folder keeps its identity, name, parent and trashed flag. *)
Theorem processFolder_only_sets_flags :
  forall folder config w id f,
    findFile w id = Some f ->
    (exists f',
        findFile (world (processFolder folder config w)) id = Some f' /\
        sameButTrashed f f' /\
        (f_trashed f = true -> f_trashed f' = true) /\
        (f_trashed f' <> f_trashed f ->
           DRY_RUN (base config) = false /\ In id (listFiles w folder))) /\
    Forall2 folderSame (w_folders w) (w_folders (world (processFolder folder config w))).
Proof.
  intros folder config w id f Hf. split; [|apply folders_kept, processFolder_folders].
  assert (forall w', w_files w' = w_files w ->
            findFile w' id = Some f) as Hsame
    by (intros w' E; now rewrite (findFile_ext _ _ _ E)).
  assert (sameButTrashed f f) as Hrefl by (repeat split).
  pose proof (processFolder_files folder config w) as Hfiles.
  destruct (findFolder w folder) as [d|].
  2:{ exists f. rewrite (Hsame _ Hfiles). repeat split; try tauto. }
  rewrite accOf_groups in Hfiles. cbn [ga_groups emptyAcc] in Hfiles.
  unfold trashWorld in Hfiles. destruct (DRY_RUN (base config)).
  { exists f. rewrite (Hsame _ Hfiles). repeat split; try tauto. }
  rewrite (findFile_ext _ _ id Hfiles), findFile_trashAll, Hf. cbn [option_map].
  rewrite markAll_spec.
  destruct (includes _ (f_id f)) eqn:E.
  - exists (trashFile f). split; [reflexivity|]. split; [repeat split|].
    split; [reflexivity|]. intros _. split; [reflexivity|].
    apply includes_in, in_map_iff in E. destruct E as [v [Hid Hv]].
    rewrite <- (find_file_id _ _ _ Hf), <- Hid. now apply victim_listed in Hv.
  - exists f. repeat split; try tauto.
Qed.

(** * Further properties of [utils.ts] *)

Lemma append_assoc (a b c : string) : ((a ++ b) ++ c = a ++ (b ++ c))%string.
Proof. induction a as [|x a IH]; cbn; [reflexivity | now rewrite IH]. Qed.

Lemma sliceFrom_beyond n s :
  (Z.of_nat (String.length s) <= n)%Z -> sliceFrom n s = EmptyString.
Proof. intros H. unfold sliceFrom. apply Z.leb_le in H. now rewrite H. Qed.

(** A name is free of dots or has a last dot. *)
Lemma last_dot_split s :
  dotFree s \/ exists a b, s = (a ++ String "."%char b)%string /\ dotFree b.
Proof.
  induction s as [|c s [IH|[a [b [-> Hb]]]]].
  - now left.
  - destruct (Ascii.eqb_spec c "."%char) as [->|Hc].
    + right. exists EmptyString, s. auto.
    + left. split; assumption.
  - right. exists (String c a), b. auto.
Qed.

Section Extension.
Variable name : string.
Hypothesis short : (Z.of_nat (String.length name) < 4294967296)%Z.

Lemma extension_after_dot stem ext :
  stem <> EmptyString -> dotFree ext ->
  name = (stem ++ String "."%char ext)%string ->
  getFileExtension name = toLowerCase ext.
Proof.
  intros Hs He E. unfold getFileExtension. f_equal.
  rewrite E, (lastIndexOf_split stem ext He).
  assert (0 < String.length stem) as Hpos by (destruct stem; [now elim Hs | cbn; lia]).
  assert (String.length name = String.length stem + S (String.length ext)) as Hl
    by (rewrite E, length_append; reflexivity).
  unfold toUint32. rewrite Z.mod_small by lia.
  replace (Z.of_nat (String.length stem) - 1 + 2)%Z
    with (Z.of_nat (String.length (stem ++ "."))) by (rewrite length_append; cbn; lia).
  replace (stem ++ String "."%char ext)%string with ((stem ++ ".") ++ ext)%string
    by (now rewrite append_assoc).
  destruct ext as [|c ext].
  - apply sliceFrom_beyond. rewrite !length_append. cbn. lia.
  - apply sliceFrom_suffix. discriminate.
Qed.

Lemma extension_without_dot :
  dotFree name \/ (exists rest, name = String "."%char rest /\ dotFree rest) ->
  getFileExtension name = toLowerCase EmptyString.
Proof.
  intros H. unfold getFileExtension. f_equal.
  assert (lastIndexOf "."%char name = (-1)%Z \/ lastIndexOf "."%char name = 0%Z) as Hi.
  { destruct H as [H|[rest [-> H]]]; unfold lastIndexOf.
    - left. now apply lastIndexFrom_dotFree.
    - right. cbn [lastIndexFrom]. rewrite Ascii.eqb_refl.
      now apply lastIndexFrom_dotFree. }
  apply sliceFrom_beyond.
  destruct Hi as [-> | ->].
  - replace (toUint32 (-1 - 1) + 2)%Z with 4294967296%Z by reflexivity. lia.
  - replace (toUint32 (0 - 1) + 2)%Z with 4294967297%Z by reflexivity. lia.
Qed.

(** The extension is the lower-casing of a text without a dot. *)
Lemma extension_shape :
  exists s, dotFree s /\ getFileExtension name = toLowerCase s.
Proof.
  destruct (last_dot_split name) as [H|[a [b [E Hb]]]].
  - exists EmptyString. split; [exact I|]. apply extension_without_dot. now left.
  - destruct a as [|c a].
    + exists EmptyString. split; [exact I|]. apply extension_without_dot.
      right. exists b. auto.
    + exists b. split; [exact Hb|].
      apply (extension_after_dot (String c a) b); auto. discriminate.
Qed.
End Extension.

(** X3.  For a name of fewer than 2^32 characters, the extension is the
    text after the last dot, lower-cased by the runtime, when that dot is
    not the first character; for a name without a dot or whose only dot
    leads it, it is what the runtime's lower-casing makes of the empty
    string. *)
Theorem getFileExtension_spec :
  forall name,
    (Z.of_nat (String.length name) < 4294967296)%Z ->
    (forall stem ext,
        stem <> EmptyString -> dotFree ext ->
        name = (stem ++ String "."%char ext)%string ->
        getFileExtension name = toLowerCase ext) /\
    (dotFree name \/ (exists rest, name = String "."%char rest /\ dotFree rest) ->
     getFileExtension name = toLowerCase EmptyString).
Proof.
  intros name Hs. split.
  - intros stem ext. now apply extension_after_dot.
  - now apply extension_without_dot.
Qed.

(** X4.  A file is excluded exactly when its extension, as
    [getFileExtension] computes it, is an entry of the exclusion list; the
    entries are compared as they are, never lower-cased.  The extension is
    the runtime's lower-casing of a text without a dot: so, where
    lower-casing a second time changes nothing, an entry that lower-casing
    changes excludes nothing; where lower-casing brings no dot into a
    text, an entry that holds a dot excludes nothing; and an empty list
    excludes nothing. *)
Theorem isFileExcluded_spec :
  forall name exts,
    (Z.of_nat (String.length name) < 4294967296)%Z ->
    (isFileExcluded name exts = true <-> In (getFileExtension name) exts) /\
    (exists s, dotFree s /\ getFileExtension name = toLowerCase s) /\
    ((forall s, toLowerCase (toLowerCase s) = toLowerCase s) ->
     forall e, In e exts -> toLowerCase e <> e -> e <> getFileExtension name) /\
    ((forall s, dotFree s -> dotFree (toLowerCase s)) ->
     forall e, In e exts -> ~ dotFree e -> e <> getFileExtension name) /\
    isFileExcluded name [] = false.
Proof.
  intros name exts Hs.
  destruct (extension_shape name Hs) as [s [Hd Hx]].
  split; [|split; [|split; [|split; [|reflexivity]]]].
  - unfold isFileExcluded. destruct exts as [|x xs].
    + split; [discriminate | intros []].
    + apply includes_in.
  - now exists s.
  - intros Hidem e _ Hbad ->. apply Hbad. rewrite Hx. apply Hidem.
  - intros Hdot e _ Hbad ->. apply Hbad. rewrite Hx. now apply Hdot.
Qed.

Section Exclusion.
Variables (w : World) (excluded : list string).

Lemma parentsExcluded_spec : forall fuel current,
  rootedWithin w fuel current ->
  exists b,
    parentsExcluded fuel current excluded w = mkRes (Ok b) w [] /\
    (b = true <->
     exists x d p, In x excluded /\ findFolder w current = Some d /\
                   d_parent d = Some p /\ ancestorOrSelf w x p).
Proof.
  induction fuel as [|fuel IH]; intros current Hr; [contradiction|].
  cbn [rootedWithin] in Hr. cbn [parentsExcluded].
  destruct (findFolder w current) as [d|] eqn:Hd; [|contradiction].
  rewrite (bind_run _ _ _ _ _ _ (readFolder_run _ _ _ Hd)).
  destruct (d_parent d) as [p|] eqn:Hp.
  - destruct (includes excluded p) eqn:Hin.
    + exists true. split; [reflexivity|]. split; [|reflexivity]. intros _.
      exists p, d, p. apply includes_in in Hin. repeat split; auto. constructor.
    + destruct (IH p Hr) as [b [Hrun Hb]]. exists b. rewrite Hrun.
      split; [reflexivity|]. rewrite Hb. split.
      * intros [x [d' [p' [Hx [Hd' [Hp' Ha]]]]]].
        exists x, d, p. repeat split; auto. now apply (anc_up w x p d' p').
      * intros [x [d0 [p0 [Hx [Hd0 [Hp0 Ha]]]]]].
        inversion Hd0; subst d0. rewrite Hp in Hp0. inversion Hp0; subst p0.
        inversion Ha as [|? ? d' p' Hd' Hp' Ha']; subst.
        -- exfalso. apply includes_in in Hx. congruence.
        -- exists x, d', p'. auto.
  - exists false. split; [reflexivity|]. split; [discriminate|].
    intros [x [d0 [p0 [_ [Hd0 [Hp0 _]]]]]]. congruence.
Qed.
End Exclusion.

Lemma isFolderExcluded_run :
  forall fuel w folder excluded,
    rootedWithin w fuel folder ->
    exists b,
      isFolderExcluded fuel folder excluded w = mkRes (Ok b) w [] /\
      (b = true <-> exists x, In x excluded /\ ancestorOrSelf w x folder).
Proof.
  intros fuel w folder excluded Hr. unfold isFolderExcluded.
  destruct excluded as [|e es].
  - exists false. split; [reflexivity|]. split; [discriminate|].
    intros [x [[] _]].
  - destruct (includes (e :: es) folder) eqn:Hin.
    + exists true. split; [reflexivity|]. split; [|reflexivity]. intros _.
      exists folder. apply includes_in in Hin. split; [assumption | constructor].
    + destruct (parentsExcluded_spec w (e :: es) fuel folder Hr) as [b [Hrun Hb]].
      exists b. split; [assumption|]. rewrite Hb. split.
      * intros [x [d [p [Hx [Hd [Hp Ha]]]]]]. exists x. split; [assumption|].
        now apply (anc_up w x folder d p).
      * intros [x [Hx Ha]]. inversion Ha as [|? ? d p Hd Hp Ha']; subst.
        -- exfalso. apply includes_in in Hx. congruence.
        -- exists x, d, p. auto.
Qed.

(** X5.  When the chain of parents of a folder ends within the store,
    [isFolderExcluded] returns, without changing the store, and answers
    true exactly when the folder itself or one of the folders above it is
    in the exclusion list; with an empty list it answers false. *)
Theorem isFolderExcluded_spec :
  forall fuel w folder excluded,
    rootedWithin w fuel folder ->
    exists b,
      isFolderExcluded fuel folder excluded w = mkRes (Ok b) w [] /\
      (b = true <-> exists x, In x excluded /\ ancestorOrSelf w x folder).
Proof. exact isFolderExcluded_run. Qed.

(** * Further properties of the top-level run *)

Lemma getConfig_run properties w :
  getConfig properties w =
    match ROOT_FOLDER_IDS properties with
    | [] => mkRes (Thrown "ROOT_FOLDER_IDS is empty. Please run setupConfig() first.")
              w []
    | _ => mkRes (Ok (runtimeOf properties)) w []
    end.
Proof. unfold getConfig. destruct (ROOT_FOLDER_IDS properties); reflexivity. Qed.

Lemma bind_thrown {A B} (m : M A) (f : A -> M B) w msg w1 e1 :
  m w = mkRes (Thrown msg) w1 e1 -> bind m f w = mkRes (Thrown msg) w1 e1.
Proof. intros H. unfold bind. now rewrite H. Qed.

Lemma tryCatch_thrown {A} (m : M A) (h : string -> M A) w msg w1 e1 :
  m w = mkRes (Thrown msg) w1 e1 ->
  tryCatch m h w = mkRes (outcome (h msg w1)) (world (h msg w1)) (e1 ++ events (h msg w1)).
Proof. intros H. unfold tryCatch. now rewrite H. Qed.

(** X6.  With an empty list of root folders the run stops at the
    validation of the configuration: it logs the critical error, issues no
    store call, leaves the store as it was and does not throw. *)
Theorem empty_roots_abort :
  forall fuel properties w,
    ROOT_FOLDER_IDS properties = [] ->
    cleanDuplicateAttachments fuel properties w =
      mkRes (Ok tt) (tick w)
        [EvLog (LogCriticalError
                  "ROOT_FOLDER_IDS is empty. Please run setupConfig() first.")].
Proof.
  intros fuel properties w H. unfold cleanDuplicateAttachments.
  rewrite (bind_run _ _ _ _ _ _ (dateNow_run w)).
  rewrite (tryCatch_thrown _ _ _ _ _ _
             (bind_thrown _ _ _ _ _ _ (eq_trans (getConfig_run properties (tick w))
                                                 ltac:(now rewrite H)))).
  reflexivity.
Qed.

Lemma tryCatch_ok {A} (m : M A) (h : string -> M A) w a w1 e1 :
  m w = mkRes (Ok a) w1 e1 -> tryCatch m h w = mkRes (Ok a) w1 e1.
Proof. intros H. unfold tryCatch. now rewrite H. Qed.

(** The guarded call of [processFolder] in the loop over the subfolders
    always yields a value. *)
Lemma guarded_processFolder_run folder name config w :
  exists r w1 e1,
    tryCatch (fs <- processFolder folder config ;; ret (Some fs))
             (fun _ => emit (EvLog (LogFolderError name)) ;;; ret None) w
    = mkRes (Ok r) w1 e1.
Proof.
  destruct (findFolder w folder) as [d|] eqn:Hd.
  - do 3 eexists. apply tryCatch_ok.
    rewrite (bind_run _ _ _ _ _ _ (processFolder_run folder config w d Hd)).
    reflexivity.
  - do 3 eexists.
    rewrite (tryCatch_thrown _ _ _ _ _ _
               (bind_thrown _ _ _ _ _ _ (processFolder_missing folder config w Hd))).
    reflexivity.
Qed.

Lemma processFoldersLoop_run :
  forall config globalStartTime folders stats w,
    exists stats',
      outcome (processFoldersLoop config globalStartTime folders stats w) = Ok stats' /\
      totalFolders stats' = totalFolders stats /\
      foldersProcessed stats <= foldersProcessed stats' /\
      foldersProcessed stats' <= foldersProcessed stats + List.length folders.
Proof.
  intros config start folders. induction folders as [|fi folders IH]; intros stats w.
  - exists stats. cbn. repeat split; lia.
  - cbn [processFoldersLoop].
    rewrite (bind_run _ _ _ _ _ _ (dateNow_run w)). cbn [outcome].
    destruct (_ <? _)%Z.
    + exists stats. cbn. repeat split; lia.
    + destruct (guarded_processFolder_run (fo_folder fi) (fo_name fi) config (tick w))
        as [r [w1 [e1 Hr]]].
      rewrite (bind_run _ _ _ _ _ _ Hr). cbn [outcome].
      destruct (IH (match r with
                    | Some fs => addFolderStats stats fs
                    | None => stats
                    end) w1) as [s [Hs [Ht [Hlo Hhi]]]].
      exists s. split; [exact Hs|].
      destruct r as [fs|]; cbn in *; repeat split; lia.
Qed.

Lemma tryCatch_no_throw {A} (m : M A) (h : string -> M A) w msg :
  (forall e w', outcome (h e w') <> Thrown msg) ->
  outcome (tryCatch m h w) = Thrown msg -> False.
Proof.
  intros Hh. unfold tryCatch. destruct (outcome (m w)) eqn:E; cbn; intros H.
  - congruence.
  - now apply Hh in H.
  - congruence.
Qed.

(** X8.  [cleanDuplicateAttachments] never throws: whatever fails below
    it, an unreadable root, a failing subfolder or a rejected
    configuration, is caught and logged. *)
Theorem cleanDuplicateAttachments_never_throws :
  forall fuel properties w msg,
    outcome (cleanDuplicateAttachments fuel properties w) <> Thrown msg.
Proof.
  intros fuel properties w msg. unfold cleanDuplicateAttachments.
  rewrite (bind_run _ _ _ _ _ _ (dateNow_run w)). cbn [outcome].
  intros H. apply tryCatch_no_throw in H; [assumption|].
  intros e w'. cbn. discriminate.
Qed.

Section MainFrame.
Variables (P : Event -> Prop) (R : World -> World -> Prop).
Variable okConfig : RuntimeConfig -> Prop.
Hypothesis R_refl : forall w, R w w.
Hypothesis R_trans : forall a b c, R a b -> R b c -> R a c.
Hypothesis R_same : forall w w', sameStore w w' -> R w w'.
Hypothesis P_log : forall l, P (EvLog l).
Hypothesis processFolder_ok :
  forall config folder, okConfig config -> keeps P R (processFolder folder config).

Lemma frame_loadSubfolders fuel config subs : forall folders,
  keeps P R (loadSubfolders fuel config subs folders).
Proof.
  induction subs as [|s subs IH]; intros folders; cbn [loadSubfolders].
  - now apply keeps_ret.
  - apply keeps_bind; [assumption | now apply keeps_isFolderExcluded |].
    intros excluded. apply keeps_bind; [assumption | now apply keeps_readFolder |].
    intros d. destruct excluded; apply IH.
Qed.

Lemma frame_shuffleLoop : forall i folders, keeps P R (shuffleLoop i folders).
Proof.
  induction i as [|i IH]; intros folders; cbn [shuffleLoop].
  - now apply keeps_ret.
  - apply keeps_bind; [assumption | now apply keeps_randomBelow | intros; apply IH].
Qed.

Lemma frame_processFoldersLoop config globalStartTime folders :
  okConfig config ->
  forall stats, keeps P R (processFoldersLoop config globalStartTime folders stats).
Proof.
  intros Hok. induction folders as [|fi folders IH]; intros stats;
    cbn [processFoldersLoop].
  - now apply keeps_ret.
  - apply keeps_bind; [assumption | now apply keeps_dateNow |]. intros now.
    destruct (_ <? _)%Z; [now apply keeps_ret|].
    apply keeps_bind; [assumption | | intros; apply IH].
    apply keeps_tryCatch; [assumption | |].
    + apply keeps_bind; [assumption | now apply processFolder_ok |].
      intros fs. now apply keeps_ret.
    + intros msg. apply keeps_bind; [assumption | apply keeps_emit; auto |].
      intros _. now apply keeps_ret.
Qed.

Lemma frame_processRootFolder fuel rootFolder config globalStartTime :
  okConfig config ->
  keeps P R (processRootFolder fuel rootFolder config globalStartTime).
Proof.
  intros Hok. unfold processRootFolder.
  apply keeps_bind; [assumption | now apply keeps_readFolder |]. intros root.
  apply keeps_bind; [assumption | apply keeps_emit; auto |]. intros _.
  apply keeps_bind; [assumption | now apply keeps_getFolders |]. intros subs.
  apply keeps_bind; [assumption | apply frame_loadSubfolders |]. intros loaded.
  apply keeps_bind; [assumption | | intros; now apply frame_processFoldersLoop].
  destruct (FOLDER_SORT_MODE (base config));
    [now apply keeps_ret | apply frame_shuffleLoop].
Qed.

Lemma frame_processRoots fuel config startTime roots :
  okConfig config ->
  forall totalStats, keeps P R (processRoots fuel roots config startTime totalStats).
Proof.
  intros Hok. induction roots as [|r roots IH]; intros totalStats;
    cbn [processRoots].
  - now apply keeps_ret.
  - apply keeps_bind; [assumption | now apply keeps_dateNow |]. intros now.
    destruct (_ <? _)%Z.
    + apply keeps_bind; [assumption | apply keeps_emit; auto |].
      intros _. now apply keeps_ret.
    + apply keeps_bind; [assumption | | intros; apply IH].
      apply keeps_tryCatch; [assumption | |].
      * apply keeps_bind; [assumption | now apply keeps_readFolder |]. intros _.
        apply keeps_bind; [assumption | now apply frame_processRootFolder |].
        intros stats. now apply keeps_ret.
      * intros msg. apply keeps_bind; [assumption | apply keeps_emit; auto |].
        intros _. now apply keeps_ret.
Qed.

Lemma frame_getConfig {A} properties (f : RuntimeConfig -> M A) :
  keeps P R (f (runtimeOf properties)) -> keeps P R (bind (getConfig properties) f).
Proof.
  intros Hf w. unfold bind. rewrite getConfig_run.
  destruct (ROOT_FOLDER_IDS properties); cbn.
  - split; [constructor | apply R_refl].
  - exact (Hf w).
Qed.

Lemma frame_cleanDuplicateAttachments fuel properties :
  okConfig (runtimeOf properties) ->
  keeps P R (cleanDuplicateAttachments fuel properties).
Proof.
  intros Hok. unfold cleanDuplicateAttachments.
  apply keeps_bind; [assumption | now apply keeps_dateNow |]. intros startTime.
  apply keeps_tryCatch; [assumption | |].
  - apply frame_getConfig.
    apply keeps_bind; [assumption | now apply frame_processRoots |]. intros totalStats.
    apply keeps_bind; [assumption | now apply keeps_dateNow |]. intros _.
    apply keeps_emit; auto.
  - intros msg. apply keeps_emit; auto.
Qed.
End MainFrame.

(** * The run as a whole *)

(** X9.  With [DRY_RUN] set in the script properties the whole run, from
    the validation of the configuration to the summary, issues no
    mutating store call and leaves the files and folders of the store as
    they were. *)
Theorem dry_run_whole_run :
  forall fuel properties w,
    DRY_RUN properties = true ->
    Forall nonMutating (events (cleanDuplicateAttachments fuel properties w)) /\
    sameStore w (world (cleanDuplicateAttachments fuel properties w)).
Proof.
  intros fuel properties w Hdry.
  apply (frame_cleanDuplicateAttachments nonMutating sameStore
           (fun config => DRY_RUN (base config) = true)
           sameStore_refl sameStore_trans (fun _ _ H => H)
           (fun _ => eq_refl)).
  - intros config folder Hc. now apply quiet_processFolder.
  - exact Hdry.
Qed.

Lemma flagStep_refl f : flagStep f f.
Proof. repeat split; auto. Qed.

Lemma flagStep_trans a b c : flagStep a b -> flagStep b c -> flagStep a c.
Proof.
  unfold flagStep, sameButTrashed. intros [H1 T1] [H2 T2].
  repeat split; try (etransitivity; [apply H2 | apply H1]). auto.
Qed.

Lemma flagsOnly_refl w : flagsOnly w w.
Proof.
  split; apply Forall2_same; [apply flagStep_refl | apply folderSame_refl].
Qed.

Lemma flagsOnly_trans a b c : flagsOnly a b -> flagsOnly b c -> flagsOnly a c.
Proof.
  intros [F1 D1] [F2 D2]. split.
  - exact (Forall2_compose flagStep flagStep_trans _ _ _ F1 F2).
  - exact (Forall2_compose folderSame folderSame_trans _ _ _ D1 D2).
Qed.

Lemma flagsOnly_same w w' : sameStore w w' -> flagsOnly w w'.
Proof.
  intros [Hf Hd]. unfold flagsOnly. rewrite Hf, Hd. apply flagsOnly_refl.
Qed.

Lemma trashAll_map ids : forall w,
  w_files (trashAll ids w) = map (markAll ids) (w_files w).
Proof.
  induction ids as [|id ids IH]; intros w.
  - cbn. now rewrite map_id.
  - change (trashAll (id :: ids) w) with (trashAll ids (updFiles trashFile id w)).
    rewrite IH. cbn [updFiles w_files]. rewrite map_map. reflexivity.
Qed.

Lemma flagStep_markAll ids f : flagStep f (markAll ids f).
Proof.
  rewrite markAll_spec. destruct (includes ids (f_id f)).
  - repeat split.
  - apply flagStep_refl.
Qed.

Lemma flagsKept_refl w : flagsKept w w.
Proof. split; [apply Forall2_same, flagStep_refl | reflexivity]. Qed.

Lemma flagsKept_trans a b c : flagsKept a b -> flagsKept b c -> flagsKept a c.
Proof.
  intros [F1 D1] [F2 D2]. split.
  - exact (Forall2_compose flagStep flagStep_trans _ _ _ F1 F2).
  - congruence.
Qed.

Lemma flagsKept_same w w' : sameStore w w' -> flagsKept w w'.
Proof.
  intros [Hf Hd]. split; [rewrite Hf; apply Forall2_same, flagStep_refl | assumption].
Qed.

Lemma flagsKept_flagsOnly w w' : flagsKept w w' -> flagsOnly w w'.
Proof. intros [Hf Hd]. split; [assumption | now apply folders_kept]. Qed.

Lemma processFolder_flagsKept folder config w :
  flagsKept w (world (processFolder folder config w)).
Proof.
  split; [|apply processFolder_folders].
  rewrite processFolder_files.
  destruct (findFolder w folder); [|apply Forall2_same, flagStep_refl].
  unfold trashWorld. destruct (DRY_RUN (base config));
    [apply Forall2_same, flagStep_refl|].
  rewrite trashAll_map. generalize (w_files w) as l.
  induction l; constructor; auto using flagStep_markAll.
Qed.

Lemma processFolder_events folder config w e :
  In e (events (processFolder folder config w)) ->
  match e with
  | EvSetTrashedFile id =>
      DRY_RUN (base config) = false /\ In id (listFiles w folder)
  | EvGetMd5 _ | EvLog _ => True
  | _ => False
  end.
Proof.
  destruct (findFolder w folder) as [d|] eqn:Hd.
  - rewrite (processFolder_run folder config w d Hd). cbn [events].
    intros [<-|He]; [exact I|]. apply in_app_or in He. destruct He as [He|He].
    + apply md5Events_in in He. destruct He as [f [_ [_ ->]]]. exact I.
    + unfold trashEvents in He.
      destruct (DRY_RUN (base config)); [contradiction|].
      apply in_map_iff in He. destruct He as [v [<- Hv]].
      split; [reflexivity|]. rewrite accOf_groups in Hv.
      now apply victim_listed in Hv.
  - rewrite (processFolder_missing folder config w Hd). intros [].
Qed.

Lemma flagsOnly_processFolder folder config :
  keeps trashesFilesOnly flagsOnly (processFolder folder config).
Proof.
  intros w. split.
  - apply Forall_forall. intros e He. apply processFolder_events in He.
    destruct e; try exact I; contradiction.
  - apply flagsKept_flagsOnly, processFolder_flagsKept.
Qed.

(** X10.  Whatever the configuration, the whole run issues no call that
    moves or renames a file or that trashes a folder; at its end the
    file table holds the initial files in their order, each with its
    name, creation time, size, digest and folder, of which some have been
    trashed and none restored, and every folder has its identity, name,
    parent and trashed flag. *)
Theorem whole_run_only_trashes_files :
  forall fuel properties w,
    Forall trashesFilesOnly (events (cleanDuplicateAttachments fuel properties w)) /\
    flagsOnly w (world (cleanDuplicateAttachments fuel properties w)).
Proof.
  intros fuel properties w.
  apply (frame_cleanDuplicateAttachments trashesFilesOnly flagsOnly
           (fun _ => True)
           flagsOnly_refl flagsOnly_trans flagsOnly_same (fun _ => I)).
  - intros config folder _. apply flagsOnly_processFolder.
  - exact I.
Qed.

(** * The order in which the subfolders are visited *)

Lemma setNth_perm {A} (a b : A) : forall l j,
  nth_error l j = Some b -> Permutation (a :: l) (b :: setNth j a l).
Proof.
  induction l as [|c l IH]; intros [|j] H; try discriminate.
  - injection H as ->. cbn. apply perm_swap.
  - cbn in H |- *. rewrite perm_swap. rewrite (IH j H). apply perm_swap.
Qed.

Lemma swap_perm {A} : forall (l : list A) i j, Permutation l (swap i j l).
Proof.
  intros l i j. unfold swap.
  destruct (nth_error l i) as [a|] eqn:Ha; [|reflexivity].
  destruct (nth_error l j) as [b|] eqn:Hb; [|reflexivity].
  revert i j Ha Hb. induction l as [|c l IH]; intros [|i] [|j] Ha Hb;
    try discriminate; cbn in Ha, Hb |- *.
  - injection Ha as ->. injection Hb as ->. reflexivity.
  - injection Ha as ->. now apply setNth_perm.
  - injection Hb as ->. now apply setNth_perm.
  - constructor. now apply IH.
Qed.

Lemma randomBelow_run n w :
  exists j w', randomBelow n w = mkRes (Ok j) w' [] /\ sameStore w w' /\
               w_clock w' = w_clock w /\ w_now w' = w_now w.
Proof.
  unfold randomBelow. destruct (w_random w) as [|r rs].
  - exists 0, w. repeat split.
  - eexists _, _. repeat split.
Qed.

Lemma shuffleLoop_run :
  forall i folders w,
    exists l w',
      shuffleLoop i folders w = mkRes (Ok l) w' [] /\
      Permutation folders l /\ sameStore w w'.
Proof.
  induction i as [|i IH]; intros folders w.
  - exists folders, w. repeat split. reflexivity.
  - cbn [shuffleLoop].
    destruct (randomBelow_run (S (S i)) w) as [j [w1 [Hr [Hs _]]]].
    rewrite (bind_run _ _ _ _ _ _ Hr).
    destruct (IH (swap (S i) j folders) w1) as [l [w' [Hl [Hp Hs']]]].
    exists l, w'. rewrite Hl. repeat split.
    + rewrite <- Hp. apply swap_perm.
    + destruct Hs, Hs'. congruence.
    + destruct Hs, Hs'. congruence.
Qed.

(** X11.  The Fisher-Yates loop always returns, issues no store call,
    and hands back a rearrangement of the array it was given: no
    subfolder is lost and none is visited twice, whatever the random
    source yields. *)
Theorem shuffleLoop_permutes :
  forall i folders w,
    exists l w',
      shuffleLoop i folders w = mkRes (Ok l) w' [] /\
      Permutation folders l /\ sameStore w w'.
Proof. exact shuffleLoop_run. Qed.

Lemma insertByRecency_perm x l : Permutation (insertByRecency x l) (x :: l).
Proof.
  induction l as [|y l IH]; cbn; [reflexivity|].
  destruct (fo_lastModified y <=? fo_lastModified x)%Z; [reflexivity|].
  rewrite IH. apply perm_swap.
Qed.

Lemma sortByRecency_perm l : Permutation (sortByRecency l) l.
Proof.
  induction l as [|x l IH]; cbn; [reflexivity|].
  rewrite insertByRecency_perm. now constructor.
Qed.

Lemma insertByRecency_sorted x l :
  sortedByRecency l -> sortedByRecency (insertByRecency x l).
Proof.
  induction l as [|y l IH]; cbn; intros Hs.
  - split; [intros ? []|exact I].
  - destruct Hs as [Hy Hl].
    destruct (fo_lastModified y <=? fo_lastModified x)%Z eqn:E.
    + apply Z.leb_le in E. cbn. repeat split; auto.
      intros z [<-|Hz]; [assumption|]. specialize (Hy z Hz). lia.
    + apply Z.leb_gt in E. cbn. split; [|auto].
      intros z Hz. apply (Permutation_in _ (insertByRecency_perm x l)) in Hz.
      destruct Hz as [<-|Hz]; [lia|auto].
Qed.

Lemma updatedAt_insertByRecency t x l :
  updatedAt t (insertByRecency x l) = updatedAt t (x :: l).
Proof.
  unfold updatedAt. induction l as [|y l IH]; [reflexivity|].
  cbn [insertByRecency].
  destruct (fo_lastModified y <=? fo_lastModified x)%Z eqn:E; [reflexivity|].
  apply Z.leb_gt in E. cbn [filter] in *. rewrite IH.
  destruct (fo_lastModified x =? t)%Z eqn:Ex; [|reflexivity].
  apply Z.eqb_eq in Ex.
  assert ((fo_lastModified y =? t)%Z = false) as -> by (apply Z.eqb_neq; lia).
  reflexivity.
Qed.

(** X12.  Sorting by recency rearranges the array, puts the most
    recently updated subfolder first, and is stable: subfolders with the
    same time of last update keep the order in which they were loaded. *)
Theorem sortByRecency_spec :
  forall l,
    Permutation l (sortByRecency l) /\
    sortedByRecency (sortByRecency l) /\
    forall t, updatedAt t (sortByRecency l) = updatedAt t l.
Proof.
  intros l. split; [symmetry; apply sortByRecency_perm|]. split.
  - induction l as [|x l IH]; cbn; [exact I|]. now apply insertByRecency_sorted.
  - intros t. induction l as [|x l IH]; [reflexivity|].
    change (sortByRecency (x :: l)) with (insertByRecency x (sortByRecency l)).
    rewrite updatedAt_insertByRecency. unfold updatedAt in *. cbn [filter].
    now rewrite IH.
Qed.

(** * Termination of the run *)

Lemma findFolder_ext w w' id :
  w_folders w = w_folders w' -> findFolder w id = findFolder w' id.
Proof. unfold findFolder. now intros ->. Qed.

Lemma rootedWithin_ext w w' :
  w_folders w = w_folders w' ->
  forall fuel id, rootedWithin w fuel id -> rootedWithin w' fuel id.
Proof.
  intros E. induction fuel as [|fuel IH]; intros id; cbn; [trivial|].
  rewrite <- (findFolder_ext w w' id E).
  destruct (findFolder w id) as [d|]; [|trivial].
  destruct (d_parent d); [apply IH | trivial].
Qed.

Lemma wellRooted_ext w w' fuel :
  w_folders w' = w_folders w -> wellRooted w fuel -> wellRooted w' fuel.
Proof.
  intros E H d Hd. rewrite E in Hd.
  apply (rootedWithin_ext w w' (eq_sym E)). now apply H.
Qed.

Lemma listFolders_found w folder s :
  In s (listFolders w folder) -> exists d, In d (w_folders w) /\ d_id d = s.
Proof.
  unfold listFolders. intros H. apply in_map_iff in H.
  destruct H as [d [Hid Hd]]. apply filter_In in Hd. exists d. tauto.
Qed.

Lemma findFolder_present w d :
  In d (w_folders w) -> exists d', findFolder w (d_id d) = Some d'.
Proof.
  intros Hd. unfold findFolder.
  destruct (find _ (w_folders w)) as [d'|] eqn:E; [eauto|].
  apply (find_none _ _ E) in Hd. now rewrite String.eqb_refl in Hd.
Qed.

Lemma loadSubfolders_run fuel config w :
  wellRooted w fuel ->
  forall subs folders,
    (forall s, In s subs -> exists d, In d (w_folders w) /\ d_id d = s) ->
    exists loaded,
      loadSubfolders fuel config subs folders w = mkRes (Ok (folders ++ loaded)) w [] /\
      List.length loaded <= List.length subs /\
      (EXCLUDED_FOLDER_IDS (base config) = [] ->
       List.length loaded = List.length subs) /\
      (forall fi, In fi loaded ->
         In (fo_folder fi) subs /\ ~ underExcluded config w (fo_folder fi)).
Proof.
  intros Hw. induction subs as [|s subs IH]; intros folders Hin.
  - exists []. rewrite app_nil_r. repeat split; try reflexivity; contradiction.
  - destruct (Hin s (or_introl eq_refl)) as [d [Hd Hid]].
    assert (rootedWithin w fuel s) as Hr by (rewrite <- Hid; now apply Hw).
    destruct (isFolderExcluded_run fuel w s (EXCLUDED_FOLDER_IDS (base config)) Hr)
      as [b [Hrun Hb]].
    destruct (findFolder_present w d Hd) as [d' Hd']. rewrite Hid in Hd'.
    cbn [loadSubfolders].
    rewrite (bind_run _ _ _ _ _ _ Hrun).
    rewrite (bind_run _ _ _ _ _ _ (readFolder_run _ _ _ Hd')).
    assert (forall s', In s' subs -> exists d, In d (w_folders w) /\ d_id d = s')
      as Hin' by (intros s' Hs'; apply Hin; now right).
    destruct b.
    + destruct (IH folders Hin') as [loaded [Hl [Hle [Heq Hmem]]]].
      exists loaded. rewrite Hl. split; [reflexivity|]. split; [cbn; lia|]. split.
      * intros E. exfalso. destruct Hb as [Hb _].
        destruct (Hb eq_refl) as [x [Hx _]]. rewrite E in Hx. destruct Hx.
      * intros fi Hfi. destruct (Hmem fi Hfi). split; [now right | assumption].
    + destruct (IH (folders ++ [mkFolderInfo s (d_updated d') (d_name d')]) Hin')
        as [loaded [Hl [Hle [Heq Hmem]]]].
      exists (mkFolderInfo s (d_updated d') (d_name d') :: loaded).
      rewrite Hl, <- app_assoc. split; [reflexivity|]. split; [cbn; lia|]. split.
      * intros E. cbn. now rewrite Heq.
      * intros fi [<-|Hfi].
        -- split; [now left|]. cbn. intros Hex. apply Hb in Hex. discriminate.
        -- destruct (Hmem fi Hfi). split; [now right | assumption].
Qed.

Lemma processRootFolder_run fuel rootFolder config globalStartTime w d :
  findFolder w rootFolder = Some d ->
  wellRooted w fuel ->
  exists stats,
    outcome (processRootFolder fuel rootFolder config globalStartTime w) = Ok stats /\
    foldersProcessed stats <= totalFolders stats /\
    totalFolders stats <= List.length (listFolders w rootFolder) /\
    (EXCLUDED_FOLDER_IDS (base config) = [] ->
     totalFolders stats = List.length (listFolders w rootFolder)).
Proof.
  intros Hd Hw. unfold processRootFolder.
  rewrite (bind_run _ _ _ _ _ _ (readFolder_run _ _ _ Hd)).
  rewrite (bind_run _ _ _ _ _ _ (emit_run _ _)).
  rewrite (bind_run _ _ _ _ _ _ (getFolders_run _ _)).
  destruct (loadSubfolders_run fuel config w Hw (listFolders w rootFolder) []
              (listFolders_found w rootFolder)) as [loaded [Hl [Hle [Heq _]]]].
  rewrite (bind_run _ _ _ _ _ _ Hl). cbn [outcome app].
  assert (exists folders w',
            match FOLDER_SORT_MODE (base config) with
            | RANDOM => shuffleLoop (List.length loaded - 1) loaded
            | LAST_UPDATED => ret (sortByRecency loaded)
            end w = mkRes (Ok folders) w' [] /\
            List.length folders = List.length loaded) as [folders [w' [Hs Hlen]]].
  { destruct (FOLDER_SORT_MODE (base config)).
    - exists (sortByRecency loaded), w. split; [reflexivity|].
      apply Permutation_length, sortByRecency_perm.
    - destruct (shuffleLoop_run (List.length loaded - 1) loaded w)
        as [l [w' [Hl' [Hp _]]]].
      exists l, w'. split; [assumption|]. symmetry. now apply Permutation_length. }
  rewrite (bind_run _ _ _ _ _ _ Hs). cbn [outcome].
  destruct (processFoldersLoop_run config globalStartTime folders
              (mkPStats 0 (List.length folders) 0 0 0 0%Z) w')
    as [stats [Ho [Ht [_ Hhi]]]].
  exists stats. split; [assumption|]. cbn in Ht, Hhi. rewrite Ht, Hlen.
  repeat split; [lia | lia | auto].
Qed.

Section Settles.
Variable fuel : nat.

Let returns {A} (m : M A) : Prop :=
  forall w, wellRooted w fuel ->
    (exists a, outcome (m w) = Ok a) /\ w_folders (world (m w)) = w_folders w.

Let settles {A} (m : M A) : Prop :=
  forall w, wellRooted w fuel ->
    outcome (m w) <> Diverged /\ w_folders (world (m w)) = w_folders w.

Lemma returns_settles {A} (m : M A) : returns m -> settles m.
Proof.
  intros H w Hw. destruct (H w Hw) as [[a Ha] Hf]. split; [|assumption].
  rewrite Ha. discriminate.
Qed.

Lemma returns_ret {A} (a : A) : returns (ret a).
Proof. intros w _. split; [now exists a | reflexivity]. Qed.

Lemma returns_emit e : returns (emit e).
Proof. intros w _. split; [now exists tt | reflexivity]. Qed.

Lemma returns_dateNow : returns dateNow.
Proof.
  intros w _. rewrite dateNow_run. split; [eexists; reflexivity | apply tick_folders].
Qed.

Lemma settles_readFolder id : settles (readFolder id).
Proof.
  intros w _. unfold readFolder. destruct (findFolder w id); cbn;
    (split; [discriminate | reflexivity]).
Qed.

Lemma settles_getConfig properties : settles (getConfig properties).
Proof.
  intros w _. rewrite getConfig_run. destruct (ROOT_FOLDER_IDS properties); cbn;
    (split; [discriminate | reflexivity]).
Qed.

Lemma settles_bind {A B} (m : M A) (f : A -> M B) :
  settles m -> (forall a, settles (f a)) -> settles (bind m f).
Proof.
  intros Hm Hf w Hw. destruct (Hm w Hw) as [Ho Hd]. unfold bind.
  destruct (outcome (m w)) as [a| |]; cbn; [|split; [discriminate | assumption]|easy].
  destruct (Hf a (world (m w)) (wellRooted_ext _ _ _ Hd Hw)) as [Ho' Hd'].
  split; [assumption | congruence].
Qed.

Lemma returns_bind {A B} (m : M A) (f : A -> M B) :
  returns m -> (forall a, returns (f a)) -> returns (bind m f).
Proof.
  intros Hm Hf w Hw. destruct (Hm w Hw) as [[a Ha] Hd]. unfold bind.
  rewrite Ha. cbn.
  destruct (Hf a (world (m w)) (wellRooted_ext _ _ _ Hd Hw)) as [Ho' Hd'].
  split; [assumption | congruence].
Qed.

Lemma returns_tryCatch {A} (m : M A) (h : string -> M A) :
  settles m -> (forall msg, returns (h msg)) -> returns (tryCatch m h).
Proof.
  intros Hm Hh w Hw. destruct (Hm w Hw) as [Ho Hd]. unfold tryCatch.
  destruct (outcome (m w)) as [a|msg|] eqn:E; [| |easy].
  - split; [exists a; assumption | assumption].
  - cbn. destruct (Hh msg (world (m w)) (wellRooted_ext _ _ _ Hd Hw)) as [Ho' Hd'].
    split; [assumption | congruence].
Qed.

Lemma settles_processRootFolder rootFolder config globalStartTime :
  settles (processRootFolder fuel rootFolder config globalStartTime).
Proof.
  intros w Hw. split.
  - destruct (findFolder w rootFolder) as [d|] eqn:Hd.
    + destruct (processRootFolder_run fuel rootFolder config globalStartTime w d Hd Hw)
        as [stats [Ho _]].
      rewrite Ho. discriminate.
    + unfold processRootFolder, bind, readFolder. rewrite Hd. discriminate.
  - apply (frame_processRootFolder (fun _ => True)
             (fun w w' => w_folders w' = w_folders w) (fun _ => True)
             (fun _ => eq_refl) (fun a b c H1 H2 => eq_trans H2 H1)
             (fun w w' H => proj2 H) (fun _ => I)
             (fun config folder _ w =>
                conj (proj2 (Forall_forall (fun _ => True) _) (fun _ _ => I))
                     (processFolder_folders folder config w))
             fuel rootFolder config globalStartTime I w).
Qed.

Lemma returns_processRoots config startTime roots : forall totalStats,
  returns (processRoots fuel roots config startTime totalStats).
Proof.
  induction roots as [|r roots IH]; intros totalStats; cbn [processRoots].
  - apply returns_ret.
  - apply returns_bind; [apply returns_dateNow|]. intros now.
    destruct (_ <? _)%Z.
    + apply returns_bind; [apply returns_emit | intros; apply returns_ret].
    + apply returns_bind; [|intros; apply IH].
      apply returns_tryCatch.
      * apply settles_bind; [apply settles_readFolder|]. intros _.
        apply settles_bind; [apply settles_processRootFolder|]. intros stats.
        apply returns_settles, returns_ret.
      * intros msg. apply returns_bind; [apply returns_emit | intros; apply returns_ret].
Qed.

Lemma returns_cleanDuplicateAttachments properties :
  returns (cleanDuplicateAttachments fuel properties).
Proof.
  unfold cleanDuplicateAttachments.
  apply returns_bind; [apply returns_dateNow|]. intros startTime.
  apply returns_tryCatch.
  - apply settles_bind; [apply settles_getConfig|]. intros config.
    apply returns_settles.
    apply returns_bind; [apply returns_processRoots|]. intros totalStats.
    apply returns_bind; [apply returns_dateNow | intros; apply returns_emit].
  - intros msg. apply returns_emit.
Qed.
End Settles.

(** X13.  For a root folder of the store whose folders all reach a
    parentless folder within the fuel, [processRootFolder] returns its
    statistics: the number of folders processed never exceeds the total,
    the total never exceeds the number of subfolders of the root, and
    with an empty exclusion list the total is that number. *)
Theorem processRootFolder_returns :
  forall fuel rootFolder config globalStartTime w d,
    findFolder w rootFolder = Some d ->
    wellRooted w fuel ->
    exists stats,
      outcome (processRootFolder fuel rootFolder config globalStartTime w) = Ok stats /\
      foldersProcessed stats <= totalFolders stats /\
      totalFolders stats <= List.length (listFolders w rootFolder) /\
      (EXCLUDED_FOLDER_IDS (base config) = [] ->
       totalFolders stats = List.length (listFolders w rootFolder)).
Proof. exact processRootFolder_run. Qed.

Lemma wellRooted_threeCopies : wellRooted threeCopies 3.
Proof.
  intros d [<-|[<-|[]]]; exact I.
Qed.

(** X14.  When every folder of the store reaches a parentless folder
    within the fuel, the whole run terminates normally: it returns,
    whatever the configuration, the roots and the state of the files. *)
Theorem cleanDuplicateAttachments_returns :
  forall fuel properties w,
    wellRooted w fuel ->
    outcome (cleanDuplicateAttachments fuel properties w) = Ok tt.
Proof.
  intros fuel properties w Hw.
  destruct (returns_cleanDuplicateAttachments fuel properties w Hw) as [[[] Ho] _].
  exact Ho.
Qed.

(** * The merge pass *)

Lemma groupDuplicateFolders_groupBy tree :
  groupDuplicateFolders tree = groupBy (map (fun n => (folderKey n, n)) tree) [].
Proof.
  unfold groupDuplicateFolders, groupBy. generalize (@nil (string * list FolderNode)).
  induction tree as [|n tree IH]; intros g; [reflexivity|]. cbn. apply IH.
Qed.

Lemma membersOf_withKey k tree :
  membersOf k (map (fun n => (folderKey n, n)) tree) = withKey k tree.
Proof.
  unfold membersOf, withKey. induction tree as [|n tree IH]; [reflexivity|].
  cbn. destruct (String.eqb (folderKey n) k); cbn; now rewrite IH.
Qed.

(** X15.  [groupDuplicateFolders] partitions the folder tree by key, the
    identity of the parent followed by the name as the runtime lower-cases
    it: the keys of the map are distinct, and a key is mapped to exactly
    the nodes of the tree that carry it, in the order of the tree, when
    there is such a node, and is absent otherwise. *)
Theorem groupDuplicateFolders_partition :
  forall tree,
    NoDup (map fst (groupDuplicateFolders tree)) /\
    forall k g,
      In (k, g) (groupDuplicateFolders tree) <-> g = withKey k tree /\ g <> [].
Proof.
  intros tree. rewrite groupDuplicateFolders_groupBy. split.
  - apply (groupBy_wf _ [] groups_wf_nil).
  - intros k g. rewrite groupBy_in. now rewrite membersOf_withKey.
Qed.

(** * The folder tree *)

Lemma scanSubfolders_run fuel config current w :
  wellRooted w fuel ->
  forall subs allFolders queue,
    (forall s, In s subs -> exists d, In d (w_folders w) /\ d_id d = s) ->
    exists ds,
      scanSubfolders fuel config current subs allFolders queue w =
        mkRes (Ok (allFolders ++ map (nodeOf current) ds,
                   if MERGE_FOLDERS_RECURSIVE (base config)
                   then queue ++ map itemOf (map (nodeOf current) ds)
                   else queue)) w [] /\
      (forall d, In d ds ->
         In (d_id d) subs /\ findFolder w (d_id d) = Some d /\
         ~ underExcluded config w (d_id d)) /\
      (EXCLUDED_FOLDER_IDS (base config) = [] -> map d_id ds = subs) /\
      map d_id ds = filter (keepsFolder fuel config w) subs.
Proof.
  intros Hw. induction subs as [|s subs IH]; intros allFolders queue Hin.
  - exists []. cbn. rewrite !app_nil_r.
    split; [|split; [intros ? []|split; reflexivity]].
    now destruct (MERGE_FOLDERS_RECURSIVE (base config)).
  - destruct (Hin s (or_introl eq_refl)) as [d [Hd Hid]].
    assert (rootedWithin w fuel s) as Hr by (rewrite <- Hid; now apply Hw).
    destruct (isFolderExcluded_run fuel w s (EXCLUDED_FOLDER_IDS (base config)) Hr)
      as [b [Hrun Hb]].
    destruct (findFolder_present w d Hd) as [d' Hd']. rewrite Hid in Hd'.
    assert (d_id d' = s) as Hid'.
    { unfold findFolder in Hd'. apply find_some in Hd'.
      now apply String.eqb_eq. }
    assert (forall s', In s' subs -> exists d, In d (w_folders w) /\ d_id d = s')
      as Hin' by (intros s' Hs'; apply Hin; now right).
    cbn [scanSubfolders]. rewrite (bind_run _ _ _ _ _ _ Hrun).
    cbn [filter]. unfold keepsFolder at 1. rewrite Hrun. cbn [outcome].
    destruct b; cbn [negb].
    + destruct (IH allFolders queue Hin') as [ds [Hl [Hds [Heq Hk]]]].
      exists ds. rewrite Hl. split; [reflexivity|]. split; [|split].
      * intros x Hx. destruct (Hds x Hx) as [H1 H2]. split; [now right | assumption].
      * intros E. exfalso. destruct Hb as [Hb _].
        destruct (Hb eq_refl) as [x [Hx _]]. rewrite E in Hx. destruct Hx.
      * exact Hk.
    + rewrite (bind_run _ _ _ _ _ _ (readFolder_run _ _ _ Hd')). cbv zeta.
      assert (s = d_id d') as -> by (symmetry; exact Hid').
      fold (nodeOf current d').
      destruct (IH (allFolders ++ [nodeOf current d'])
                   (if MERGE_FOLDERS_RECURSIVE (base config)
                    then queue ++ [itemOf (nodeOf current d')]
                    else queue) Hin') as [ds [Hl [Hds [Heq Hk]]]].
      exists (d' :: ds). split; [|split; [|split]].
      * change (mkItem (d_id d') (n_level (nodeOf current d'))
                  (n_path (nodeOf current d'))) with (itemOf (nodeOf current d')).
        rewrite Hl. cbn [map]. rewrite <- !app_assoc. cbn [app].
        destruct (MERGE_FOLDERS_RECURSIVE (base config)); [|reflexivity].
        now rewrite <- !app_assoc.
      * intros x [<-|Hx].
        -- split; [now left|]. split; [assumption|].
           intros Hex. apply Hb in Hex. discriminate.
        -- destruct (Hds x Hx) as [H1 H2]. split; [now right | assumption].
      * intros E. cbn [map]. now rewrite (Heq E).
      * cbn [map]. now rewrite Hk.
Qed.




Lemma wellRooted_mergeStore : wellRooted mergeStore 3.
Proof. intros d [<-|[<-|[<-|[]]]]; exact I. Qed.

Lemma scanQueue_linked exclusionFuel config w :
  wellRooted w exclusionFuel ->
  forall fuel queue allFolders tree,
    Forall (linked config w) allFolders ->
    outcome (scanQueue fuel exclusionFuel config queue allFolders w) = Ok tree ->
    Forall (linked config w) tree.
Proof.
  intros Hw. induction fuel as [|fuel IH]; intros queue allFolders tree Hall Ho.
  - destruct queue; [|discriminate]. cbn in Ho. now injection Ho as <-.
  - destruct queue as [|current queue]; [cbn in Ho; now injection Ho as <-|].
    cbn [scanQueue] in Ho.
    rewrite (bind_run _ _ _ _ _ _ (getFolders_run _ _)) in Ho.
    destruct (scanSubfolders_run exclusionFuel config current w Hw
                (listFolders w (q_folder current)) allFolders queue
                (listFolders_found w (q_folder current)))
      as [ds [Hrun [Hds _]]].
    rewrite (bind_run _ _ _ _ _ _ Hrun) in Ho. cbn [outcome fst snd] in Ho.
    apply IH in Ho; [assumption|].
    apply Forall_app. split; [assumption|].
    apply Forall_forall. intros n Hn. apply in_map_iff in Hn.
    destruct Hn as [d [<- Hd]]. destruct (Hds d Hd) as [H1 [_ H3]].
    split; [cbn; lia|]. split; assumption.
Qed.

(** X18.  In either mode, every node of a tree that [buildFolderTree]
    returns stands at level 1 or deeper, is listed among the subfolders
    of the folder recorded as its parent, and is not excluded: neither
    the folder nor a folder above it is in the exclusion list. *)
Theorem buildFolderTree_linked :
  forall fuel rootFolder config w tree,
    wellRooted w fuel ->
    outcome (buildFolderTree fuel rootFolder config w) = Ok tree ->
    Forall (linked config w) tree.
Proof.
  intros fuel rootFolder config w tree Hw Ho. unfold buildFolderTree in Ho.
  destruct (findFolder w rootFolder) as [root|] eqn:Hroot.
  - rewrite (bind_run _ _ _ _ _ _ (readFolder_run _ _ _ Hroot)) in Ho.
    cbn [outcome] in Ho.
    now apply (scanQueue_linked fuel config w Hw) in Ho.
  - unfold bind, readFolder in Ho. rewrite Hroot in Ho. discriminate.
Qed.

(** * The target of a merge *)

Section ReduceBest.
Context {A : Type}.
Variables (f : A -> A -> M A) (rank : A -> Z) (D : A -> Prop) (w : World).
Hypothesis f_run : forall acc x, D acc -> D x ->
  f acc x w = mkRes (Ok (if (rank acc <? rank x)%Z then x else acc)) w [].


End ReduceBest.



(** * Merging one folder into another *)

Lemma updFiles_ids g id w :
  (forall f, f_id (g f) = f_id f) ->
  map f_id (w_files (updFiles g id w)) = map f_id (w_files w).
Proof.
  intros Hg. unfold updFiles. cbn [w_files]. rewrite map_map.
  apply map_ext. intros f. destruct (String.eqb (f_id f) id); auto.
Qed.

Lemma applyEvent_ids e w :
  map f_id (w_files (applyEvent e w)) = map f_id (w_files w).
Proof.
  destruct e; cbn [applyEvent]; try reflexivity; now apply updFiles_ids.
Qed.

Lemma replay_unique acts : forall w,
  files_unique w -> files_unique (replay acts w).
Proof.
  induction acts as [|e acts IH]; intros w H; [assumption|].
  cbn [replay fold_left]. apply IH. unfold files_unique.
  now rewrite applyEvent_ids.
Qed.

Lemma findFile_upd_same g id w f :
  (forall f, f_id (g f) = f_id f) ->
  findFile w id = Some f -> findFile (updFiles g id w) id = Some (g f).
Proof.
  intros Hg Hf. rewrite findFile_updFiles, Hf by assumption. cbn.
  now rewrite (find_file_id _ _ _ Hf), String.eqb_refl.
Qed.

Lemma findFile_upd_other g id w i :
  (forall f, f_id (g f) = f_id f) ->
  i <> id -> findFile (updFiles g id w) i = findFile w i.
Proof.
  intros Hg Hi. rewrite findFile_updFiles by assumption.
  destruct (findFile w i) as [f|] eqn:Hf; [|reflexivity]. cbn.
  rewrite (find_file_id _ _ _ Hf). apply String.eqb_neq in Hi. now rewrite Hi.
Qed.

Lemma applyEvent_step target e w id g' :
  intoTarget target e ->
  findFile (applyEvent e w) id = Some g' ->
  exists g, findFile w id = Some g /\
            (f_parent g' = f_parent g \/ f_parent g' = target) /\
            (f_trashed g = true -> f_trashed g' = true).
Proof.
  intros He H.
  destruct e as [x|x|x|x t|x n|l]; cbn [applyEvent] in H.
  1,3,6: (exists g'; split; [exact H | auto]).
  all: rewrite findFile_updFiles in H by reflexivity;
    destruct (findFile w id) as [g|]; try discriminate;
    cbn in H; injection H as <-; exists g; (split; [reflexivity|]);
    destruct (String.eqb (f_id g) x); cbn; auto.
Qed.

Lemma replay_step target acts : forall w id g',
  Forall (intoTarget target) acts ->
  findFile (replay acts w) id = Some g' ->
  exists g, findFile w id = Some g /\
            (f_parent g' = f_parent g \/ f_parent g' = target) /\
            (f_trashed g = true -> f_trashed g' = true).
Proof.
  induction acts as [|e acts IH]; intros w id g' Hall H.
  - exists g'. auto.
  - inversion Hall; subst. cbn [replay fold_left] in H.
    destruct (IH _ _ _ H3 H) as [g1 [H1 [P1 T1]]].
    destruct (applyEvent_step target e w id g1 H2 H1) as [g [Hg [P T]]].
    exists g. split; [assumption|]. split; [|auto].
    destruct P1 as [P1|P1]; [rewrite P1; assumption | now right].
Qed.

Lemma conflictOf_decides config existing incoming ef inf :
  resolution (conflictOf config existing incoming ef inf) <> ERROR.
Proof.
  unfold conflictOf. destruct (md5Of ef), (md5Of inf); try discriminate.
  destruct (negb _); [discriminate|].
  destruct (_ <? _)%Z; [discriminate|].
  destruct (_ <=? _)%Z; discriminate.
Qed.

Lemma handled_bump res stats :
  res <> ERROR -> handled (bump res stats) = S (handled stats).
Proof. unfold handled. destruct res; cbn; intros H; try lia. now elim H. Qed.

Section MergeOne.
Variables (config : RuntimeConfig) (src tgt : string).
Hypothesis apart : src <> tgt.

Lemma mergeFile_skip w sf f stats :
  findFile w sf = Some f -> f_trashed f = true ->
  mergeFile sf tgt config stats w = mkRes (Ok stats) w [].
Proof.
  intros Hf Ht. unfold mergeFile.
  rewrite (bind_run _ _ _ _ _ _ (readFile_run _ _ _ Hf)). now rewrite Ht.
Qed.

Lemma mergeFile_step w sf f stats :
  files_unique w ->
  findFile w sf = Some f -> f_parent f = src -> f_trashed f = false ->
  exists acts stats' evs,
    mergeFile sf tgt config stats w = mkRes (Ok stats') (replay acts w) evs /\
    handled stats' = S (handled stats) /\
    Forall (intoTarget tgt) acts /\
    (forall other g, other <> sf -> findFile w other = Some g -> f_parent g <> tgt ->
       Forall (fun e => mentions other e = false) acts) /\
    (DRY_RUN (base config) = false ->
     exists f', findFile (replay acts w) sf = Some f' /\
                (f_trashed f' = true \/ f_parent f' = tgt)).
Proof.
  intros Hu Hf Hp Hv.
  destruct (listFilesByName w tgt (f_name f)) as [|e1 others] eqn:Hl.
  - exists (if DRY_RUN (base config) then [] else [EvMoveTo sf tgt]),
      (mkMergeResult (S (filesMoved stats)) (duplicatesHandled stats)
         (filesRenamed stats)),
      (if DRY_RUN (base config) then [] else [EvMoveTo sf tgt]).
    split; [|split; [|split; [|split]]].
    + unfold mergeFile.
      rewrite (bind_run _ _ _ _ _ _ (readFile_run _ _ _ Hf)). rewrite Hv.
      rewrite (bind_run _ _ _ _ _ _ (getFilesByName_run _ _ _)). rewrite Hl.
      destruct (DRY_RUN (base config)); reflexivity.
    + unfold handled. cbn. lia.
    + destruct (DRY_RUN (base config)); repeat constructor.
    + intros other g Ho _ _. destruct (DRY_RUN (base config)); repeat constructor.
      cbn. apply String.eqb_neq. congruence.
    + intros ->. exists (reparent tgt f). split; [|now right].
      cbn [replay fold_left applyEvent]. now apply findFile_upd_same.
  - assert (In e1 (listFilesByName w tgt (f_name f))) as Hin
      by (rewrite Hl; now left).
    apply listFilesByName_in in Hin. destruct Hin as [ef [Hef [Hid [Hpe _]]]].
    pose proof (unique_find w ef Hu Hef) as He. rewrite Hid in He.
    assert (e1 <> sf) as Hne.
    { intros ->. rewrite Hf in He. injection He as ->. congruence. }
    destruct (mergeFile_collision config w sf tgt stats f ef e1 others Hf Hv Hl He)
      as [k [_ [_ [_ Hrun]]]].
    pose proof (conflictOf_decides config e1 sf ef f) as Hdec.
    set (res := resolution (conflictOf config e1 sf ef f)) in *.
    exists (mergeActions config sf tgt e1 res (candidateName (f_name f) k)),
      (bump res stats),
      ([EvGetMd5 e1; EvGetMd5 sf]
         ++ mergeActions config sf tgt e1 res (candidateName (f_name f) k)).
    split; [exact Hrun|]. split; [now apply handled_bump|]. split; [|split].
    + unfold mergeActions. destruct (DRY_RUN (base config)); [constructor|].
      destruct res; repeat constructor.
    + intros other g Ho Hg Hpg. apply mergeActions_mention; [assumption|].
      intros ->. rewrite He in Hg. injection Hg as ->. congruence.
    + intros Hlive. unfold mergeActions. rewrite Hlive.
      destruct res; cbn [replay fold_left applyEvent].
      * exists (trashFile f). split; [|now left]. now apply findFile_upd_same.
      * exists (reparent tgt f). split; [|now right].
        apply findFile_upd_same; [reflexivity|].
        rewrite findFile_upd_other; [assumption | reflexivity | congruence].
      * exists (reparent tgt (rename (candidateName (f_name f) k) f)).
        split; [|now right].
        apply findFile_upd_same; [reflexivity|].
        now apply findFile_upd_same.
      * now elim Hdec.
Qed.

Variable w0 : World.

Lemma mergeFiles_accounts : forall rest wi stats,
  NoDup rest ->
  (forall id, In id rest -> exists f, findFile w0 id = Some f /\ f_parent f = src) ->
  files_unique wi ->
  (forall id, In id rest -> findFile wi id = findFile w0 id) ->
  (DRY_RUN (base config) = false ->
   forall id g, findFile wi id = Some g -> f_parent g = src ->
                f_trashed g = false -> In id rest) ->
  exists res w' evs,
    mergeFiles rest tgt config stats wi = mkRes (Ok res) w' evs /\
    handled res =
      handled stats
      + List.length (filter (fun f => negb (f_trashed f)) (resolve w0 rest)) /\
    files_unique w' /\
    (DRY_RUN (base config) = false ->
     forall id g, findFile w' id = Some g -> f_parent g = src -> f_trashed g = true).
Proof.
  induction rest as [|sf rest IH]; intros wi stats Hnd Hsrc Hu Hsame Hvis.
  - exists stats, wi, []. split; [reflexivity|]. split; [cbn; lia|].
    split; [assumption|]. intros Hlive id g Hg Hp.
    destruct (f_trashed g) eqn:Ht; [reflexivity|].
    destruct (Hvis Hlive id g Hg Hp Ht).
  - inversion Hnd as [|? ? Hnot Hnd']; subst.
    destruct (Hsrc sf (or_introl eq_refl)) as [f [Hf0 Hp]].
    assert (findFile wi sf = Some f) as Hf
      by (rewrite (Hsame sf (or_introl eq_refl)); assumption).
    assert (resolve w0 (sf :: rest) = f :: resolve w0 rest) as Hres
      by (unfold resolve; cbn [flat_map]; now rewrite Hf0).
    rewrite Hres. cbn [mergeFiles filter].
    assert (forall id, In id rest ->
              exists f, findFile w0 id = Some f /\ f_parent f = src) as Hsrc'
      by (intros id Hid; apply Hsrc; now right).
    destruct (f_trashed f) eqn:Ht; cbn [negb].
    + rewrite (bind_run _ _ _ _ _ _ (mergeFile_skip wi sf f stats Hf Ht)).
      destruct (IH wi stats Hnd' Hsrc' Hu (fun id Hid => Hsame id (or_intror Hid)))
        as [res [w' [evs [Hrun [Hh [Hu' Hgone]]]]]].
      { intros Hlive id g Hg Hpg Htg.
        destruct (Hvis Hlive id g Hg Hpg Htg) as [<-|Hin]; [|assumption].
        rewrite Hf in Hg. injection Hg as <-. congruence. }
      exists res, w', ([] ++ evs). rewrite Hrun.
      split; [reflexivity|]. split; [assumption|]. split; assumption.
    + destruct (mergeFile_step wi sf f stats Hu Hf Hp Ht)
        as [acts [stats' [evs1 [Hrun1 [Hh1 [Hinto [Hment Hsf]]]]]]].
      rewrite (bind_run _ _ _ _ _ _ Hrun1).
      destruct (IH (replay acts wi) stats' Hnd' Hsrc' (replay_unique acts wi Hu))
        as [res [w' [evs [Hrun [Hh [Hu' Hgone]]]]]].
      { intros id Hid. rewrite <- (Hsame id (or_intror Hid)).
        destruct (Hsrc' id Hid) as [g [Hg Hpg]].
        apply findFile_replay. apply (Hment id g).
        - intros ->. contradiction.
        - now rewrite (Hsame id (or_intror Hid)).
        - congruence. }
      { intros Hlive id g' Hg' Hpg' Htg'.
        destruct (replay_step tgt acts wi id g' Hinto Hg') as [g [Hg [P T]]].
        assert (f_parent g = src) as Hpg
          by (destruct P as [P|P]; congruence).
        assert (f_trashed g = false) as Htg.
        { destruct (f_trashed g); [|reflexivity]. rewrite T in Htg'; congruence. }
        destruct (Hvis Hlive id g Hg Hpg Htg) as [<-|Hin]; [|assumption].
        destruct (Hsf Hlive) as [f' [Hf' [Hc|Hc]]];
          rewrite Hf' in Hg'; injection Hg' as <-; congruence. }
      exists res, w', (evs1 ++ evs). rewrite Hrun.
      split; [reflexivity|]. split; [cbn [List.length]; lia|]. split; assumption.
Qed.
End MergeOne.

Lemma listFiles_in w folder id :
  In id (listFiles w folder) <->
  exists f, In f (w_files w) /\ f_id f = id /\ f_parent f = folder.
Proof.
  unfold listFiles. rewrite in_map_iff. split.
  - intros [f [Hid Hf]]. apply filter_In in Hf. destruct Hf as [Hf Hp].
    apply String.eqb_eq in Hp. exists f. auto.
  - intros [f [Hf [Hid Hp]]]. exists f. split; [assumption|].
    apply filter_In. split; [assumption|]. now apply String.eqb_eq.
Qed.

Lemma mergeFolder_run sourceNode targetNode config w :
  files_unique w ->
  n_id sourceNode <> n_id targetNode ->
  exists res w' evs,
    mergeFolder sourceNode targetNode config w = mkRes (Ok res) w' evs /\
    handled res = List.length (visibleIn w (n_id sourceNode)) /\
    (DRY_RUN (base config) = false -> visibleIn w' (n_id sourceNode) = []).
Proof.
  intros Hu Hne. unfold mergeFolder.
  rewrite (bind_run _ _ _ _ _ _ (getFiles_run _ _)).
  destruct (mergeFiles_accounts config (n_id sourceNode) (n_id targetNode) Hne w
              (listFiles w (n_id sourceNode)) w (mkMergeResult 0 0 0))
    as [res [w' [evs [Hrun [Hh [Hu' Hgone]]]]]].
  - now apply listFiles_NoDup.
  - intros id Hid. apply listFiles_in in Hid. destruct Hid as [f [Hf [Hid Hp]]].
    exists f. split; [|assumption]. rewrite <- Hid. now apply unique_find.
  - assumption.
  - reflexivity.
  - intros _ id g Hg Hp _. apply listFiles_in. exists g.
    split; [now apply find_file_in in Hg|]. split; [|assumption].
    now apply find_file_id in Hg.
  - exists res, w', ([] ++ evs). rewrite Hrun. split; [reflexivity|].
    split; [exact Hh|]. intros Hlive. unfold visibleIn. apply filter_none.
    intros g Hg. apply resolve_in in Hg. destruct Hg as [Hin Hg].
    apply listFiles_in in Hin. destruct Hin as [r [Hr [Hid Hp]]].
    pose proof (unique_find w' r Hu' Hr) as Hr'. rewrite Hid, Hg in Hr'.
    injection Hr' as ->. now rewrite (Hgone Hlive _ _ Hg Hp).
Qed.

(** X20.  When the identities of the files are distinct and source and
    target are different folders, [mergeFolder] returns, and its three
    counters add up to the number of files of the source that were
    visible at the start: each of them is counted exactly once, as moved,
    as duplicate or as renamed.  With dry-run off the source then holds
    no visible file: each one went to the target or to the trash. *)
Theorem mergeFolder_accounts :
  forall sourceNode targetNode config w,
    files_unique w ->
    n_id sourceNode <> n_id targetNode ->
    exists res w' evs,
      mergeFolder sourceNode targetNode config w = mkRes (Ok res) w' evs /\
      handled res = List.length (visibleIn w (n_id sourceNode)) /\
      (DRY_RUN (base config) = false -> visibleIn w' (n_id sourceNode) = []).
Proof. exact mergeFolder_run. Qed.

Lemma mergeStore_unique : files_unique mergeStore.
Proof. unfold files_unique. cbn. repeat constructor. intros []. Qed.

(** * Digests and the decision on a collision *)

Lemma getMd5Checksum_total file w :
  exists r,
    getMd5Checksum file w = mkRes (Ok r) w [EvGetMd5 file] /\
    forall s, r = Some s <->
              s <> EmptyString /\
              exists f, findFile w file = Some f /\ f_md5 f = Md5Value s.
Proof.
  unfold getMd5Checksum, tryCatch, bind, driveFilesGetMd5.
  destruct (findFile w file) as [f|] eqn:Hf.
  - destruct (f_md5 f) as [| |d] eqn:Hm; cbn.
    + exists None. split; [reflexivity|]. intros s. split; [discriminate|].
      intros [_ [f' [E Hm']]]. injection E as <-. congruence.
    + exists None. split; [reflexivity|]. intros s. split; [discriminate|].
      intros [_ [f' [E Hm']]]. injection E as <-. congruence.
    + destruct d as [|c d]; cbn.
      * exists None. split; [reflexivity|]. intros s. split; [discriminate|].
        intros [Hs [f' [E Hm']]]. injection E as <-.
        rewrite Hm in Hm'. injection Hm' as <-. now elim Hs.
      * exists (Some (String c d)). split; [reflexivity|]. intros s. split.
        -- intros E. injection E as <-. split; [discriminate|]. now exists f.
        -- intros [_ [f' [E Hm']]]. injection E as <-. congruence.
  - cbn. exists None. split; [reflexivity|]. intros s. split; [discriminate|].
    intros [_ [f' [E _]]]. discriminate.
Qed.

(** X21.  [getMd5Checksum] never throws: it returns after one digest
    request and without changing the store, and what it returns is a
    digest exactly when the file is in the store and carries that digest,
    which is then not the empty string; in every other case, a missing
    file, a failed request, an absent or an empty digest, it returns
    null. *)
Theorem getMd5Checksum_never_throws :
  forall file w,
    exists r,
      getMd5Checksum file w = mkRes (Ok r) w [EvGetMd5 file] /\
      forall s, r = Some s <->
                s <> EmptyString /\
                exists f, findFile w file = Some f /\ f_md5 f = Md5Value s.
Proof. exact getMd5Checksum_total. Qed.

Lemma resolveFileConflict_decided existing incoming config w c :
  outcome (resolveFileConflict existing incoming config w) = Ok c ->
  resolution c <> ERROR /\
  existingFile c = existing /\ incomingFile c = incoming /\
  (resolution c <> RENAME_INCOMING ->
   existingMd5 c = incomingMd5 c /\ existingMd5 c <> None).
Proof.
  unfold resolveFileConflict.
  destruct (getMd5Checksum_total existing w) as [e [He _]].
  destruct (getMd5Checksum_total incoming w) as [i [Hi _]].
  rewrite (bind_run _ _ _ _ _ _ He). rewrite (bind_run _ _ _ _ _ _ Hi).
  cbn [outcome].
  assert (forall reason,
            Ok (mkConflict existing incoming e i RENAME_INCOMING reason) = Ok c ->
            resolution c <> ERROR /\
            existingFile c = existing /\ incomingFile c = incoming /\
            (resolution c <> RENAME_INCOMING ->
             existingMd5 c = incomingMd5 c /\ existingMd5 c <> None)) as Hren.
  { intros reason E. injection E as <-. cbn.
    repeat split; try discriminate; congruence. }
  destruct e as [e|]; [|apply Hren].
  destruct i as [i|]; [|apply Hren].
  destruct (String.eqb e i) eqn:Eei; cbn [negb]; [|apply Hren].
  apply String.eqb_eq in Eei. subst i.
  destruct (findFile w existing) as [ef|] eqn:Hef.
  2:{ unfold bind, readFile. rewrite Hef. discriminate. }
  rewrite (bind_run _ _ _ _ _ _ (readFile_run _ _ _ Hef)).
  destruct (findFile w incoming) as [inf|] eqn:Hinf.
  2:{ unfold bind, readFile. rewrite Hinf. discriminate. }
  rewrite (bind_run _ _ _ _ _ _ (readFile_run _ _ _ Hinf)).
  cbv zeta. cbn [outcome].
  destruct (_ <? _)%Z; [apply Hren|].
  destruct (_ <=? _)%Z; cbn; intros E; injection E as <-; cbn;
    repeat split; discriminate.
Qed.

(** X22.  A decision that [resolveFileConflict] returns is never ERROR,
    so that the ERROR branch of [mergeFolder] is never taken; it names
    the two files it was asked about, and it is keep-existing or
    keep-incoming only when both digests are present and equal. *)
Theorem resolveFileConflict_never_error :
  forall existing incoming config w c,
    outcome (resolveFileConflict existing incoming config w) = Ok c ->
    resolution c <> ERROR /\
    existingFile c = existing /\ incomingFile c = incoming /\
    (resolution c <> RENAME_INCOMING ->
     existingMd5 c = incomingMd5 c /\ existingMd5 c <> None).
Proof. exact resolveFileConflict_decided. Qed.

(** * Where the dedup pass trashes files *)

Lemma in_events_bind {A B} (m : M A) (f : A -> M B) w e :
  In e (events (bind m f w)) ->
  In e (events (m w)) \/
  exists a, outcome (m w) = Ok a /\ In e (events (f a (world (m w)))).
Proof.
  unfold bind. destruct (outcome (m w)) as [a| |] eqn:E; cbn; intros H.
  - apply in_app_or in H. destruct H; [now left | right; now exists a].
  - now left.
  - now left.
Qed.

Lemma in_events_tryCatch {A} (m : M A) (h : string -> M A) w e :
  In e (events (tryCatch m h w)) ->
  In e (events (m w)) \/
  exists msg, outcome (m w) = Thrown msg /\ In e (events (h msg (world (m w)))).
Proof.
  unfold tryCatch. destruct (outcome (m w)) as [a|msg|] eqn:E; cbn; intros H.
  - now left.
  - apply in_app_or in H. destruct H; [now left | right; now exists msg].
  - now left.
Qed.

Lemma listFiles_flagStep l l' folder :
  Forall2 flagStep l l' ->
  map f_id (filter (fun f => String.eqb (f_parent f) folder) l') =
  map f_id (filter (fun f => String.eqb (f_parent f) folder) l).
Proof.
  induction 1 as [|f f' l l' [[Hid [_ [_ [_ [_ Hp]]]]] _] _ IH]; [reflexivity|].
  cbn. rewrite Hp. destruct (String.eqb (f_parent f) folder); cbn; now rewrite IH, ?Hid.
Qed.

Lemma listFiles_flagsKept w w' folder :
  flagsKept w w' -> listFiles w' folder = listFiles w folder.
Proof. intros [H _]. now apply listFiles_flagStep. Qed.

Lemma listFolders_ext w w' folder :
  w_folders w' = w_folders w -> listFolders w' folder = listFolders w folder.
Proof. unfold listFolders. now intros ->. Qed.

Lemma ancestorOrSelf_ext w w' x id :
  w_folders w' = w_folders w -> ancestorOrSelf w' x id -> ancestorOrSelf w x id.
Proof.
  intros E H. induction H as [|x id d p Hd Hp _ IH]; [constructor|].
  apply (anc_up w x id d p); try assumption.
  now rewrite (findFolder_ext w w' id (eq_sym E)).
Qed.

Lemma underExcluded_ext config w w' folder :
  w_folders w' = w_folders w ->
  ~ underExcluded config w' folder -> ~ underExcluded config w folder.
Proof.
  intros E H [x [Hx Ha]]. apply H. exists x. split; [assumption|].
  now apply (ancestorOrSelf_ext w' w x folder (eq_sym E)).
Qed.

Section DedupScope.
Variables (fuel : nat) (config : RuntimeConfig).

Let kept {A} (m : M A) := keeps (fun _ => True) flagsKept m.

Lemma kept_processFolder (c : RuntimeConfig) folder :
  True -> kept (processFolder folder c).
Proof.
  intros _ w. split; [|apply processFolder_flagsKept].
  apply Forall_forall. intros; exact I.
Qed.

Lemma kept_guarded folder name :
  kept (tryCatch (fs <- processFolder folder config ;; ret (Some fs))
          (fun _ => emit (EvLog (LogFolderError name)) ;;; ret None)).
Proof.
  apply keeps_tryCatch; [exact flagsKept_trans | |].
  - apply keeps_bind; [exact flagsKept_trans | now apply kept_processFolder |].
    intros fs. apply keeps_ret. exact flagsKept_refl.
  - intros msg. apply keeps_bind; [exact flagsKept_trans | |].
    + apply keeps_emit; [exact flagsKept_refl | exact I].
    + intros _. apply keeps_ret. exact flagsKept_refl.
Qed.

Lemma kept_processRootFolder rootFolder globalStartTime :
  kept (processRootFolder fuel rootFolder config globalStartTime).
Proof.
  apply (frame_processRootFolder (fun _ => True) flagsKept (fun _ => True)
           flagsKept_refl flagsKept_trans flagsKept_same (fun _ => I)
           (fun c folder H => kept_processFolder c folder H)
           fuel rootFolder config globalStartTime I).
Qed.

Lemma processFoldersLoop_scope globalStartTime id : forall folders stats w,
  In (EvSetTrashedFile id)
     (events (processFoldersLoop config globalStartTime folders stats w)) ->
  DRY_RUN (base config) = false /\
  exists fi, In fi folders /\ In id (listFiles w (fo_folder fi)).
Proof.
  induction folders as [|fi folders IH]; intros stats w H; [destruct H|].
  cbn [processFoldersLoop] in H.
  apply in_events_bind in H. rewrite dateNow_run in H. cbn [events outcome world] in H.
  destruct H as [[]|[now [_ H]]].
  destruct (_ <? _)%Z; [destruct H|].
  apply in_events_bind in H. destruct H as [H|[r [_ H]]].
  - apply in_events_tryCatch in H. destruct H as [H|[msg [_ H]]].
    + apply in_events_bind in H. destruct H as [H|[fs [_ [] ]]].
      apply processFolder_events in H. destruct H as [Hlive Hin].
      split; [assumption|]. exists fi. split; [now left|].
      now rewrite (listFiles_ext w (tick w) _ (eq_sym (tick_files w))).
    + cbn in H. destruct H as [H|[]]. discriminate.
  - apply IH in H. destruct H as [Hlive [fi' [Hfi Hin]]].
    split; [assumption|]. exists fi'. split; [now right|].
    destruct (kept_guarded (fo_folder fi) (fo_name fi) (tick w)) as [_ Hk].
    rewrite (listFiles_flagsKept _ _ _ Hk) in Hin.
    now rewrite (listFiles_ext w (tick w) _ (eq_sym (tick_files w))).
Qed.

Lemma processRootFolder_scope rootFolder globalStartTime w id :
  wellRooted w fuel ->
  In (EvSetTrashedFile id)
     (events (processRootFolder fuel rootFolder config globalStartTime w)) ->
  DRY_RUN (base config) = false /\
  exists folder,
    In folder (listFolders w rootFolder) /\
    ~ underExcluded config w folder /\
    In id (listFiles w folder).
Proof.
  intros Hw H. unfold processRootFolder in H.
  destruct (findFolder w rootFolder) as [d|] eqn:Hd.
  2:{ unfold bind, readFolder in H. rewrite Hd in H. destruct H. }
  rewrite (bind_run _ _ _ _ _ _ (readFolder_run _ _ _ Hd)) in H.
  rewrite (bind_run _ _ _ _ _ _ (emit_run _ _)) in H.
  rewrite (bind_run _ _ _ _ _ _ (getFolders_run _ _)) in H.
  destruct (loadSubfolders_run fuel config w Hw (listFolders w rootFolder) []
              (listFolders_found w rootFolder)) as [loaded [Hl [_ [_ Hmem]]]].
  rewrite (bind_run _ _ _ _ _ _ Hl) in H. cbn [events app] in H.
  destruct H as [H|H]; [discriminate|].
  assert (exists folders w',
            match FOLDER_SORT_MODE (base config) with
            | RANDOM => shuffleLoop (List.length loaded - 1) loaded
            | LAST_UPDATED => ret (sortByRecency loaded)
            end w = mkRes (Ok folders) w' [] /\
            Permutation loaded folders /\ sameStore w w')
    as [folders [w' [Hs [Hperm Hsame]]]].
  { destruct (FOLDER_SORT_MODE (base config)).
    - exists (sortByRecency loaded), w. split; [reflexivity|].
      split; [symmetry; apply sortByRecency_perm | apply sameStore_refl].
    - apply shuffleLoop_run. }
  rewrite (bind_run _ _ _ _ _ _ Hs) in H. cbn [events app] in H.
  apply processFoldersLoop_scope in H. destruct H as [Hlive [fi [Hfi Hin]]].
  split; [assumption|]. exists (fo_folder fi).
  apply (Permutation_in _ (Permutation_sym Hperm)) in Hfi.
  destruct (Hmem fi Hfi) as [H1 H2]. split; [assumption|]. split; [assumption|].
  destruct Hsame as [Hf _].
  now rewrite (listFiles_ext w w' _ (eq_sym Hf)).
Qed.

Variable w0 : World.
Hypothesis rooted : wellRooted w0 fuel.

Lemma processRoots_scope startTime id : forall roots totalStats w,
  flagsKept w0 w ->
  In (EvSetTrashedFile id)
     (events (processRoots fuel roots config startTime totalStats w)) ->
  DRY_RUN (base config) = false /\
  exists root folder,
    In root roots /\ In folder (listFolders w0 root) /\
    ~ underExcluded config w0 folder /\ In id (listFiles w0 folder).
Proof.
  induction roots as [|r roots IH]; intros totalStats w Hk H; [destruct H|].
  cbn [processRoots] in H.
  apply in_events_bind in H. rewrite dateNow_run in H. cbn [events outcome world] in H.
  destruct H as [[]|[now [_ H]]].
  assert (flagsKept w0 (tick w)) as Hk'.
  { destruct Hk as [Hf Hd]. split; [now rewrite tick_files | now rewrite tick_folders]. }
  destruct (_ <? _)%Z.
  { cbn in H. destruct H as [H|[]]. discriminate. }
  apply in_events_bind in H. destruct H as [H|[res [_ H]]].
  - apply in_events_tryCatch in H. destruct H as [H|[msg [_ H]]].
    2:{ cbn in H. destruct H as [H|[]]. discriminate. }
    apply in_events_bind in H. destruct H as [H|[d [Hd H]]].
    { unfold readFolder in H. destruct (findFolder (tick w) r); destruct H. }
    assert (world (readFolder r (tick w)) = tick w) as Ew
      by (unfold readFolder; now destruct (findFolder (tick w) r)).
    rewrite Ew in H.
    apply in_events_bind in H. destruct H as [H|[stats [_ []]]].
    apply processRootFolder_scope in H.
    + destruct H as [Hlive [folder [H1 [H2 H3]]]]. destruct Hk' as [Hf' Hd'].
      split; [assumption|]. exists r, folder. split; [now left|].
      split; [now rewrite <- (listFolders_ext w0 (tick w) r Hd')|].
      split; [now apply (underExcluded_ext config w0 (tick w) folder Hd')|].
      now rewrite <- (listFiles_flagsKept w0 (tick w) folder (conj Hf' Hd')).
    + apply (wellRooted_ext w0 (tick w) fuel); [apply Hk' | exact rooted].
  - apply IH in H.
    + destruct H as [Hlive [root [folder [H1 H2]]]].
      split; [assumption|]. exists root, folder. split; [now right | assumption].
    + apply (flagsKept_trans _ _ _ Hk').
      assert (kept (tryCatch
                      (_ <- readFolder r ;;
                       stats <- processRootFolder fuel r config startTime ;;
                       ret (Some stats))
                      (fun _ => emit (EvLog (LogRootError r)) ;;; ret None))) as Hg.
      { apply keeps_tryCatch; [exact flagsKept_trans | |].
        - apply keeps_bind; [exact flagsKept_trans | |].
          + apply keeps_readFolder. exact flagsKept_refl.
          + intros _. apply keeps_bind; [exact flagsKept_trans | |].
            * apply kept_processRootFolder.
            * intros stats. apply keeps_ret. exact flagsKept_refl.
        - intros msg. apply keeps_bind; [exact flagsKept_trans | |].
          + apply keeps_emit; [exact flagsKept_refl | exact I].
          + intros _. apply keeps_ret. exact flagsKept_refl. }
      apply Hg.
Qed.
End DedupScope.

Lemma cleanDuplicateAttachments_scope fuel properties w id :
  wellRooted w fuel ->
  In (EvSetTrashedFile id) (events (cleanDuplicateAttachments fuel properties w)) ->
  DRY_RUN properties = false /\
  exists root folder,
    In root (ROOT_FOLDER_IDS properties) /\
    In folder (listFolders w root) /\
    ~ underExcluded (runtimeOf properties) w folder /\
    In id (listFiles w folder).
Proof.
  intros Hw H. unfold cleanDuplicateAttachments in H.
  apply in_events_bind in H. rewrite dateNow_run in H. cbn [events outcome world] in H.
  destruct H as [[]|[startTime [_ H]]].
  apply in_events_tryCatch in H. destruct H as [H|[msg [_ H]]].
  2:{ cbn in H. destruct H as [H|[]]. discriminate. }
  apply in_events_bind in H. rewrite getConfig_run in H.
  destruct (ROOT_FOLDER_IDS properties) as [|r0 roots] eqn:Hroots;
    cbn [events outcome world] in H.
  { destruct H as [[]|[c [E _]]]. discriminate. }
  destruct H as [[]|[c [E H]]]. injection E as <-.
  apply in_events_bind in H. destruct H as [H|[totalStats [_ H]]].
  - cbn [base runtimeOf] in H.
    apply (processRoots_scope fuel (runtimeOf properties) w Hw) in H.
    + rewrite Hroots in H. exact H.
    + split; [now rewrite tick_files; apply Forall2_same, flagStep_refl
             | apply tick_folders].
  - apply in_events_bind in H. rewrite dateNow_run in H.
    cbn [events outcome world] in H.
    destruct H as [[]|[t [_ H]]]. cbn in H. destruct H as [H|[]]. discriminate.
Qed.

(** X23.  When every folder of the store reaches a parentless folder
    within the fuel, the whole run trashes a file only with dry-run off,
    and only a file that sits directly in a subfolder of one of the
    configured roots, a subfolder that is not excluded: no file of a root
    itself, of a deeper level or of an excluded folder is trashed. *)
Theorem trashed_files_sit_in_scanned_subfolders :
  forall fuel properties w id,
    wellRooted w fuel ->
    In (EvSetTrashedFile id) (events (cleanDuplicateAttachments fuel properties w)) ->
    DRY_RUN properties = false /\
    exists root folder,
      In root (ROOT_FOLDER_IDS properties) /\
      In folder (listFolders w root) /\
      ~ underExcluded (runtimeOf properties) w folder /\
      In id (listFiles w folder).
Proof. exact cleanDuplicateAttachments_scope. Qed.

(** * Which folders the merge pass trashes *)

Section MergeEvents.
Variable config : RuntimeConfig.

Let spares {A} (m : M A) := keeps sparesFolders anyWorld m.

Ltac spares_step :=
  first
    [ apply keeps_ret | apply keeps_getFiles | apply keeps_getFolders
    | apply keeps_getFilesByName | apply keeps_readFile | apply keeps_readFolder
    | apply keeps_dateNow | apply keeps_isFolderEmpty
    | apply keeps_generateUniqueName | apply keeps_resolveFileConflict
    | apply keeps_selectTargetFolder | apply keeps_buildFolderTree
    | apply keeps_emit ];
  try (intros; exact I).

Ltac spares_bind := apply keeps_bind; [intros; exact I | |].

Lemma spares_call (w' : World -> World) e :
  sparesFolders e -> spares (fun w => mkRes (Ok tt) (w' w) [e]).
Proof. intros He w. split; [repeat constructor; assumption | exact I]. Qed.

Lemma spares_when b (m : M unit) : spares m -> spares (when b m).
Proof. intros H. destruct b; [assumption|]. spares_step. Qed.

Lemma spares_mergeFile sourceFile target stats :
  spares (mergeFile sourceFile target config stats).
Proof.
  unfold spares, mergeFile. cbv zeta.
  spares_bind; [spares_step|]. intros f.
  destruct (f_trashed f); [spares_step|].
  spares_bind; [spares_step|]. intros existingFiles.
  destruct existingFiles as [|existing others].
  - spares_bind; [apply spares_when, spares_call; exact I | intros; spares_step].
  - spares_bind; [spares_step|]. intros conflict.
    destruct (resolution conflict).
    + spares_bind; [apply spares_when, spares_call; exact I | intros; spares_step].
    + spares_bind; [|intros; spares_step]. apply spares_when.
      spares_bind; [apply spares_call; exact I | intros; apply spares_call; exact I].
    + spares_bind; [spares_step|]. intros newName.
      spares_bind; [|intros; spares_step]. apply spares_when.
      spares_bind; [apply spares_call; exact I | intros; apply spares_call; exact I].
    + spares_step.
Qed.

Lemma spares_mergeFolder sourceNode targetNode :
  spares (mergeFolder sourceNode targetNode config).
Proof.
  unfold mergeFolder. spares_bind; [spares_step|]. intros sourceFiles.
  generalize (mkMergeResult 0 0 0).
  induction sourceFiles as [|s l IH]; intros stats; cbn [mergeFiles]; [spares_step|].
  spares_bind; [apply spares_mergeFile | intros; apply IH].
Qed.

Lemma mergeSources_scope target d : forall sources stats w,
  In (EvSetTrashedFolder d) (events (mergeSources sources target config stats w)) ->
  DRY_RUN (base config) = false /\ exists n, In n sources /\ n_id n = d.
Proof.
  induction sources as [|s sources IH]; intros stats w H; [destruct H|].
  cbn [mergeSources] in H.
  apply in_events_bind in H. destruct H as [H|[mergeResult [_ H]]].
  { destruct (spares_mergeFolder s target w) as [Hs _].
    apply (proj1 (Forall_forall _ _) Hs) in H. destruct H. }
  apply in_events_bind in H. destruct H as [H|[empty [_ H]]].
  { destruct H. }
  apply in_events_bind in H. destruct H as [H|[u [_ H]]].
  - destruct (empty && negb (DRY_RUN (base config)))%bool eqn:E; [|destruct H].
    cbn in H. destruct H as [H|[]]. injection H as <-.
    apply andb_true_iff in E. destruct E as [_ E].
    split; [now destruct (DRY_RUN (base config))|]. exists s. split; [now left | reflexivity].
  - apply IH in H. destruct H as [Hlive [n [Hn Hid]]].
    split; [assumption|]. exists n. split; [now right | assumption].
Qed.

Lemma mergeGroups_scope fuel globalStartTime d : forall groups stats w,
  In (EvSetTrashedFolder d)
     (events (mergeGroups fuel groups config globalStartTime stats w)) ->
  DRY_RUN (base config) = false /\
  exists k g n, In (k, g) groups /\ 2 <= List.length g /\ In n g /\ n_id n = d.
Proof.
  induction groups as [|[k folders] groups IH]; intros stats w H; [destruct H|].
  cbn [mergeGroups] in H.
  assert (forall stats' w',
            In (EvSetTrashedFolder d)
               (events (mergeGroups fuel groups config globalStartTime stats' w')) ->
            DRY_RUN (base config) = false /\
            exists k' g n, In (k', g) ((k, folders) :: groups) /\
                           2 <= List.length g /\ In n g /\ n_id n = d) as Hrest.
  { intros stats' w' H'. apply IH in H'. destruct H' as [Hlive [k' [g [n [Hg Hn]]]]].
    split; [assumption|]. exists k', g, n. split; [now right | assumption]. }
  destruct (List.length folders <? 2)%nat eqn:El; [now apply Hrest in H|].
  apply Nat.ltb_ge in El.
  apply in_events_bind in H. rewrite dateNow_run in H. cbn [events outcome world] in H.
  destruct H as [[]|[now [_ H]]].
  destruct (_ <? _)%Z; [destruct H|].
  apply in_events_bind in H. destruct H as [H|[targetFolder [_ H]]].
  { assert (spares (selectTargetFolder fuel folders config)) as Hs by spares_step.
    destruct (Hs (tick w)) as [Hs' _].
    apply (proj1 (Forall_forall _ _) Hs') in H. destruct H. }
  cbv zeta in H. apply in_events_bind in H. destruct H as [H|[stats' [_ H]]].
  - apply mergeSources_scope in H. destruct H as [Hlive [n [Hn Hid]]].
    split; [assumption|]. exists k, folders, n. split; [now left|].
    split; [assumption|]. apply filter_In in Hn. tauto.
  - now apply Hrest in H.
Qed.

Lemma mergeDuplicateFolders_scope fuel rootFolder globalStartTime w d :
  wellRooted w fuel ->
  In (EvSetTrashedFolder d)
     (events (mergeDuplicateFolders fuel rootFolder config globalStartTime w)) ->
  DRY_RUN (base config) = false /\
  exists tree n,
    outcome (buildFolderTree fuel rootFolder config w) = Ok tree /\
    In n tree /\ n_id n = d /\ linked config w n /\
    2 <= List.length (withKey (folderKey n) tree).
Proof.
  intros Hw H. unfold mergeDuplicateFolders in H.
  apply in_events_bind in H. cbn [emit events outcome world] in H.
  destruct H as [[H|[]]|[u [_ H]]]; [discriminate|].
  apply in_events_bind in H. destruct H as [H|[tree [Ho H]]].
  { assert (spares (buildFolderTree fuel rootFolder config)) as Hs by spares_step.
    destruct (Hs w) as [Hs' _].
    apply (proj1 (Forall_forall _ _) Hs') in H. destruct H. }
  cbv zeta in H. destruct (_ =? 0)%nat; [destruct H|].
  apply mergeGroups_scope in H. destruct H as [Hlive [k [g [n [Hg [Hlen [Hn Hid]]]]]]].
  split; [assumption|]. exists tree, n.
  rewrite groupDuplicateFolders_groupBy, groupBy_in, membersOf_withKey in Hg.
  destruct Hg as [-> _].
  assert (In n tree /\ folderKey n = k) as [Hin Hk].
  { unfold withKey in Hn. apply filter_In in Hn. destruct Hn as [Hn Hk].
    apply String.eqb_eq in Hk. auto. }
  split; [assumption|]. split; [assumption|]. split; [assumption|]. split.
  - unfold buildFolderTree in Ho.
    destruct (findFolder w rootFolder) as [root|] eqn:Hroot.
    + rewrite (bind_run _ _ _ _ _ _ (readFolder_run _ _ _ Hroot)) in Ho.
      cbn [outcome] in Ho.
      apply (scanQueue_linked fuel config w Hw) in Ho; [|constructor].
      now apply (proj1 (Forall_forall _ _) Ho).
    + unfold bind, readFolder in Ho. rewrite Hroot in Ho. discriminate.
  - now rewrite Hk.
Qed.
End MergeEvents.

(** X24.  When every folder of the store reaches a parentless folder
    within the fuel, the merge pass trashes a folder only with dry-run
    off, and only a folder of the scanned tree, which lies below the
    root and is not excluded, that shares its parent and its name, as
    the runtime lower-cases it, with another folder of the tree. *)
Theorem merge_trashes_only_duplicate_folders :
  forall fuel rootFolder config globalStartTime w d,
    wellRooted w fuel ->
    In (EvSetTrashedFolder d)
       (events (mergeDuplicateFolders fuel rootFolder config globalStartTime w)) ->
    DRY_RUN (base config) = false /\
    exists tree n,
      outcome (buildFolderTree fuel rootFolder config w) = Ok tree /\
      In n tree /\ n_id n = d /\ linked config w n /\
      2 <= List.length (withKey (folderKey n) tree).
Proof.
  intros fuel rootFolder config globalStartTime w d.
  apply mergeDuplicateFolders_scope.
Qed.

(** * A tree without namesakes *)

Lemma no_duplicate_groups tree :
  (forall n, In n tree -> List.length (withKey (folderKey n) tree) <= 1) ->
  filter (fun kv : string * list FolderNode => (1 <? List.length (snd kv))%nat)
    (groupDuplicateFolders tree) = [].
Proof.
  intros H. apply filter_none. intros [k g] Hg. cbn [snd].
  rewrite groupDuplicateFolders_groupBy, groupBy_in, membersOf_withKey in Hg.
  destruct Hg as [-> Hne]. apply Nat.ltb_ge.
  destruct (withKey k tree) as [|n g] eqn:E; [now elim Hne|].
  assert (In n (withKey k tree)) as Hn by (rewrite E; now left).
  unfold withKey in Hn. apply filter_In in Hn. destruct Hn as [Hn Hk].
  apply String.eqb_eq in Hk. rewrite <- E, <- Hk. now apply H.
Qed.

(** X25.  When no two folders of the scanned tree share parent and name,
    the name taken as the runtime lower-cases it, the merge pass returns
    after the scan: it reports the number of folders scanned and zeros
    otherwise, issues no mutating store call and leaves the files and
    folders of the store as they were. *)
Theorem merge_without_duplicates :
  forall fuel rootFolder config globalStartTime w tree,
    outcome (buildFolderTree fuel rootFolder config w) = Ok tree ->
    (forall n, In n tree -> List.length (withKey (folderKey n) tree) <= 1) ->
    outcome (mergeDuplicateFolders fuel rootFolder config globalStartTime w) =
      Ok (mkMergeStats (List.length tree) 0 0 0 0 0 0) /\
    Forall nonMutating
      (events (mergeDuplicateFolders fuel rootFolder config globalStartTime w)) /\
    sameStore w (world (mergeDuplicateFolders fuel rootFolder config globalStartTime w)).
Proof.
  intros fuel rootFolder config globalStartTime w tree Ho Hone.
  assert (keeps nonMutating sameStore (buildFolderTree fuel rootFolder config)) as Hk.
  { apply keeps_buildFolderTree;
      [exact sameStore_refl | exact sameStore_trans]. }
  destruct (Hk w) as [He Hs].
  unfold mergeDuplicateFolders.
  rewrite (bind_run _ _ _ _ _ _ (emit_run _ _)).
  rewrite (bind_run _ _ _ _ _ _
             (eq_trans (res_eta (buildFolderTree fuel rootFolder config w))
                       (f_equal (fun o => mkRes o _ _) Ho))).
  cbv zeta. rewrite (no_duplicate_groups tree Hone). cbn.
  split; [reflexivity|]. split; [|assumption].
  constructor; [reflexivity|]. now rewrite app_nil_r.
Qed.

(** * The summary and the calls issued *)

Lemma trashCalls_app a b : trashCalls (a ++ b) = trashCalls a + trashCalls b.
Proof. unfold trashCalls. now rewrite filter_app, length_app. Qed.

Lemma trashCalls_quiet evs : Forall nonMutating evs -> trashCalls evs = 0.
Proof.
  unfold trashCalls. induction 1 as [|e evs He _ IH]; [reflexivity|].
  cbn. destruct e; try discriminate; exact IH.
Qed.

Lemma bind_ok {A B} (m : M A) (f : A -> M B) w a :
  outcome (m w) = Ok a ->
  bind m f w =
    mkRes (outcome (f a (world (m w)))) (world (f a (world (m w))))
      (events (m w) ++ events (f a (world (m w)))).
Proof. intros H. unfold bind. now rewrite H. Qed.

Lemma bind_fail {A B} (m : M A) (f : A -> M B) w msg :
  outcome (m w) = Thrown msg ->
  bind m f w = mkRes (Thrown msg) (world (m w)) (events (m w)).
Proof. intros H. unfold bind. now rewrite H. Qed.

Lemma bind_lost {A B} (m : M A) (f : A -> M B) w :
  outcome (m w) = Diverged ->
  bind m f w = mkRes Diverged (world (m w)) (events (m w)).
Proof. intros H. unfold bind. now rewrite H. Qed.

Section Tally.
Variables (fuel : nat) (config : RuntimeConfig).
Hypothesis live : DRY_RUN (base config) = false.

Let quietly {A} (m : M A) := keeps nonMutating sameStore m.

(** The calls of a run are as many as the statistics it returns say. *)
Let tallies (r : Res ProcessingStats) : Prop :=
  trashCalls (events r) =
    match outcome r with
    | Ok stats => p_filesDeleted stats
    | _ => 0
    end.

Lemma tallies_bind {A} (m : M A) (f : A -> M ProcessingStats) w :
  quietly m -> (forall a w', tallies (f a w')) -> tallies (bind m f w).
Proof.
  intros Hm Hf. destruct (Hm w) as [He _]. unfold tallies, bind.
  destruct (outcome (m w)) as [a| |]; cbn [events outcome];
    try now apply trashCalls_quiet.
  rewrite trashCalls_app, (trashCalls_quiet _ He). apply Hf.
Qed.

Lemma processFolder_tally folder w :
  trashCalls (events (processFolder folder config w)) =
    match outcome (processFolder folder config w) with
    | Ok fs => filesDeleted fs
    | _ => 0
    end.
Proof.
  destruct (findFolder w folder) as [d|] eqn:Hd.
  - rewrite (processFolder_run folder config w d Hd). cbn [events outcome filesDeleted].
    change (EvLog (LogProcessingFolder (d_name d)) :: ?l)
      with ([EvLog (LogProcessingFolder (d_name d))] ++ l).
    rewrite !trashCalls_app. unfold trashEvents. rewrite live.
    assert (trashCalls (md5Events config (resolve w (listFiles w folder))) = 0) as ->.
    { apply trashCalls_quiet, Forall_forall. intros e He.
      apply md5Events_in in He. destruct He as [f [_ [_ ->]]]. reflexivity. }
    cbn [trashCalls filter isTrashCall List.length Nat.add].
    generalize (victims config
                  (ga_groups (accOf config (resolve w (listFiles w folder)) emptyAcc))).
    induction l as [|v l IH]; [reflexivity|]. unfold trashCalls in *. cbn. now rewrite IH.
  - now rewrite (processFolder_missing folder config w Hd).
Qed.

Lemma guarded_tally folder name w :
  exists r w1 e1,
    tryCatch (fs <- processFolder folder config ;; ret (Some fs))
             (fun _ => emit (EvLog (LogFolderError name)) ;;; ret None) w
    = mkRes (Ok r) w1 e1 /\
    trashCalls e1 = match r with
                    | Some fs => filesDeleted fs
                    | None => 0
                    end.
Proof.
  pose proof (processFolder_tally folder w) as Ht.
  destruct (findFolder w folder) as [d|] eqn:Hd.
  - rewrite (processFolder_run folder config w d Hd) in Ht. cbn [events outcome] in Ht.
    do 3 eexists. split.
    + apply tryCatch_ok.
      rewrite (bind_run _ _ _ _ _ _ (processFolder_run folder config w d Hd)).
      reflexivity.
    + cbn [events ret]. rewrite app_nil_r. exact Ht.
  - do 3 eexists. split.
    + rewrite (tryCatch_thrown _ _ _ _ _ _
                 (bind_thrown _ _ _ _ _ _ (processFolder_missing folder config w Hd))).
      reflexivity.
    + reflexivity.
Qed.

Lemma processFoldersLoop_tally globalStartTime : forall folders stats w,
  exists stats',
    outcome (processFoldersLoop config globalStartTime folders stats w) = Ok stats' /\
    p_filesDeleted stats' =
      p_filesDeleted stats
      + trashCalls (events (processFoldersLoop config globalStartTime folders stats w)).
Proof.
  induction folders as [|fi folders IH]; intros stats w.
  - exists stats. cbn. split; [reflexivity | unfold trashCalls; cbn; lia].
  - cbn [processFoldersLoop].
    rewrite (bind_run _ _ _ _ _ _ (dateNow_run w)). cbn [outcome events app].
    destruct (_ <? _)%Z.
    + exists stats. cbn. split; [reflexivity | unfold trashCalls; cbn; lia].
    + destruct (guarded_tally (fo_folder fi) (fo_name fi) (tick w))
        as [r [w1 [e1 [Hr Ht]]]].
      rewrite (bind_run _ _ _ _ _ _ Hr). cbn [outcome events].
      destruct (IH (match r with
                    | Some fs => addFolderStats stats fs
                    | None => stats
                    end) w1) as [s [Hs Hd]].
      exists s. split; [exact Hs|]. rewrite Hd, !trashCalls_app, Ht.
      change (trashCalls []) with 0.
      destruct r; cbn [addFolderStats p_filesDeleted]; lia.
Qed.

Lemma processRootFolder_tally rootFolder globalStartTime w :
  tallies (processRootFolder fuel rootFolder config globalStartTime w).
Proof.
  unfold processRootFolder.
  apply tallies_bind;
    [apply keeps_readFolder; exact sameStore_refl|]. intros root w1.
  apply tallies_bind;
    [apply keeps_emit; [exact sameStore_refl | reflexivity]|]. intros _ w2.
  apply tallies_bind;
    [apply keeps_getFolders; exact sameStore_refl|]. intros subs w3.
  apply tallies_bind.
  { apply frame_loadSubfolders; [exact sameStore_refl | exact sameStore_trans]. }
  intros loaded w4.
  apply tallies_bind.
  { destruct (FOLDER_SORT_MODE (base config)).
    - apply keeps_ret. exact sameStore_refl.
    - apply (frame_shuffleLoop nonMutating sameStore
               sameStore_refl sameStore_trans (fun _ _ H => H)). }
  intros folders w5. unfold tallies.
  destruct (processFoldersLoop_tally globalStartTime folders
              (mkPStats 0 (List.length folders) 0 0 0 0%Z) w5) as [s [Hs Hd]].
  rewrite Hs, Hd. reflexivity.
Qed.

Lemma guardedRoot_tally r startTime w :
  match outcome (tryCatch
                   (_ <- readFolder r ;;
                    stats <- processRootFolder fuel r config startTime ;;
                    ret (Some stats))
                   (fun _ => emit (EvLog (LogRootError r)) ;;; ret None) w) with
  | Ok res =>
      trashCalls (events (tryCatch
                   (_ <- readFolder r ;;
                    stats <- processRootFolder fuel r config startTime ;;
                    ret (Some stats))
                   (fun _ => emit (EvLog (LogRootError r)) ;;; ret None) w)) =
        match res with
        | Some stats => p_filesDeleted stats
        | None => 0
        end
  | Thrown _ => False
  | Diverged => True
  end.
Proof.
  set (body := (_ <- readFolder r ;;
                stats <- processRootFolder fuel r config startTime ;;
                ret (Some stats))).
  destruct (findFolder w r) as [d|] eqn:Hd.
  - pose proof (processRootFolder_tally r startTime w) as Ht. unfold tallies in Ht.
    destruct (outcome (processRootFolder fuel r config startTime w))
      as [stats|msg|] eqn:Ho.
    + assert (body w = mkRes (Ok (Some stats))
                         (world (processRootFolder fuel r config startTime w))
                         (events (processRootFolder fuel r config startTime w)))
        as Hb.
      { unfold body. rewrite (bind_run _ _ _ _ _ _ (readFolder_run _ _ _ Hd)).
        rewrite (bind_ok _ _ _ _ Ho). cbn [ret outcome world events].
        now rewrite app_nil_l, app_nil_r. }
      rewrite (tryCatch_ok _ _ _ _ _ _ Hb). cbn [outcome events]. exact Ht.
    + assert (body w = mkRes (Thrown msg)
                         (world (processRootFolder fuel r config startTime w))
                         (events (processRootFolder fuel r config startTime w)))
        as Hb.
      { unfold body. rewrite (bind_run _ _ _ _ _ _ (readFolder_run _ _ _ Hd)).
        rewrite (bind_fail _ _ _ _ Ho). cbn [outcome world events].
        now rewrite app_nil_l. }
      rewrite (tryCatch_thrown _ _ _ _ _ _ Hb).
      cbn [outcome events ret world emit bind]. rewrite !trashCalls_app, Ht.
      reflexivity.
    + assert (outcome (body w) = Diverged) as Hb.
      { unfold body. rewrite (bind_run _ _ _ _ _ _ (readFolder_run _ _ _ Hd)).
        now rewrite (bind_lost _ _ _ Ho). }
      unfold tryCatch. rewrite Hb. rewrite Hb. exact I.
  - assert (body w = mkRes (Thrown "folder not found") w []) as Hb.
    { unfold body, bind, readFolder. now rewrite Hd. }
    rewrite (tryCatch_thrown _ _ _ _ _ _ Hb). reflexivity.
Qed.

Lemma processRoots_tally startTime : forall roots totalStats w,
  match outcome (processRoots fuel roots config startTime totalStats w) with
  | Ok total =>
      p_filesDeleted total =
        p_filesDeleted totalStats
        + trashCalls (events (processRoots fuel roots config startTime totalStats w))
  | _ => True
  end.
Proof.
  induction roots as [|r roots IH]; intros totalStats w.
  - cbn. unfold trashCalls. cbn. lia.
  - cbn [processRoots].
    rewrite (bind_run _ _ _ _ _ _ (dateNow_run w)). cbn [outcome events app].
    destruct (_ <? _)%Z.
    + cbn. unfold trashCalls. cbn. lia.
    + pose proof (guardedRoot_tally r startTime (tick w)) as Hg.
      destruct (outcome (tryCatch _ _ (tick w))) as [res| |] eqn:Ho.
      * rewrite (bind_ok _ _ _ _ Ho). cbn [outcome events].
        specialize (IH (match res with
                        | Some stats => addRootStats totalStats stats
                        | None => totalStats
                        end)
                       (world (tryCatch
                          (_ <- readFolder r ;;
                           stats <- processRootFolder fuel r config startTime ;;
                           ret (Some stats))
                          (fun _ => emit (EvLog (LogRootError r)) ;;; ret None)
                          (tick w)))).
        destruct (outcome (processRoots fuel roots config startTime _ _));
          [|exact I|exact I].
        rewrite IH, !trashCalls_app, Hg. change (trashCalls []) with 0.
        destruct res; cbn [addRootStats p_filesDeleted]; lia.
      * destruct Hg.
      * rewrite (bind_lost _ _ _ Ho). exact I.
Qed.
End Tally.

Lemma summary_tally fuel properties w :
  wellRooted w fuel ->
  ROOT_FOLDER_IDS properties <> [] ->
  exists total evs,
    events (cleanDuplicateAttachments fuel properties w) =
      evs ++ [EvLog (LogSummary total)] /\
    trashCalls evs = (if DRY_RUN properties then 0 else p_filesDeleted total).
Proof.
  intros Hw Hroots. unfold cleanDuplicateAttachments.
  rewrite (bind_run _ _ _ _ _ _ (dateNow_run w)). cbn [events app].
  assert (getConfig properties (tick w) = mkRes (Ok (runtimeOf properties)) (tick w) [])
    as Hc by (rewrite getConfig_run; now destruct (ROOT_FOLDER_IDS properties)).
  assert (wellRooted (tick w) fuel) as Hw'
    by (apply (wellRooted_ext w); [apply tick_folders | assumption]).
  destruct (returns_processRoots fuel (runtimeOf properties) (reading w)
              (ROOT_FOLDER_IDS properties) (mkPStats 0 0 0 0 0 0%Z) (tick w) Hw')
    as [[total Ho] _].
  exists total,
    (events (processRoots fuel (ROOT_FOLDER_IDS properties) (runtimeOf properties)
               (reading w) (mkPStats 0 0 0 0 0 0%Z) (tick w))).
  split.
  - assert ((config <- getConfig properties ;;
             totalStats <- processRoots fuel (ROOT_FOLDER_IDS (base config)) config
                             (reading w) (mkPStats 0 0 0 0 0 0%Z) ;;
             _ <- dateNow ;;
             emit (EvLog (LogSummary totalStats))) (tick w) =
            mkRes (Ok tt)
              (tick (world (processRoots fuel (ROOT_FOLDER_IDS properties)
                              (runtimeOf properties) (reading w)
                              (mkPStats 0 0 0 0 0 0%Z) (tick w))))
              (events (processRoots fuel (ROOT_FOLDER_IDS properties)
                         (runtimeOf properties) (reading w)
                         (mkPStats 0 0 0 0 0 0%Z) (tick w))
                 ++ [EvLog (LogSummary total)])) as Hb.
    { rewrite (bind_run _ _ _ _ _ _ Hc). cbn [base runtimeOf].
      rewrite (bind_ok _ _ _ _ Ho).
      rewrite (bind_run _ _ _ _ _ _ (dateNow_run _)). reflexivity. }
    rewrite (tryCatch_ok _ _ _ _ _ _ Hb). reflexivity.
  - destruct (DRY_RUN properties) eqn:Hdry.
    + apply trashCalls_quiet.
      apply (frame_processRoots nonMutating sameStore
               (fun c => DRY_RUN (base c) = true)
               sameStore_refl sameStore_trans (fun _ _ H => H) (fun _ => eq_refl)
               (fun c folder Hc' => quiet_processFolder c Hc' folder)
               fuel (runtimeOf properties) (reading w) (ROOT_FOLDER_IDS properties)
               Hdry (mkPStats 0 0 0 0 0 0%Z) (tick w)).
    + pose proof (processRoots_tally fuel (runtimeOf properties) Hdry (reading w)
                    (ROOT_FOLDER_IDS properties) (mkPStats 0 0 0 0 0 0%Z) (tick w))
        as Ht.
      rewrite Ho in Ht. cbn in Ht. now rewrite Ht.
Qed.

(** X26.  When every folder of the store reaches a parentless folder
    within the fuel and a root is configured, the run ends with the
    summary, and the number of deleted files that the summary reports is
    the number of [setTrashed] calls that the run has issued on files;
    in dry-run mode no such call has been issued. *)
Theorem summary_counts_the_calls :
  forall fuel properties w,
    wellRooted w fuel ->
    ROOT_FOLDER_IDS properties <> [] ->
    exists total evs,
      events (cleanDuplicateAttachments fuel properties w) =
        evs ++ [EvLog (LogSummary total)] /\
      trashCalls evs = (if DRY_RUN properties then 0 else p_filesDeleted total).
Proof. exact summary_tally. Qed.

(** * The report of the merge pass *)

Lemma bind_Ok_inv {A B} (m : M A) (f : A -> M B) w b :
  outcome (bind m f w) = Ok b ->
  exists a, outcome (m w) = Ok a /\ outcome (f a (world (m w))) = Ok b.
Proof.
  unfold bind. destruct (outcome (m w)) as [a| |]; cbn; intros H;
    [now exists a | discriminate | discriminate].
Qed.

Lemma duplicate_groups_bound {A} (groups : list (string * list A)) :
  2 * List.length
        (filter (fun kv : string * list A => (1 <? List.length (snd kv))%nat) groups)
  <= List.length (allMembers groups).
Proof.
  unfold allMembers. induction groups as [|[k g] groups IH]; [cbn; lia|].
  cbn [filter flat_map snd]. rewrite length_app.
  destruct (1 <? List.length g)%nat eqn:E; [apply Nat.ltb_lt in E|];
    cbn [List.length]; lia.
Qed.

Section MergeReport.
Variable config : RuntimeConfig.

(** The statistics [s'] continue [s]: [k] more folders merged, of which
    [e] were removed, and the figures of the scan untouched. *)
Let continues (s s' : MergeStats) (bound : nat) : Prop :=
  exists k e,
    foldersMerged s' = foldersMerged s + k /\
    emptyFoldersDeleted s' = emptyFoldersDeleted s + e /\
    e <= k /\ k <= bound /\
    foldersScanned s' = foldersScanned s /\
    duplicateGroupsFound s' = duplicateGroupsFound s.

Lemma mergeSources_report target : forall sources stats w stats',
  outcome (mergeSources sources target config stats w) = Ok stats' ->
  continues stats stats' (List.length sources).
Proof.
  induction sources as [|s sources IH]; intros stats w stats' H.
  - cbn in H. injection H as <-. exists 0, 0. cbn. repeat split; lia.
  - cbn [mergeSources] in H.
    apply bind_Ok_inv in H. destruct H as [mergeResult [_ H]].
    apply bind_Ok_inv in H. destruct H as [empty [_ H]].
    apply bind_Ok_inv in H. destruct H as [u [_ H]].
    apply IH in H. destruct H as [k [e [Hm [Hd [Hle [Hk [Hs Hg]]]]]]].
    cbn [foldersMerged emptyFoldersDeleted foldersScanned duplicateGroupsFound]
      in Hm, Hd, Hs, Hg.
    exists (S k), (if empty then S e else e). cbn [List.length].
    destruct empty; repeat split; lia.
Qed.

Lemma mergeGroups_report fuel globalStartTime : forall groups stats w stats',
  outcome (mergeGroups fuel groups config globalStartTime stats w) = Ok stats' ->
  continues stats stats' (List.length (allMembers groups)).
Proof.
  induction groups as [|[key folders] groups IH]; intros stats w stats' H.
  - cbn in H. injection H as <-. exists 0, 0. cbn. repeat split; lia.
  - cbn [mergeGroups] in H. unfold allMembers. cbn [flat_map snd].
    rewrite length_app. fold (allMembers groups).
    assert (forall s, continues s stats' (List.length (allMembers groups)) ->
                      continues s stats'
                        (List.length folders + List.length (allMembers groups)))
      as Hweak.
    { intros s [k [e H']]. exists k, e. repeat split; try apply H'.
      destruct H' as [_ [_ [_ [Hk _]]]]. lia. }
    destruct (List.length folders <? 2)%nat; [apply Hweak; now apply IH in H|].
    apply bind_Ok_inv in H. destruct H as [now [_ H]].
    destruct (_ <? _)%Z.
    { cbn in H. injection H as <-. exists 0, 0. repeat split; lia. }
    apply bind_Ok_inv in H. destruct H as [targetFolder [_ H]].
    cbv zeta in H. apply bind_Ok_inv in H. destruct H as [stats1 [H1 H]].
    apply mergeSources_report in H1. apply IH in H.
    destruct H1 as [k1 [e1 [Hm1 [Hd1 [Hle1 [Hk1 [Hs1 Hg1]]]]]]].
    destruct H as [k2 [e2 [Hm2 [Hd2 [Hle2 [Hk2 [Hs2 Hg2]]]]]]].
    pose proof (filter_length_le
                  (fun f => negb (String.eqb (n_id f) (n_id targetFolder))) folders)
      as Hf.
    exists (k1 + k2), (e1 + e2). repeat split; lia.
Qed.

Lemma mergeDuplicateFolders_report fuel rootFolder globalStartTime w stats :
  outcome (mergeDuplicateFolders fuel rootFolder config globalStartTime w) = Ok stats ->
  exists tree,
    outcome (buildFolderTree fuel rootFolder config w) = Ok tree /\
    foldersScanned stats = List.length tree /\
    2 * duplicateGroupsFound stats <= foldersScanned stats /\
    emptyFoldersDeleted stats <= foldersMerged stats /\
    foldersMerged stats <= foldersScanned stats.
Proof.
  intros H. unfold mergeDuplicateFolders in H.
  apply bind_Ok_inv in H. destruct H as [u [_ H]]. cbn [emit world] in H.
  apply bind_Ok_inv in H. destruct H as [tree [Ho H]].
  exists tree. split; [assumption|]. cbv zeta in H.
  pose proof (duplicate_groups_bound (groupDuplicateFolders tree)) as Hb.
  assert (List.length (allMembers (groupDuplicateFolders tree)) = List.length tree)
    as Hall.
  { rewrite groupDuplicateFolders_groupBy, allMembers_groupBy, length_map.
    reflexivity. }
  rewrite Hall in Hb.
  destruct (_ =? 0)%nat.
  - unfold ret in H. cbn [outcome] in H. injection H as <-.
    cbn [foldersMerged emptyFoldersDeleted foldersScanned duplicateGroupsFound].
    repeat split; lia.
  - apply mergeGroups_report in H.
    destruct H as [k [e [Hm [Hd [Hle [Hk [Hs Hg]]]]]]].
    cbn [foldersMerged emptyFoldersDeleted foldersScanned duplicateGroupsFound]
      in Hm, Hd, Hs, Hg.
    rewrite Hall in Hk. rewrite Hs, Hg, Hm, Hd. repeat split; lia.
Qed.
End MergeReport.

(** X27.  The statistics that [mergeDuplicateFolders] returns are
    consistent: the folders scanned are those of the tree, every
    duplicate group found accounts for two of them or more, no more
    folders are merged than were scanned, and no more folders are
    reported as emptied and deleted than were merged. *)
Theorem merge_report_consistent :
  forall fuel rootFolder config globalStartTime w stats,
    outcome (mergeDuplicateFolders fuel rootFolder config globalStartTime w) = Ok stats ->
    exists tree,
      outcome (buildFolderTree fuel rootFolder config w) = Ok tree /\
      foldersScanned stats = List.length tree /\
      2 * duplicateGroupsFound stats <= foldersScanned stats /\
      emptyFoldersDeleted stats <= foldersMerged stats /\
      foldersMerged stats <= foldersScanned stats.
Proof.
  intros fuel rootFolder config. apply mergeDuplicateFolders_report.
Qed.

(** * The figures of the summary *)

Lemma tryCatch_Ok_inv {A} (m : M A) (h : string -> M A) w a :
  outcome (tryCatch m h w) = Ok a ->
  outcome (m w) = Ok a \/
  exists msg, outcome (m w) = Thrown msg /\ outcome (h msg (world (m w))) = Ok a.
Proof.
  unfold tryCatch. destruct (outcome (m w)) as [x|msg|] eqn:E; cbn; intros H.
  - left. congruence.
  - right. now exists msg.
  - rewrite E in H. discriminate.
Qed.

Section Plausible.
Variables (fuel : nat) (config : RuntimeConfig).

Lemma processFolder_plausible folder w fs :
  outcome (processFolder folder config w) = Ok fs ->
  filesDeleted fs <= filesAnalyzed fs.
Proof.
  intros H. destruct (findFolder w folder) as [d|] eqn:Hd.
  - destruct (processFolder_counts_run folder config w) as [stats [Ho [_ [Hle _]]]];
      [congruence|].
    rewrite Ho in H. now injection H as <-.
  - rewrite (processFolder_missing folder config w Hd) in H. discriminate.
Qed.

Lemma processFoldersLoop_plausible globalStartTime : forall folders stats w stats',
  outcome (processFoldersLoop config globalStartTime folders stats w) = Ok stats' ->
  totalFolders stats' = totalFolders stats /\
  foldersProcessed stats' <= foldersProcessed stats + List.length folders /\
  (p_filesDeleted stats <= p_filesAnalyzed stats ->
   p_filesDeleted stats' <= p_filesAnalyzed stats').
Proof.
  induction folders as [|fi folders IH]; intros stats w stats' H.
  - cbn in H. injection H as <-. repeat split; auto; lia.
  - cbn [processFoldersLoop] in H.
    apply bind_Ok_inv in H. destruct H as [now [_ H]].
    destruct (_ <? _)%Z.
    { cbn in H. injection H as <-. repeat split; auto; lia. }
    apply bind_Ok_inv in H. destruct H as [r [Hr H]].
    apply IH in H. destruct H as [Ht [Hp Hd]].
    apply tryCatch_Ok_inv in Hr. destruct Hr as [Hr|[msg [_ Hr]]].
    + apply bind_Ok_inv in Hr. destruct Hr as [fs [Hfs Hr]].
      cbn in Hr. injection Hr as <-.
      apply processFolder_plausible in Hfs.
      cbn [addFolderStats totalFolders foldersProcessed p_filesDeleted p_filesAnalyzed]
        in Ht, Hp, Hd.
      cbn [List.length]. repeat split; lia.
    + cbn in Hr. injection Hr as <-. cbn [List.length]. repeat split; auto; lia.
Qed.

Lemma processRootFolder_plausible rootFolder globalStartTime w stats :
  outcome (processRootFolder fuel rootFolder config globalStartTime w) = Ok stats ->
  plausible stats.
Proof.
  intros H. unfold processRootFolder in H.
  apply bind_Ok_inv in H. destruct H as [root [_ H]].
  apply bind_Ok_inv in H. destruct H as [u [_ H]].
  apply bind_Ok_inv in H. destruct H as [subs [_ H]].
  apply bind_Ok_inv in H. destruct H as [loaded [_ H]].
  apply bind_Ok_inv in H. destruct H as [folders [_ H]].
  apply processFoldersLoop_plausible in H.
  cbn [totalFolders foldersProcessed p_filesDeleted p_filesAnalyzed] in H.
  destruct H as [Ht [Hp Hd]]. split; [lia | apply Hd; lia].
Qed.

Lemma processRoots_plausible startTime : forall roots totalStats w total,
  outcome (processRoots fuel roots config startTime totalStats w) = Ok total ->
  plausible totalStats -> plausible total.
Proof.
  induction roots as [|r roots IH]; intros totalStats w total H Hp.
  - cbn in H. now injection H as <-.
  - cbn [processRoots] in H.
    apply bind_Ok_inv in H. destruct H as [now [_ H]].
    destruct (_ <? _)%Z.
    { cbn in H. now injection H as <-. }
    apply bind_Ok_inv in H. destruct H as [res [Hr H]].
    apply IH in H; [assumption|].
    apply tryCatch_Ok_inv in Hr. destruct Hr as [Hr|[msg [_ Hr]]].
    + apply bind_Ok_inv in Hr. destruct Hr as [d [_ Hr]].
      apply bind_Ok_inv in Hr. destruct Hr as [stats [Hs Hr]].
      cbn in Hr. injection Hr as <-.
      apply processRootFolder_plausible in Hs.
      destruct Hp as [H1 H2], Hs as [H3 H4]. split; cbn; lia.
    + cbn in Hr. injection Hr as <-. assumption.
Qed.
End Plausible.

Lemma summary_plausible fuel properties w :
  wellRooted w fuel ->
  ROOT_FOLDER_IDS properties <> [] ->
  exists total evs,
    events (cleanDuplicateAttachments fuel properties w) =
      evs ++ [EvLog (LogSummary total)] /\
    plausible total.
Proof.
  intros Hw Hroots. unfold cleanDuplicateAttachments.
  rewrite (bind_run _ _ _ _ _ _ (dateNow_run w)). cbn [events].
  assert (getConfig properties (tick w) = mkRes (Ok (runtimeOf properties)) (tick w) [])
    as Hc by (rewrite getConfig_run; now destruct (ROOT_FOLDER_IDS properties)).
  assert (wellRooted (tick w) fuel) as Hw'
    by (apply (wellRooted_ext w); [apply tick_folders | assumption]).
  destruct (returns_processRoots fuel (runtimeOf properties) (reading w)
              (ROOT_FOLDER_IDS properties) (mkPStats 0 0 0 0 0 0%Z) (tick w) Hw')
    as [[total Ho] _].
  exists total,
    (events (processRoots fuel (ROOT_FOLDER_IDS properties) (runtimeOf properties)
               (reading w) (mkPStats 0 0 0 0 0 0%Z) (tick w))).
  split.
  - assert ((config <- getConfig properties ;;
             totalStats <- processRoots fuel (ROOT_FOLDER_IDS (base config)) config
                             (reading w) (mkPStats 0 0 0 0 0 0%Z) ;;
             _ <- dateNow ;;
             emit (EvLog (LogSummary totalStats))) (tick w) =
            mkRes (Ok tt)
              (tick (world (processRoots fuel (ROOT_FOLDER_IDS properties)
                              (runtimeOf properties) (reading w)
                              (mkPStats 0 0 0 0 0 0%Z) (tick w))))
              (events (processRoots fuel (ROOT_FOLDER_IDS properties)
                         (runtimeOf properties) (reading w)
                         (mkPStats 0 0 0 0 0 0%Z) (tick w))
                 ++ [EvLog (LogSummary total)])) as Hb.
    { rewrite (bind_run _ _ _ _ _ _ Hc). cbn [base runtimeOf].
      rewrite (bind_ok _ _ _ _ Ho).
      rewrite (bind_run _ _ _ _ _ _ (dateNow_run _)). reflexivity. }
    rewrite (tryCatch_ok _ _ _ _ _ _ Hb). reflexivity.
  - apply (processRoots_plausible fuel (runtimeOf properties) (reading w) _ _ _ _ Ho).
    split; cbn; lia.
Qed.

(** X28.  When every folder of the store reaches a parentless folder
    within the fuel and a root is configured, the figures of the final
    summary are plausible: no more folders are reported as processed than
    as found, and no more files as deleted than as analyzed. *)
Theorem summary_figures_plausible :
  forall fuel properties w,
    wellRooted w fuel ->
    ROOT_FOLDER_IDS properties <> [] ->
    exists total evs,
      events (cleanDuplicateAttachments fuel properties w) =
        evs ++ [EvLog (LogSummary total)] /\
      plausible total.
Proof. exact summary_plausible. Qed.

(** * The window test of the dedup pass *)

(** X29.  In a group of two or more members, the member [oldest] that
    the sort places first is a member of the group created no later than
    any other, and a member [d] placed after it is trashed exactly when
    [created d - created oldest], measured against that first member, is
    strictly below the configured window; a member at or beyond the window
    value is retained.  The [setTrashed] call is issued only with dry-run
    off. *)
Theorem later_member_trashed_iff_within_window :
  forall folder config w acc md5 group oldest rest d,
    files_unique w ->
    findFolder w folder <> None ->
    outcome (collectGroups folder config w) = Ok acc ->
    In (md5, group) (ga_groups acc) ->
    (2 <= List.length group)%nat ->
    sortByCreated group = oldest :: rest ->
    In d rest ->
    In oldest group /\
    (forall m, In m group -> (fi_created oldest <= fi_created m)%Z) /\
    (In (EvSetTrashedFile (fi_id d)) (events (processFolder folder config w)) <->
       DRY_RUN (base config) = false /\
       (fi_created d - fi_created oldest < DUPLICATION_WINDOW_MS config)%Z) /\
    (DRY_RUN (base config) = false ->
       (fileTrashed (world (processFolder folder config w)) (fi_id d) = Some true <->
        (fi_created d - fi_created oldest < DUPLICATION_WINDOW_MS config)%Z)) /\
    ((DUPLICATION_WINDOW_MS config <= fi_created d - fi_created oldest)%Z ->
       fileTrashed (world (processFolder folder config w)) (fi_id d) = Some false).
Proof.
  intros folder config w acc md5 group oldest rest d Hu Hf Hacc Hg Hl Es Hd.
  rewrite collectGroups_run in Hacc. cbn in Hacc. inversion Hacc; subst acc.
  clear Hacc. rewrite accOf_groups in Hg.
  change (ga_groups emptyAcc) with (@nil (string * list FileInfo)) in Hg.
  pose proof (later_member_victim config _ (run_cands_unique folder config w Hu)
                md5 group oldest rest d Hg Hl Es Hd) as Hv.
  assert (fileTrashed w (fi_id d) = Some false) as Hvis.
  { apply (run_member_visible folder config w md5 group); [assumption|].
    apply sortByCreated_in. rewrite Es. now right. }
  assert (withinWindow config oldest d = true <->
          (fi_created d - fi_created oldest < DUPLICATION_WINDOW_MS config)%Z) as Hw
    by (unfold withinWindow; apply Z.ltb_lt).
  destruct (findFolder w folder) as [fd|] eqn:Hfd; [clear Hf|now elim Hf].
  assert (forall id, fileTrashed (world (processFolder folder config w)) id =
            if DRY_RUN (base config) then fileTrashed w id
            else option_map
                   (fun b => b || includes
                      (map fi_id (victims config
                         (groupBy (candidates config
                            (resolve w (listFiles w folder))) []))) id)
                   (fileTrashed w id)) as Hflag
    by (intros id; rewrite run_flag, Hfd; reflexivity).
  split; [apply sortByCreated_in; rewrite Es; now left|].
  split; [now apply (sortByCreated_head_min group oldest rest)|].
  split; [|split].
  - rewrite <- Hw, <- Hv. split.
    + intros Hin. apply run_events in Hin. destruct Hin as [[n E]|[Hin|Hin]].
      * discriminate.
      * apply md5Events_in in Hin. destruct Hin as [f [_ [_ E]]]. discriminate.
      * apply trashEvents_in in Hin. destruct Hin as [Hdry [v [Hin E]]].
        split; [assumption|]. inversion E as [E']. rewrite E'. now apply in_map.
    + intros [Hdry Hin]. rewrite (processFolder_run folder config w fd Hfd).
      cbn [events]. right. apply in_or_app. right. rewrite accOf_groups.
      apply trashEvents_in. split; [assumption|].
      apply in_map_iff in Hin. destruct Hin as [v [E Hin]].
      exists v. split; [assumption|]. now rewrite E.
  - intros Hdry. rewrite Hflag, Hdry, Hvis. cbn. rewrite <- Hw, <- Hv.
    rewrite <- includes_in. split; [intros E; now inversion E | now intros ->].
  - intros Hout. rewrite Hflag, Hvis. destruct (DRY_RUN (base config)); [reflexivity|].
    cbn. rewrite includes_not_in; [reflexivity|].
    intros Hin. apply Hv, Hw in Hin. lia.
Qed.

(** * What a dry run leaves alone *)

(** X30.  In dry-run mode the merge pass and the dedup pass
    issue no mutating store call and leave the files and folders of the
    store as they were, while every decision is taken against that
    unchanged store; the statistics of the dedup pass are those that a run
    with dry-run off returns on the same store. *)
Theorem dry_run_mutates_nothing :
  forall config,
    DRY_RUN (base config) = true ->
    (forall fuel rootFolder globalStartTime w,
        let r := mergeDuplicateFolders fuel rootFolder config globalStartTime w in
        Forall nonMutating (events r) /\ sameStore w (world r)) /\
    (forall folder w,
        let r := processFolder folder config w in
        Forall nonMutating (events r) /\ sameStore w (world r) /\
        outcome r = outcome (processFolder folder (setDryRun false config) w)).
Proof.
  intros config Hdry. split.
  - intros fuel rootFolder globalStartTime w.
    apply (quiet_mergeDuplicateFolders config Hdry).
  - intros folder w. cbv zeta.
    destruct (quiet_processFolder config Hdry folder w) as [He Hs].
    repeat split; try assumption; try apply Hs.
    symmetry. apply processFolder_stats_independent_of_dry_run.
Qed.

(** * The visits of the loop over the subfolders *)

Lemma trashAll_clock ids : forall w,
  w_now (trashAll ids w) = w_now w /\ w_clock (trashAll ids w) = w_clock w.
Proof.
  unfold trashAll. induction ids as [|id ids IH]; intros w; [now split|].
  cbn [fold_left]. destruct (IH (updFiles trashFile id w)) as [-> ->]. now split.
Qed.

Lemma inBudget_reading config start w :
  inBudget config start w -> (reading w - start <= MAX_EXECUTION_TIME_MS config)%Z.
Proof.
  intros [Hn Hc]. unfold reading. destruct (w_clock w) as [|t ts]; [exact Hn|].
  now inversion Hc.
Qed.

Lemma inBudget_tick config start w :
  inBudget config start w -> inBudget config start (tick w).
Proof.
  intros [Hn Hc]. unfold tick, dateNow, inBudget.
  destruct (w_clock w) as [|t ts] eqn:E; cbn [world w_now w_clock].
  - rewrite E. now split.
  - inversion Hc; subst. now split.
Qed.

Lemma inBudget_clock config start w w' :
  w_now w' = w_now w -> w_clock w' = w_clock w ->
  inBudget config start w -> inBudget config start w'.
Proof. unfold inBudget. now intros -> ->. Qed.

Lemma inBudget_processFolder config start folder w :
  inBudget config start w ->
  inBudget config start (world (processFolder folder config w)).
Proof.
  intros H. destruct (findFolder w folder) as [d|] eqn:Hd.
  - rewrite (processFolder_run folder config w d Hd). cbn [world].
    apply inBudget_tick.
    apply (inBudget_clock config start (tick w)); [| |now apply inBudget_tick];
      unfold trashWorld; destruct (DRY_RUN (base config)); try reflexivity;
      apply trashAll_clock.
  - now rewrite (processFolder_missing folder config w Hd).
Qed.

Lemma visitLine_free_md5 config recs :
  filter isVisitLine (md5Events config recs) = [].
Proof.
  unfold md5Events. induction (filter (hashed config) recs) as [|f l IH];
    [reflexivity | exact IH].
Qed.

Lemma visitLine_free_trash config vs :
  filter isVisitLine (trashEvents config vs) = [].
Proof.
  unfold trashEvents. destruct (DRY_RUN (base config)); [reflexivity|].
  induction vs as [|v vs IH]; [reflexivity | exact IH].
Qed.

Lemma present_ext w w' :
  w_folders w' = w_folders w -> forall fi, present w' fi = present w fi.
Proof. intros E fi. unfold present, findFolder. now rewrite E. Qed.

Lemma visitLine_ext w w' :
  w_folders w' = w_folders w -> forall fi, visitLine w' fi = visitLine w fi.
Proof. intros E fi. unfold visitLine, findFolder. now rewrite E. Qed.

Lemma guarded_present folder name config w d :
  findFolder w folder = Some d ->
  exists fs,
    tryCatch (fs <- processFolder folder config ;; ret (Some fs))
             (fun _ => emit (EvLog (LogFolderError name)) ;;; ret None) w
    = mkRes (Ok (Some fs)) (world (processFolder folder config w))
        (events (processFolder folder config w)) /\
    filter isVisitLine (events (processFolder folder config w)) =
      [EvLog (LogProcessingFolder (d_name d))].
Proof.
  intros Hd. rewrite (processFolder_run folder config w d Hd). cbn [world events].
  eexists. split.
  - apply tryCatch_ok.
    rewrite (bind_run _ _ _ _ _ _ (processFolder_run folder config w d Hd)).
    cbn [ret outcome world events]. now rewrite app_nil_r.
  - cbn [filter isVisitLine].
    now rewrite filter_app, visitLine_free_md5, visitLine_free_trash.
Qed.

Lemma guarded_missing folder name config w :
  findFolder w folder = None ->
  tryCatch (fs <- processFolder folder config ;; ret (Some fs))
           (fun _ => emit (EvLog (LogFolderError name)) ;;; ret None) w
  = mkRes (Ok None) w [EvLog (LogFolderError name)].
Proof.
  intros Hd.
  rewrite (tryCatch_thrown _ _ _ _ _ _
             (bind_thrown _ _ _ _ _ _ (processFolder_missing folder config w Hd))).
  reflexivity.
Qed.

Lemma processFoldersLoop_visits :
  forall config globalStartTime folders stats w,
    inBudget config globalStartTime w ->
    exists stats',
      outcome (processFoldersLoop config globalStartTime folders stats w) = Ok stats' /\
      foldersProcessed stats' =
        foldersProcessed stats + List.length (filter (present w) folders) /\
      filter isVisitLine
        (events (processFoldersLoop config globalStartTime folders stats w)) =
        map (visitLine w) folders.
Proof.
  intros config start folders. induction folders as [|fi folders IH]; intros stats w Hb.
  - exists stats. cbn. repeat split; lia.
  - cbn [processFoldersLoop].
    rewrite (bind_run _ _ _ _ _ _ (dateNow_run w)). cbn [outcome events app].
    pose proof (inBudget_reading config start w Hb) as Hr.
    apply Z.ltb_ge in Hr. rewrite Hr.
    pose proof (inBudget_tick config start w Hb) as Hb1.
    cbn [filter map]. unfold present at 1, visitLine at 1.
    rewrite <- (findFolder_ext (tick w) w _ (tick_folders w)).
    destruct (findFolder (tick w) (fo_folder fi)) as [d|] eqn:Hd.
    + destruct (guarded_present (fo_folder fi) (fo_name fi) config (tick w) d Hd)
        as [fs [Hg Hl]].
      pose proof (inBudget_processFolder config start (fo_folder fi) (tick w) Hb1) as Hb2.
      pose proof (processFolder_folders (fo_folder fi) config (tick w)) as Hf.
      rewrite (bind_run _ _ _ _ _ _ Hg). cbn [outcome events world].
      destruct (IH (addFolderStats stats fs) _ Hb2) as [s [Hs [Hn He]]].
      exists s. split; [exact Hs|]. split.
      * rewrite Hn. cbv beta iota. cbn [addFolderStats foldersProcessed].
        rewrite (filter_ext _ _ (present_ext w _ (eq_trans Hf (tick_folders w)))).
        cbn [List.length]. lia.
      * rewrite app_nil_l, filter_app, Hl, He. apply (f_equal (cons _)).
        apply map_ext. intros a. apply visitLine_ext.
        exact (eq_trans Hf (tick_folders w)).
    + rewrite (bind_run _ _ _ _ _ _ (guarded_missing _ _ config _ Hd)).
      cbn [outcome events world].
      destruct (IH stats _ Hb1) as [s [Hs [Hn He]]].
      exists s. split; [exact Hs|]. split.
      * rewrite Hn. cbv beta iota.
        now rewrite (filter_ext _ _ (present_ext w _ (tick_folders w))).
      * rewrite app_nil_l.
        change (filter isVisitLine ([?e] ++ ?l)) with (e :: filter isVisitLine l).
        apply (f_equal (cons _)). rewrite He. apply map_ext.
        intros a. apply visitLine_ext. apply tick_folders.
Qed.

(** X7.  The loop over the subfolders of a root always returns, keeps the
    total and raises the count of processed folders by at most the number
    of subfolders.  While the clock stays within the execution budget,
    every entry of the array is visited, in the order of the array: an
    entry whose folder is in the store is analysed and counted, an entry
    whose analysis throws gets the error line of the [catch] block and is
    not counted, and the entries after it are still visited. *)
Theorem processFoldersLoop_returns :
  forall config globalStartTime folders stats w,
    exists stats',
      outcome (processFoldersLoop config globalStartTime folders stats w) = Ok stats' /\
      totalFolders stats' = totalFolders stats /\
      foldersProcessed stats <= foldersProcessed stats' /\
      foldersProcessed stats' <= foldersProcessed stats + List.length folders /\
      (inBudget config globalStartTime w ->
         foldersProcessed stats' =
           foldersProcessed stats + List.length (filter (present w) folders) /\
         filter isVisitLine
           (events (processFoldersLoop config globalStartTime folders stats w)) =
           map (visitLine w) folders).
Proof.
  intros config start folders stats w.
  destruct (processFoldersLoop_run config start folders stats w)
    as [s [Hs [Ht [Hlo Hhi]]]].
  exists s. repeat (split; [assumption|]). intros Hb.
  destruct (processFoldersLoop_visits config start folders stats w Hb)
    as [s' [Hs' [Hn He]]].
  rewrite Hs in Hs'. injection Hs' as <-. now split.
Qed.

(** * Where the merge pass moves files *)





Section MoveEvents.
Variable config : RuntimeConfig.










End MoveEvents.


End Engine.

(** * Sample runs

    The runs below fix the runtime to [asciiRuntime]; the names of the
    sample stores are made of ASCII characters, on which every runtime's
    lower-casing agrees with it. *)

Section SampleRuns.
#[local] Existing Instance asciiRuntime.

Lemma earliest_member_never_trashed_witness :
  exists oldest rest,
    sortByCreated
      [mkInfo "A" "report.pdf" 0 10; mkInfo "B" "report (1).pdf" hour 10;
       mkInfo "C" "report (2).pdf" (30 * hour) 10] = oldest :: rest /\
    In oldest
      [mkInfo "A" "report.pdf" 0 10; mkInfo "B" "report (1).pdf" hour 10;
       mkInfo "C" "report (2).pdf" (30 * hour) 10] /\
    (forall m,
        In m [mkInfo "A" "report.pdf" 0 10; mkInfo "B" "report (1).pdf" hour 10;
              mkInfo "C" "report (2).pdf" (30 * hour) 10] ->
        (fi_created oldest <= fi_created m)%Z) /\
    ~ In (EvSetTrashedFile (fi_id oldest))
         (events (processFolder "F" (sampleConfig false) threeCopies)) /\
    fileTrashed (world (processFolder "F" (sampleConfig false) threeCopies))
      (fi_id oldest) = Some false.
Proof.
  apply (earliest_member_never_trashed "F" (sampleConfig false) threeCopies
           (accOf (sampleConfig false)
              (resolve threeCopies (listFiles threeCopies "F")) emptyAcc)
           "H1").
  - exact threeCopies_unique.
  - reflexivity.
  - vm_compute. left. reflexivity.
Defined.

Lemma later_member_trashed_iff_within_window_witness :
  files_unique threeCopies /\
  findFolder threeCopies "F" <> None /\
  In ("H1", threeCopiesGroup)
     (ga_groups (accOf (sampleConfig false)
                   (resolve threeCopies (listFiles threeCopies "F")) emptyAcc)) /\
  In (mkInfo "A" "report.pdf" 0 10) threeCopiesGroup /\
  (forall m, In m threeCopiesGroup -> (0 <= fi_created m)%Z) /\
  (In (EvSetTrashedFile "B")
      (events (processFolder "F" (sampleConfig false) threeCopies)) <->
     DRY_RUN (base (sampleConfig false)) = false /\
     (hour - 0 < DUPLICATION_WINDOW_MS (sampleConfig false))%Z) /\
  (DRY_RUN (base (sampleConfig false)) = false ->
     (fileTrashed (world (processFolder "F" (sampleConfig false) threeCopies)) "B"
        = Some true <->
      (hour - 0 < DUPLICATION_WINDOW_MS (sampleConfig false))%Z)) /\
  ((DUPLICATION_WINDOW_MS (sampleConfig false) <= hour - 0)%Z ->
     fileTrashed (world (processFolder "F" (sampleConfig false) threeCopies)) "B"
       = Some false).
Proof.
  split; [exact threeCopies_unique|].
  split; [discriminate|].
  split; [vm_compute; now left|].
  apply (later_member_trashed_iff_within_window "F" (sampleConfig false) threeCopies
           (accOf (sampleConfig false)
              (resolve threeCopies (listFiles threeCopies "F")) emptyAcc)
           "H1" threeCopiesGroup
           (mkInfo "A" "report.pdf" 0 10)
           [mkInfo "B" "report (1).pdf" hour 10;
            mkInfo "C" "report (2).pdf" (30 * hour) 10]
           (mkInfo "B" "report (1).pdf" hour 10)).
  - exact threeCopies_unique.
  - discriminate.
  - reflexivity.
  - vm_compute. now left.
  - cbn. lia.
  - reflexivity.
  - now left.
Defined.

Lemma dedup_idempotent_witness :
  files_unique threeCopies /\
  DRY_RUN (base (sampleConfig false)) = false /\
  let r1 := processFolder "F" (sampleConfig false) threeCopies in
  let r2 := processFolder "F" (sampleConfig false) (world r1) in
  (forall id, ~ In (EvSetTrashedFile id) (events r2)) /\
  w_files (world r2) = w_files (world r1) /\
  (forall stats, outcome r2 = Ok stats ->
     filesDeleted stats = 0 /\ spaceFreed stats = 0%Z) /\
  (findFolder threeCopies "F" <> None -> exists stats, outcome r2 = Ok stats).
Proof.
  split; [exact threeCopies_unique|]. split; [reflexivity|].
  apply (dedup_idempotent "F" (sampleConfig false) threeCopies).
  - exact threeCopies_unique.
  - reflexivity.
Defined.

Lemma collision_resolution_witness :
  let w := collisionStore 0 (2 * hour) in
  let sf := mkFile "i1" "invoice.pdf" (2 * hour) 10 false (Md5Value "H") "S" in
  let ef := mkFile "e1" "invoice.pdf" 0 10 false (Md5Value "H") "T" in
  findFile w "i1" = Some sf /\
  listFilesByName w "T" "invoice.pdf" = ["e1"] /\
  findFile w "e1" = Some ef /\
  exists c,
    outcome (resolveFileConflict "e1" "i1" (sampleConfig false) w) = Ok c /\
    resolution c = KEEP_EXISTING /\
    events (mergeFile "i1" "T" (sampleConfig false) (mkMergeResult 0 0 0) w) =
      [EvGetMd5 "e1"; EvGetMd5 "i1"; EvSetTrashedFile "i1"].
Proof.
  cbv zeta. split; [reflexivity|]. split; [reflexivity|]. split; [reflexivity|].
  destruct (collision_resolution (sampleConfig false) (collisionStore 0 (2 * hour))
              "i1" "T" (mkMergeResult 0 0 0)
              (mkFile "i1" "invoice.pdf" (2 * hour) 10 false (Md5Value "H") "S")
              (mkFile "e1" "invoice.pdf" 0 10 false (Md5Value "H") "T")
              "e1" [] eq_refl eq_refl eq_refl eq_refl)
    as [c [Hc [_ [_ [Hkeep _]]]]].
  exists c. split; [exact Hc|].
  assert (resolution c = KEEP_EXISTING /\
          (DRY_RUN (base (sampleConfig false)) = false ->
           events (mergeFile "i1" "T" (sampleConfig false) (mkMergeResult 0 0 0)
                     (collisionStore 0 (2 * hour))) =
             [EvGetMd5 "e1"; EvGetMd5 "i1"; EvSetTrashedFile "i1"])) as [H1 H2].
  { apply Hkeep; cbn; try discriminate; try reflexivity; unfold hour; lia. }
  split; [exact H1 | now apply H2].
Defined.

Lemma unique_name_first_free_witness :
  (forall j, 2 <= j <= 4 ->
     listFilesByName crowdedTarget "T" (candidateName "invoice.pdf" j) <> []) /\
  listFilesByName crowdedTarget "T" (candidateName "invoice.pdf" 5) = [] /\
  outcome (generateUniqueName "invoice.pdf" "T" crowdedTarget) = Ok "invoice (5).pdf".
Proof.
  assert (forall j, 2 <= j <= 4 ->
            listFilesByName crowdedTarget "T" (candidateName "invoice.pdf" j) <> [])
    as H24.
  { intros j Hj.
    assert (j = 2 \/ j = 3 \/ j = 4) as [-> | [-> | ->]] by lia; discriminate. }
  split; [exact H24|]. split; [reflexivity|].
  destruct (unique_name_first_free "invoice.pdf" "T" crowdedTarget) as [_ [_ H]].
  exact (H H24 eq_refl).
Defined.

Lemma only_first_namesake_consulted_witness :
  let r := mergeFile "i1" "T" (sampleConfig false) (mkMergeResult 0 0 0) twoNamesakes in
  listFilesByName twoNamesakes "T" "invoice.pdf" = ["e1"; "e2"] /\
  Forall (fun e => mentions "e2" e = false) (events r) /\
  findFile (world r) "e2" = findFile twoNamesakes "e2".
Proof.
  cbv zeta. split; [reflexivity|].
  destruct (only_first_namesake_consulted (sampleConfig false) twoNamesakes
              "i1" "T" (mkMergeResult 0 0 0)
              (mkFile "i1" "invoice.pdf" (2 * hour) 10 false (Md5Value "H") "S")
              "e1" ["e2"] "e2" twoNamesakes_unique eq_refl eq_refl)
    as [H1 [H2 _]].
  - discriminate.
  - reflexivity.
  - now left.
  - split; assumption.
Defined.

Lemma dry_run_mutates_nothing_witness :
  DRY_RUN (base (sampleConfig true)) = true /\
  (let r := mergeDuplicateFolders 10 "root" (sampleConfig true) 0 mergeStore in
   Forall nonMutating (events r) /\ sameStore mergeStore (world r)) /\
  (let r := processFolder "F" (sampleConfig true) threeCopies in
   Forall nonMutating (events r) /\ sameStore threeCopies (world r) /\
   outcome r =
     outcome (processFolder "F" (setDryRun false (sampleConfig true)) threeCopies)).
Proof.
  split; [reflexivity|].
  destruct (dry_run_mutates_nothing (sampleConfig true) eq_refl) as [H1 H2].
  split; [apply H1 | apply H2].
Defined.

Lemma first_member_wins_ties_witness :
  selectTargetFolder 3 ([nodeA] ++ nodeB :: [nodeC])
    (setStrategy OLDEST (sampleConfig false)) tiedStore
    = mkRes (Ok nodeB) tiedStore [] /\
  selectTargetFolder 3 ([nodeA] ++ nodeB :: [nodeC])
    (setStrategy NEWEST (sampleConfig false)) tiedStore
    = mkRes (Ok nodeB) tiedStore [] /\
  selectTargetFolder 3 ([nodeA] ++ nodeB :: [nodeC])
    (setStrategy MOST_FILES (sampleConfig false)) tiedStore
    = mkRes (Ok nodeB) tiedStore [].
Proof.
  split; [|split].
  - apply (first_member_wins_ties 3 (setStrategy OLDEST (sampleConfig false))
             tiedStore [nodeA] nodeB [nodeC] tied_nodes_found tied_nodes_height).
    + intros p [<-|[]]. vm_compute. reflexivity.
    + intros q [<-|[]]. vm_compute. discriminate.
  - apply (first_member_wins_ties 3 (setStrategy NEWEST (sampleConfig false))
             tiedStore [nodeA] nodeB [nodeC] tied_nodes_found tied_nodes_height).
    + intros p [<-|[]]. vm_compute. reflexivity.
    + intros q [<-|[]]. vm_compute. discriminate.
  - apply (first_member_wins_ties 3 (setStrategy MOST_FILES (sampleConfig false))
             tiedStore [nodeA] nodeB [nodeC] tied_nodes_found tied_nodes_height).
    + intros p [<-|[]]. vm_compute. lia.
    + intros q [<-|[]]. vm_compute. lia.
Defined.

Lemma processFolder_counts_witness :
  findFolder threeCopies "F" <> None /\
  exists stats,
    outcome (processFolder "F" (sampleConfig false) threeCopies) = Ok stats /\
    filesAnalyzed stats + filesSkipped stats = List.length (visibleIn threeCopies "F") /\
    filesDeleted stats <= filesAnalyzed stats /\
    (0 < filesAnalyzed stats -> filesDeleted stats < filesAnalyzed stats).
Proof.
  split; [discriminate|].
  apply (processFolder_counts "F" (sampleConfig false) threeCopies). discriminate.
Defined.

Lemma processFolder_only_sets_flags_witness :
  findFile threeCopies "B"
    = Some (mkFile "B" "report (1).pdf" hour 10 false (Md5Value "H1") "F") /\
  exists f',
    findFile (world (processFolder "F" (sampleConfig false) threeCopies)) "B"
      = Some f' /\
    f_name f' = "report (1).pdf" /\ f_parent f' = "F".
Proof.
  split; [reflexivity|].
  destruct (processFolder_only_sets_flags "F" (sampleConfig false) threeCopies "B"
              (mkFile "B" "report (1).pdf" hour 10 false (Md5Value "H1") "F")
              eq_refl) as [[f' [Hf [Hs _]]] _].
  exists f'. split; [exact Hf|]. destruct Hs as [_ [Hn [_ [_ [_ Hp]]]]].
  split; assumption.
Defined.

Lemma lowerAscii_idempotent c : lowerAscii (lowerAscii c) = lowerAscii c.
Proof. destruct c as [[] [] [] [] [] [] [] []]; reflexivity. Qed.

Lemma lowerAscii_dot c : lowerAscii c = "."%char -> c = "."%char.
Proof. destruct c as [[] [] [] [] [] [] [] []]; cbv; congruence. Qed.

Lemma lowerAsciiString_idempotent s :
  lowerAsciiString (lowerAsciiString s) = lowerAsciiString s.
Proof.
  induction s as [|c s IH]; [reflexivity|].
  cbn [lowerAsciiString]. now rewrite lowerAscii_idempotent, IH.
Qed.

Lemma lowerAsciiString_dotFree s : dotFree s -> dotFree (lowerAsciiString s).
Proof.
  induction s as [|c s IH]; [trivial|].
  cbn [lowerAsciiString dotFree]. intros [Hc Hs]. split; [|now apply IH].
  intros E. apply Hc. now apply lowerAscii_dot.
Qed.

Lemma getFileExtension_spec_witness :
  (Z.of_nat (String.length "Scan.v2.PDF") < 4294967296)%Z /\
  getFileExtension "Scan.v2.PDF" = "pdf" /\
  getFileExtension ".profile" = EmptyString.
Proof.
  split; [vm_compute; reflexivity|].
  destruct (getFileExtension_spec "Scan.v2.PDF") as [H _];
    [vm_compute; reflexivity|].
  destruct (getFileExtension_spec ".profile") as [_ H'];
    [vm_compute; reflexivity|].
  split.
  - apply (H "Scan.v2" "PDF"); [discriminate | | reflexivity].
    cbn. repeat split; discriminate.
  - apply H'. right. exists "profile". split; [reflexivity|].
    cbn. repeat split; discriminate.
Defined.

Lemma isFileExcluded_spec_witness :
  (Z.of_nat (String.length "setup.EXE") < 4294967296)%Z /\
  isFileExcluded "setup.EXE" ["exe"] = true /\
  "EXE" <> getFileExtension "setup.EXE" /\
  ".exe" <> getFileExtension "setup.EXE".
Proof.
  split; [vm_compute; reflexivity|].
  destruct (isFileExcluded_spec "setup.EXE" ["exe"]) as [H1 _];
    [vm_compute; reflexivity|].
  destruct (isFileExcluded_spec "setup.EXE" ["EXE"; ".exe"]) as [_ [_ [H2 [H3 _]]]];
    [vm_compute; reflexivity|].
  split; [|split].
  - apply H1. vm_compute. now left.
  - apply (H2 lowerAsciiString_idempotent); [now left | discriminate].
  - apply (H3 lowerAsciiString_dotFree); [right; now left|].
    intros [Hd _]. now apply Hd.
Defined.

Lemma isFolderExcluded_spec_witness :
  rootedWithin tiedStore 3 "B" /\
  exists b,
    isFolderExcluded 3 "B" ["root"] tiedStore = mkRes (Ok b) tiedStore [] /\
    (b = true <-> exists x, In x ["root"] /\ ancestorOrSelf tiedStore x "B").
Proof.
  split; [exact I|].
  apply (isFolderExcluded_spec 3 tiedStore "B" ["root"]). exact I.
Defined.

Lemma empty_roots_abort_witness :
  ROOT_FOLDER_IDS noRoots = [] /\
  cleanDuplicateAttachments 10 noRoots mergeStore =
    mkRes (Ok tt) (tick mergeStore)
      [EvLog (LogCriticalError
                "ROOT_FOLDER_IDS is empty. Please run setupConfig() first.")].
Proof.
  split; [reflexivity|]. now apply (empty_roots_abort 10 noRoots mergeStore).
Defined.

Lemma dry_run_whole_run_witness :
  DRY_RUN dryProperties = true /\
  Forall nonMutating (events (cleanDuplicateAttachments 10 dryProperties threeCopies)) /\
  sameStore threeCopies (world (cleanDuplicateAttachments 10 dryProperties threeCopies)).
Proof.
  split; [reflexivity|].
  apply (dry_run_whole_run 10 dryProperties threeCopies). reflexivity.
Defined.

Lemma processRootFolder_returns_witness :
  findFolder threeCopies "root" = Some (mkFolder "root" "Root" 0 0 false None) /\
  wellRooted threeCopies 3 /\
  exists stats,
    outcome (processRootFolder 3 "root" (sampleConfig false) 0 threeCopies) = Ok stats /\
    foldersProcessed stats <= totalFolders stats.
Proof.
  split; [reflexivity|]. split; [exact wellRooted_threeCopies|].
  destruct (processRootFolder_returns 3 "root" (sampleConfig false) 0 threeCopies
              _ eq_refl wellRooted_threeCopies) as [stats [Ho [Hle _]]].
  exists stats. split; assumption.
Defined.

Lemma cleanDuplicateAttachments_returns_witness :
  wellRooted threeCopies 3 /\
  outcome (cleanDuplicateAttachments 3 mergingProperties threeCopies) = Ok tt.
Proof.
  split; [exact wellRooted_threeCopies|].
  apply (cleanDuplicateAttachments_returns 3 mergingProperties threeCopies).
  exact wellRooted_threeCopies.
Defined.



Lemma buildFolderTree_linked_witness :
  wellRooted mergeStore 3 /\
  outcome (buildFolderTree 3 "root" (runtimeOf mergingProperties) mergeStore) =
    Ok [mkNode "T" "Acme" "root" 1 "Root/Acme"; mkNode "S" "Acme" "root" 1 "Root/Acme"] /\
  Forall (linked (runtimeOf mergingProperties) mergeStore)
    [mkNode "T" "Acme" "root" 1 "Root/Acme"; mkNode "S" "Acme" "root" 1 "Root/Acme"].
Proof.
  split; [exact wellRooted_mergeStore|]. split; [reflexivity|].
  apply (buildFolderTree_linked 3 "root" (runtimeOf mergingProperties) mergeStore);
    [exact wellRooted_mergeStore | reflexivity].
Defined.


Lemma mergeFolder_accounts_witness :
  files_unique mergeStore /\
  n_id nodeS <> n_id nodeT /\
  exists res w' evs,
    mergeFolder nodeS nodeT (sampleConfig false) mergeStore = mkRes (Ok res) w' evs /\
    handled res = 1 /\
    visibleIn w' "S" = [].
Proof.
  split; [exact mergeStore_unique|]. split; [discriminate|].
  destruct (mergeFolder_accounts nodeS nodeT (sampleConfig false) mergeStore
              mergeStore_unique) as [res [w' [evs [Hrun [Hh Hgone]]]]].
  - discriminate.
  - exists res, w', evs. split; [exact Hrun|]. split; [exact Hh|].
    apply Hgone. reflexivity.
Defined.

Lemma resolveFileConflict_never_error_witness :
  outcome (resolveFileConflict "e1" "i1" (sampleConfig false)
             (collisionStore 0 (2 * hour))) =
    Ok (mkConflict "e1" "i1" (Some "H") (Some "H") KEEP_EXISTING ExistingIsOlder) /\
  resolution (mkConflict "e1" "i1" (Some "H") (Some "H") KEEP_EXISTING ExistingIsOlder)
    <> ERROR.
Proof.
  split; [reflexivity|].
  apply (resolveFileConflict_never_error "e1" "i1" (sampleConfig false)
           (collisionStore 0 (2 * hour))).
  reflexivity.
Defined.

Lemma trashed_files_sit_in_scanned_subfolders_witness :
  wellRooted threeCopies 3 /\
  In (EvSetTrashedFile "B")
     (events (cleanDuplicateAttachments 3 mergingProperties threeCopies)) /\
  exists root folder,
    In root ["root"] /\ In folder (listFolders threeCopies root) /\
    In "B" (listFiles threeCopies folder).
Proof.
  split; [exact wellRooted_threeCopies|].
  assert (In (EvSetTrashedFile "B")
            (events (cleanDuplicateAttachments 3 mergingProperties threeCopies)))
    as Hin by (vm_compute; tauto).
  split; [exact Hin|].
  destruct (trashed_files_sit_in_scanned_subfolders 3 mergingProperties threeCopies "B"
              wellRooted_threeCopies Hin) as [_ [root [folder [H1 [H2 [_ H3]]]]]].
  exists root, folder. split; [exact H1|]. split; assumption.
Defined.

Lemma merge_trashes_only_duplicate_folders_witness :
  wellRooted mergeStore 3 /\
  In (EvSetTrashedFolder "S")
     (events (mergeDuplicateFolders 3 "root" (sampleConfig false) 0 mergeStore)) /\
  exists tree n,
    In n tree /\ n_id n = "S" /\
    2 <= List.length (withKey (folderKey n) tree).
Proof.
  split; [exact wellRooted_mergeStore|].
  assert (In (EvSetTrashedFolder "S")
            (events (mergeDuplicateFolders 3 "root" (sampleConfig false) 0 mergeStore)))
    as Hin by (vm_compute; tauto).
  split; [exact Hin|].
  destruct (merge_trashes_only_duplicate_folders 3 "root" (sampleConfig false) 0
              mergeStore "S" wellRooted_mergeStore Hin)
    as [_ [tree [n [_ [H1 [H2 [_ H3]]]]]]].
  exists tree, n. split; [exact H1|]. split; assumption.
Defined.

Lemma merge_without_duplicates_witness :
  outcome (buildFolderTree 3 "root" (sampleConfig false) threeCopies) =
    Ok [mkNode "F" "Inbox" "root" 1 "Root/Inbox"] /\
  outcome (mergeDuplicateFolders 3 "root" (sampleConfig false) 0 threeCopies) =
    Ok (mkMergeStats 1 0 0 0 0 0 0) /\
  sameStore threeCopies
    (world (mergeDuplicateFolders 3 "root" (sampleConfig false) 0 threeCopies)).
Proof.
  split; [reflexivity|].
  destruct (merge_without_duplicates 3 "root" (sampleConfig false) 0 threeCopies
              [mkNode "F" "Inbox" "root" 1 "Root/Inbox"] eq_refl) as [H1 [_ H3]].
  - intros n [<-|[]]. vm_compute. lia.
  - split; assumption.
Defined.

Lemma summary_counts_the_calls_witness :
  wellRooted threeCopies 3 /\
  ROOT_FOLDER_IDS mergingProperties <> [] /\
  exists total evs,
    events (cleanDuplicateAttachments 3 mergingProperties threeCopies) =
      evs ++ [EvLog (LogSummary total)] /\
    trashCalls evs = p_filesDeleted total.
Proof.
  split; [exact wellRooted_threeCopies|]. split; [discriminate|].
  destruct (summary_counts_the_calls 3 mergingProperties threeCopies
              wellRooted_threeCopies) as [total [evs [He Ht]]].
  - discriminate.
  - exists total, evs. split; [exact He | exact Ht].
Defined.

Lemma merge_report_consistent_witness :
  outcome (mergeDuplicateFolders 3 "root" (sampleConfig false) 0 mergeStore) =
    Ok (mkMergeStats 2 1 1 1 0 0 1) /\
  exists tree,
    outcome (buildFolderTree 3 "root" (sampleConfig false) mergeStore) = Ok tree /\
    List.length tree = 2.
Proof.
  split; [reflexivity|].
  destruct (merge_report_consistent (rt := asciiRuntime) 3 "root" (sampleConfig false) 0 mergeStore
              (mkMergeStats 2 1 1 1 0 0 1) eq_refl) as [tree [Ho [Hs _]]].
  exists tree. split; [exact Ho | now rewrite <- Hs].
Defined.

Lemma summary_figures_plausible_witness :
  wellRooted threeCopies 3 /\
  ROOT_FOLDER_IDS mergingProperties <> [] /\
  exists total evs,
    events (cleanDuplicateAttachments 3 mergingProperties threeCopies) =
      evs ++ [EvLog (LogSummary total)] /\
    p_filesDeleted total <= p_filesAnalyzed total.
Proof.
  split; [exact wellRooted_threeCopies|]. split; [discriminate|].
  destruct (summary_figures_plausible 3 mergingProperties threeCopies
              wellRooted_threeCopies) as [total [evs [He [_ Hp]]]].
  - discriminate.
  - exists total, evs. split; [exact He | exact Hp].
Defined.

Lemma processFoldersLoop_returns_witness :
  inBudget (sampleConfig false) 0 threeCopies /\
  exists stats',
    outcome (processFoldersLoop (sampleConfig false) 0 sampleVisits
               (mkPStats 0 3 0 0 0 0) threeCopies) = Ok stats' /\
    foldersProcessed stats' = 2 /\
    filter isVisitLine
      (events (processFoldersLoop (sampleConfig false) 0 sampleVisits
                 (mkPStats 0 3 0 0 0 0) threeCopies)) =
      [ EvLog (LogProcessingFolder "Inbox"); EvLog (LogFolderError "Gone");
        EvLog (LogProcessingFolder "Root") ].
Proof.
  assert (inBudget (sampleConfig false) 0 threeCopies) as Hb
    by (split; [vm_compute; discriminate | constructor]).
  split; [exact Hb|].
  destruct (processFoldersLoop_returns (sampleConfig false) 0 sampleVisits
              (mkPStats 0 3 0 0 0 0) threeCopies) as [s [Hs [_ [_ [_ H]]]]].
  destruct (H Hb) as [Hn He].
  exists s. split; [exact Hs|]. split; [exact Hn | exact He].
Defined.


End SampleRuns.
